(** * A Slack webhook receiver with duplicate-delivery suppression

    Shallow embedding of the TypeScript sources of the bot:

    - [lambda.ts]: the AWS Lambda entry point ([handler]) with its in-memory
      dedup cache ([isEventProcessed]), retry detection and timeout race;
    - [api/events.ts] (Vercel entry point, [POST]) with its own copy of the
      dedup cache;
    - [lib/slack-utils.ts]: [isValidSlackRequest], [verifyRequest],
      [checkIfAlreadyResponded], [updateStatusUtil], [getThread], [getBotId];
    - [lib/handle-app-mention.ts], [lib/handle-messages.ts],
      [lib/generate-response.ts]: the response handlers.

    Asynchronous code is written in a state-and-exception monad over an
    explicit process state (module-level variables, [global], the scripted
    answers of the collaborators, and the trace of performed steps). Values
    read from the parsed request body are typed as the TypeScript
    annotations of the sources type them. [console.log] and [console.error]
    calls, and the [Date.now()] calls that only feed them, are not
    modelled. *)

From Stdlib Require Import ZArith String Ascii List Floats.
From stdpp Require Import gmap strings list pretty.
Import ListNotations.
Local Open Scope string_scope.
Local Open Scope list_scope.
Local Open Scope Z_scope.

(** ** JavaScript helpers *)

Module Js.

(** Truthiness of a string value: only the empty string is falsy. *)
Definition truthy (s : string) : bool := negb (String.eqb s "").

(** Truthiness of [string | undefined]. *)
Definition truthy_opt (o : option string) : bool :=
  match o with
  | Some s => truthy s
  | None => false
  end.

(** [a || b] on [string | undefined] operands. *)
Definition or_else (a b : option string) : option string :=
  if truthy_opt a then a else b.

(** [a ?? b]. *)
Definition nullish (a b : option string) : option string :=
  match a with
  | Some _ => a
  | None => b
  end.

(** A value interpolated in a template literal. *)
Definition interp (o : option string) : string := default "undefined" o.

(** [String.prototype.toLowerCase] on the ASCII range (header names are
    ASCII tokens); other bytes are left as they are. *)
Definition lower_ascii (c : ascii) : ascii :=
  let n := nat_of_ascii c in
  if (Nat.leb 65 n && Nat.leb n 90)%bool then ascii_of_nat (n + 32) else c.

Fixpoint toLowerCase (s : string) : string :=
  match s with
  | EmptyString => EmptyString
  | String c r => String (lower_ascii c) (toLowerCase r)
  end.

(** Property read [obj[key]] on an object given by its entries. *)
Fixpoint obj_get {A} (key : string) (obj : list (string * A)) : option A :=
  match obj with
  | [] => None
  | (k, v) :: r => if String.eqb k key then Some v else obj_get key r
  end.

(** *** [parseInt(s)] with no radix argument

    Leading white space is skipped (the white space and line terminators
    of ECMAScript), then an optional sign, then an optional [0x]/[0X]
    prefix that selects radix 16; the longest prefix of digits is read and
    the rest ignored. [None] stands for [NaN]. *)
Definition is_space (c : ascii) : bool :=
  let n := nat_of_ascii c in
  (Nat.eqb n 9 || Nat.eqb n 10 || Nat.eqb n 11 || Nat.eqb n 12
   || Nat.eqb n 13 || Nat.eqb n 32)%bool.

(** U+00A0, in UTF-8. *)
Definition is_nbsp (c1 c2 : ascii) : bool :=
  (Nat.eqb (nat_of_ascii c1) 194 && Nat.eqb (nat_of_ascii c2) 160)%bool.

(** The white space and line terminators that take three bytes in UTF-8:
    U+1680, U+2000 to U+200A, U+2028, U+2029, U+202F, U+205F, U+3000 and
    U+FEFF. *)
Definition is_wide_space (c1 c2 c3 : ascii) : bool :=
  let b1 := nat_of_ascii c1 in
  let b2 := nat_of_ascii c2 in
  let b3 := nat_of_ascii c3 in
  (Nat.eqb b1 225 && Nat.eqb b2 154 && Nat.eqb b3 128
   || Nat.eqb b1 226 && Nat.eqb b2 128
      && (Nat.leb 128 b3 && Nat.leb b3 138
          || Nat.eqb b3 168 || Nat.eqb b3 169 || Nat.eqb b3 175)
   || Nat.eqb b1 226 && Nat.eqb b2 129 && Nat.eqb b3 159
   || Nat.eqb b1 227 && Nat.eqb b2 128 && Nat.eqb b3 128
   || Nat.eqb b1 239 && Nat.eqb b2 187 && Nat.eqb b3 191)%bool.

Fixpoint skip_space (s : string) : string :=
  match s with
  | String c1 r1 =>
      if is_space c1 then skip_space r1
      else
        match r1 with
        | String c2 r2 =>
            if is_nbsp c1 c2 then skip_space r2
            else
              match r2 with
              | String c3 r3 =>
                  if is_wide_space c1 c2 c3 then skip_space r3 else s
              | EmptyString => s
              end
        | EmptyString => s
        end
  | EmptyString => s
  end.

Definition digit_value (radix : Z) (c : ascii) : option Z :=
  let n := Z.of_nat (nat_of_ascii c) in
  let v :=
    if (48 <=? n) && (n <=? 57) then Some (n - 48)
    else if (97 <=? n) && (n <=? 122) then Some (n - 87)
    else if (65 <=? n) && (n <=? 90) then Some (n - 55)
    else None in
  match v with
  | Some d => if d <? radix then Some d else None
  | None => None
  end.

(** Reads digits; [acc] is [None] until a first digit is seen. *)
Fixpoint read_digits (radix : Z) (s : string) (acc : option Z) : option Z :=
  match s with
  | EmptyString => acc
  | String c r =>
      match digit_value radix c with
      | Some d => read_digits radix r (Some (radix * default 0 acc + d))
      | None => acc
      end
  end.

Definition strip_hex_prefix (s : string) : option string :=
  match s with
  | String "0" (String "x" r) => Some r
  | String "0" (String "X" r) => Some r
  | _ => None
  end.

Definition parseInt (input : string) : option Z :=
  let s := skip_space input in
  let '(sign, s) :=
    match s with
    | String "-" r => (-1, r)
    | String "+" r => (1, r)
    | _ => (1, s)
    end in
  let '(radix, s) :=
    match strip_hex_prefix s with
    | Some r => (16, r)
    | None => (10, s)
    end in
  match read_digits radix s None with
  | Some n => Some (sign * n)
  | None => None
  end.

(** *** [JSON.stringify] of a string (QuoteJSONString)

    The string is a sequence of UTF-8 bytes; bytes from 0x80 on belong to
    code points that are written unescaped. *)
Definition dquote : ascii := "034".
Definition backslash : ascii := "092".

Definition hex_digit (n : nat) : ascii :=
  if Nat.ltb n 10 then ascii_of_nat (48 + n) else ascii_of_nat (87 + n).

Definition quote_char (c : ascii) : string :=
  let n := nat_of_ascii c in
  if Nat.eqb n 8 then String backslash "b"
  else if Nat.eqb n 9 then String backslash "t"
  else if Nat.eqb n 10 then String backslash "n"
  else if Nat.eqb n 12 then String backslash "f"
  else if Nat.eqb n 13 then String backslash "r"
  else if Nat.eqb n 34 then String backslash (String dquote "")
  else if Nat.eqb n 92 then String backslash (String backslash "")
  else if Nat.ltb n 32 then
    String backslash
      (String "u" (String "0" (String "0"
         (String (hex_digit (Nat.div n 16)) (String (hex_digit (Nat.modulo n 16)) "")))))
  else String c "".

Fixpoint quote_body (s : string) : string :=
  match s with
  | EmptyString => EmptyString
  | String c r => quote_char c +:+ quote_body r
  end.

Definition quote (s : string) : string :=
  String dquote (quote_body s) +:+ String dquote "".

End Js.

(** ** The dedup cache ([lambda.ts], lines 36-62)

    [api/events.ts] and the Vercel entry point carry the same function over
    variables named [processedEventIds] and [processedEventQueue]. *)

Module DedupCache.

Record Cache := mkCache {
  processedEvents : gset string;
  processedEventsQueue : list string
}.

Definition MAX_CACHE_SIZE : nat := 100.

(** The module-level variables at process start. *)
Definition initial : Cache := mkCache ∅ [].

(** [isEventProcessed(eventId)]: the returned boolean and the cache after
    the call. [shift()] removes and returns the head of the queue; the
    returned identifier is deleted from the set only when it is truthy. *)
Definition isEventProcessed (eventId : string) (c : Cache) : bool * Cache :=
  if bool_decide (eventId ∈ processedEvents c) then (true, c)
  else
    let set1 := {[eventId]} ∪ processedEvents c in
    let queue1 := processedEventsQueue c ++ [eventId] in
    if Nat.ltb MAX_CACHE_SIZE (length queue1) then
      match queue1 with
      | oldestEventId :: rest =>
          (false,
           mkCache (if Js.truthy oldestEventId
                    then set1 ∖ {[oldestEventId]} else set1) rest)
      | [] => (false, mkCache set1 queue1)
      end
    else (false, mkCache set1 queue1).

(** A sequence of calls, in order: the answers and the final cache. *)
Fixpoint calls (ids : list string) (c : Cache) : list bool * Cache :=
  match ids with
  | [] => ([], c)
  | x :: rest =>
      let '(b, c1) := isEventProcessed x c in
      let '(bs, c2) := calls rest c1 in
      (b :: bs, c2)
  end.

(** The caches a process can be in: those produced from the initial one by
    some sequence of calls. *)
Definition reachable (c : Cache) : Prop :=
  ∃ ids, c = snd (calls ids initial).

(** Number of calls that recorded a new identifier (answered [false]). *)
Definition recorded (answers : list bool) : nat :=
  length (List.filter negb answers).

End DedupCache.

(** ** Data model *)

(** A thrown value: [message] of the [Error], and [error.data.error] for the
    errors of the Slack web client. *)
Record Error := mkError {
  err_message : string;
  err_code : option string
}.

Inductive Result (A : Type) : Type :=
| Ok (a : A)
| Err (e : Error).
Arguments Ok {A} a.
Arguments Err {A} e.

(** [event.assistant_thread] of an [assistant_thread_started] event. *)
Record AssistantThread := mkAssistantThread {
  at_channel_id : option string;
  at_thread_ts : option string
}.

(** The fields of [payload.event] that the code reads. A field is [None]
    when the key is absent from the object ([key in event] is false);
    [ev_bot_profile] tells whether [bot_profile] is present and truthy. A
    truthy [payload.event] that is not an object is the event with every
    field absent. *)
Record SlackEvent := mkSlackEvent {
  ev_type : option string;
  ev_subtype : option string;
  ev_channel : option string;
  ev_channel_type : option string;
  ev_ts : option string;
  ev_thread_ts : option string;
  ev_bot_id : option string;
  ev_bot_profile : bool;
  ev_text : option string;
  ev_assistant_thread : option AssistantThread
}.

(** The fields of the parsed request body that the code reads. *)
Record Payload := mkPayload {
  p_type : option string;
  p_challenge : option string;
  p_event : option SlackEvent;
  p_event_id : option string
}.

(** What [JSON.parse(rawBody)] does: it throws a [SyntaxError], or returns
    [null], or returns a value whose properties can be read; a JSON scalar or
    array has none of the properties above and is the payload with every
    field absent. *)
Inductive ParseResult :=
| ParseThrows (e : Error)
| ParsedNull
| Parsed (p : Payload).

(** A message of [conversations.replies]. *)
Record Message := mkMessage {
  m_bot_id : option string;
  m_thread_ts : option string;
  m_ts : option string;
  m_text : option string
}.

(** The answer of [auth.test]. *)
Record AuthTest := mkAuthTest {
  auth_user_id : option string;
  auth_bot_id : option string
}.

Inductive Role := RoleUser | RoleAssistant.

(** A turn of the conversation; [content] is [None] when the property
    holds [undefined]. *)
Record CoreMessage := mkCoreMessage {
  role : Role;
  content : option string
}.

(** What the text generation call does before the deadline of the caller:
    the progress messages its tools report, in order, and then its text, a
    thrown error, or nothing yet ([GenPending]). *)
Inductive GenOutcome :=
| GenText (text : string)
| GenThrows (e : Error)
| GenPending.

Record Generation := mkGeneration {
  gen_progress : list string;
  gen_outcome : GenOutcome
}.

(** The request of API Gateway; a header value may be [undefined]. *)
Record APIGatewayProxyEvent := mkRequest {
  body : option string;
  isBase64Encoded : bool;
  headers : option (list (string * option string))
}.

Record APIGatewayProxyResult := mkResult {
  statusCode : Z;
  res_headers : list (string * string);
  res_body : string
}.

(** The handlers the routers dispatch to. *)
Inductive HandlerName :=
| HandleNewAppMention
| AssistantThreadMessage
| HandleNewAssistantMessage.

(** Arguments of [chat.postMessage]; [pm_blocks] tells whether a [blocks]
    section (with [unfurl_links: false]) goes with the text. *)
Record PostMessage := mkPostMessage {
  pm_channel : option string;
  pm_thread_ts : option string;
  pm_text : string;
  pm_blocks : bool
}.

(** The steps recorded in the trace, oldest first: the four stages of the
    pipeline as they are entered, and the calls to the collaborators. *)
Inductive Step :=
| StepDedupCache (eventId : string)
| StepVerify
| StepHistoryCheck
| StepDispatch (h : HandlerName)
| CallAuthTest
| CallReplies (channel : option string) (ts : option string) (limit : nat)
| CallPostMessage (args : PostMessage)
| CallUpdate (channel : option string) (ts : option string) (text : string)
| CallSetSuggestedPrompts (channel thread_ts : option string)
| CallGenerateText (messages : list CoreMessage).

(** The functions of the platform the code calls and that are not part of
    the repository. *)
Class Runtime := mkRuntime {
  JSON_parse : string → ParseResult;
  base64_decode : string → string;
  (** [createHmac('sha256', key).update(data).digest('hex')] *)
  hmac_sha256_hex : string → string → string;
  (** [process.env.SLACK_SIGNING_SECRET!] *)
  signingSecret : string;
  (** [parseFloat], into IEEE 754 binary64 *)
  parseFloat : string → float;
  (** the two [replace] calls that turn Markdown links and bold into mrkdwn *)
  to_mrkdwn : string → string
}.

(** The answers of the collaborators, in the order of the calls. A call
    that finds its list empty throws [script_exhausted]. [w_clock n] is the
    value of the [n]-th [Date.now()]. A call of the Slack client settles:
    it resolves or rejects; only the text generation, which the Lambda
    handler races against a timer, can stay pending. *)
Record World := mkWorld {
  w_clock : nat → Z;
  w_auth_test : list (Result AuthTest);
  w_replies : list (Result (option (list Message)));
  w_postMessage : list (Result (option string));
  w_update : list (Result unit);
  w_setSuggestedPrompts : list (Result unit);
  w_generateText : list Generation
}.

(** Process state: module-level variables of the entry point, [global],
    [lastUpdateTime], the collaborators and the trace. *)
Record State := mkState {
  st_cache : DedupCache.Cache;
  st_global : gmap string string;
  st_lastUpdateTime : gmap string Z;
  st_ticks : nat;
  st_world : World;
  st_trace : list Step
}.

(** ** The monad of asynchronous code

    A computation ends with a value, with a thrown error, or is still
    pending when the deadline of the enclosing race passes. *)

Inductive Outcome (A : Type) : Type :=
| Returned (a : A)
| Thrown (e : Error)
| Pending.
Arguments Returned {A} a.
Arguments Thrown {A} e.
Arguments Pending {A}.

Definition M (A : Type) : Type := State → Outcome A * State.

Definition ret {A} (a : A) : M A := λ s, (Returned a, s).

Definition bind {A B} (m : M A) (k : A → M B) : M B :=
  λ s, match m s with
       | (Returned a, s1) => k a s1
       | (Thrown e, s1) => (Thrown e, s1)
       | (Pending, s1) => (Pending, s1)
       end.

Definition throw {A} (e : Error) : M A := λ s, (Thrown e, s).

(** [try { m } catch (error) { h error }] *)
Definition try_catch {A} (m : M A) (h : Error → M A) : M A :=
  λ s, match m s with
       | (Thrown e, s1) => h e s1
       | r => r
       end.

(** A call that is not awaited and whose promise is dropped. *)
Definition detached {A} (m : M A) : M unit :=
  λ s, (Returned tt, snd (m s)).

Declare Scope js_scope.
Delimit Scope js_scope with js.
Notation "x ← y ; z" := (bind y (λ x, z))
  (at level 20, y at level 100, z at level 200, only parsing) : js_scope.
Notation "x ;; z" := (bind x (λ _, z))
  (at level 100, z at level 200, only parsing, right associativity) : js_scope.
Local Open Scope js_scope.

Definition get_state : M State := λ s, (Returned s, s).

Definition log (x : Step) : M unit :=
  λ s, (Returned tt,
        mkState (st_cache s) (st_global s) (st_lastUpdateTime s) (st_ticks s)
                (st_world s) (st_trace s ++ [x])).

Definition set_cache (c : DedupCache.Cache) : M unit :=
  λ s, (Returned tt,
        mkState c (st_global s) (st_lastUpdateTime s) (st_ticks s)
                (st_world s) (st_trace s)).

Definition set_global (g : gmap string string) : M unit :=
  λ s, (Returned tt,
        mkState (st_cache s) g (st_lastUpdateTime s) (st_ticks s)
                (st_world s) (st_trace s)).

Definition set_lastUpdateTime (t : gmap string Z) : M unit :=
  λ s, (Returned tt,
        mkState (st_cache s) (st_global s) t (st_ticks s)
                (st_world s) (st_trace s)).

Definition set_world (w : World) : M unit :=
  λ s, (Returned tt,
        mkState (st_cache s) (st_global s) (st_lastUpdateTime s) (st_ticks s)
                w (st_trace s)).

(** [Date.now()] *)
Definition Date_now : M Z :=
  λ s, (Returned (w_clock (st_world s) (st_ticks s)),
        mkState (st_cache s) (st_global s) (st_lastUpdateTime s)
                (S (st_ticks s)) (st_world s) (st_trace s)).

Definition script_exhausted : Error := mkError "no answer" None.

Definition of_result {A} (r : Result A) : M A :=
  match r with
  | Ok a => ret a
  | Err e => throw e
  end.

(** The initial state of a process in a given world. *)
Definition boot (w : World) : State :=
  mkState DedupCache.initial ∅ ∅ 0%nat w [].

Definition pending {A} : M A := λ s, (Pending, s).

(** [Promise.race([m, createTimeout(ms)])]: the timer rejects when [m] has
    not settled by the deadline; [m] is abandoned, its later steps are not
    part of the run. *)
Definition createTimeout_error (ms : Z) : Error :=
  mkError ("処理がタイムアウトしました (" +:+ pretty ms +:+ "ms)") None.

Definition race {A} (m : M A) (ms : Z) : M A :=
  λ s, match m s with
       | (Pending, s1) => (Thrown (createTimeout_error ms), s1)
       | r => r
       end.

(** ** The Slack web client *)

Module Client.

Definition auth_test : M AuthTest :=
  log CallAuthTest;;
  s ← get_state;
  let w := st_world s in
  match w_auth_test w with
  | [] => throw script_exhausted
  | r :: rest =>
      set_world (mkWorld (w_clock w) rest (w_replies w) (w_postMessage w)
                         (w_update w) (w_setSuggestedPrompts w)
                         (w_generateText w));;
      of_result r
  end.

Definition conversations_replies (channel ts : option string) (limit : nat)
  : M (option (list Message)) :=
  log (CallReplies channel ts limit);;
  s ← get_state;
  let w := st_world s in
  match w_replies w with
  | [] => throw script_exhausted
  | r :: rest =>
      set_world (mkWorld (w_clock w) (w_auth_test w) rest (w_postMessage w)
                         (w_update w) (w_setSuggestedPrompts w)
                         (w_generateText w));;
      of_result r
  end.

(** Returns the [ts] of the posted message, if the answer has one. *)
Definition chat_postMessage (args : PostMessage) : M (option string) :=
  log (CallPostMessage args);;
  s ← get_state;
  let w := st_world s in
  match w_postMessage w with
  | [] => throw script_exhausted
  | r :: rest =>
      set_world (mkWorld (w_clock w) (w_auth_test w) (w_replies w) rest
                         (w_update w) (w_setSuggestedPrompts w)
                         (w_generateText w));;
      of_result r
  end.

Definition chat_update (channel ts : option string) (text : string) : M unit :=
  log (CallUpdate channel ts text);;
  s ← get_state;
  let w := st_world s in
  match w_update w with
  | [] => throw script_exhausted
  | r :: rest =>
      set_world (mkWorld (w_clock w) (w_auth_test w) (w_replies w)
                         (w_postMessage w) rest (w_setSuggestedPrompts w)
                         (w_generateText w));;
      of_result r
  end.

Definition assistant_threads_setSuggestedPrompts
    (channel_id thread_ts : option string) : M unit :=
  log (CallSetSuggestedPrompts channel_id thread_ts);;
  s ← get_state;
  let w := st_world s in
  match w_setSuggestedPrompts w with
  | [] => throw script_exhausted
  | r :: rest =>
      set_world (mkWorld (w_clock w) (w_auth_test w) (w_replies w)
                         (w_postMessage w) (w_update w) rest
                         (w_generateText w));;
      of_result r
  end.

End Client.

(** [generateText] of the AI SDK with the two wiki tools: the answer of
    the model as the world scripts it. *)
Definition generateText (messages : list CoreMessage) : M Generation :=
  log (CallGenerateText messages);;
  s ← get_state;
  let w := st_world s in
  match w_generateText w with
  | [] => throw script_exhausted
  | g :: rest =>
      set_world (mkWorld (w_clock w) (w_auth_test w) (w_replies w)
                         (w_postMessage w) (w_update w)
                         (w_setSuggestedPrompts w) rest);;
      ret g
  end.

(** ** [lib/slack-utils.ts] *)

Module SlackUtils.
Section WithRuntime.
Context `{RT : Runtime}.

(** [getHeader] inside [isValidSlackRequest]: the value of the first key
    that equals [name] up to case. *)
Definition getHeader (hs : list (string * string)) (name : string)
  : option string :=
  let lowerName := Js.toLowerCase name in
  match List.find (λ k, String.eqb (Js.toLowerCase k) lowerName) (map fst hs) with
  | Some key => if Js.truthy key then Js.obj_get key hs else None
  | None => None
  end.

(** [Math.abs(Date.now() / 1000 - parseInt(timestamp)) > 60 * 5], with
    [now] the integer number of milliseconds that [Date.now()] returns. Both
    sides are scaled by 1000 so that the comparison is on integers: the
    difference is a multiple of 0.001, far above the rounding error of the
    division in binary64 for clock values below 2^53, so the scaled
    comparison decides the same way. A [NaN] timestamp compares false. *)
Definition out_of_window (now : Z) (timestamp : option Z) : bool :=
  match timestamp with
  | Some t => 60 * 5 * 1000 <? Z.abs (now - 1000 * t)
  | None => false
  end.

(** [crypto.timingSafeEqual(Buffer.from(a), Buffer.from(b))] inside its
    [try]: buffers of different lengths make it throw, and the [catch]
    answers [false]. *)
Definition timingSafeEqual_or_false (a b : string) : bool :=
  if Nat.eqb (String.length a) (String.length b)
  then String.eqb a b
  else false.

Definition isValidSlackRequest (hs : list (string * string)) (rawBody : string)
  : M bool :=
  let timestamp := getHeader hs "X-Slack-Request-Timestamp" in
  let slackSignature := getHeader hs "X-Slack-Signature" in
  if negb (Js.truthy_opt timestamp) || negb (Js.truthy_opt slackSignature)
  then ret false
  else
    now ← Date_now;
    if out_of_window now (Js.parseInt (Js.interp timestamp)) then ret false
    else
      let base := "v0:" +:+ Js.interp timestamp +:+ ":" +:+ rawBody in
      let hmac := hmac_sha256_hex signingSecret base in
      let computedSignature := "v0=" +:+ hmac in
      ret (timingSafeEqual_or_false computedSignature (Js.interp slackSignature)).

(** [verifyRequest]: [true] stands for a failed verification. *)
Definition verifyRequest (requestType : option string)
    (hs : list (string * string)) (rawBody : string) : M bool :=
  try_catch
    (validRequest ← isValidSlackRequest hs rawBody;
     if negb validRequest
        || negb (bool_decide (requestType = Some "event_callback"))
     then ret true
     else ret false)
    (λ _, ret true).

(** The thread an event belongs to:
    [thread_ts in event && event.thread_ts ? event.thread_ts : event.ts]. *)
Definition threadTs_of (event : SlackEvent) : option string :=
  if Js.truthy_opt (ev_thread_ts event) then ev_thread_ts event else ev_ts event.

(** The predicate of the [filter] in [checkIfAlreadyResponded]. *)
Definition is_later_bot_reply (botId threadTs : option string)
    (event : SlackEvent) (m : Message) : bool :=
  bool_decide (m_bot_id m = botId)
  && bool_decide (m_thread_ts m = threadTs)
  && PrimFloat.ltb (parseFloat (Js.interp (ev_ts event)))
                   (parseFloat (Js.interp (m_ts m))).

Definition checkIfAlreadyResponded (event : SlackEvent) : M bool :=
  if negb (bool_decide (is_Some (ev_channel event))
           && bool_decide (is_Some (ev_ts event)))
  then ret false
  else
    try_catch
      (let threadTs := threadTs_of event in
       messages ← Client.conversations_replies (ev_channel event) threadTs 10;
       match messages with
       | None => ret false
       | Some messages =>
           if Nat.leb (length messages) 1 then ret false
           else
             a ← Client.auth_test;
             let botId := auth_bot_id a in
             let botMessages :=
               List.filter (is_later_bot_reply botId threadTs event) messages in
             if Nat.ltb 0 (length botMessages) then ret true else ret false
       end)
      (λ _, ret false).

(** The functions that report progress. [updateStatusUtil] of this module
    gives [UpdThread]; the three others are the closures that
    [updateStatusUtil] of [handle-app-mention.ts] returns. *)
Inductive Updater :=
| UpdThread (channel thread_ts : option string)
| UpdExisting (channel : option string) (key : string)
| UpdPosted (channel : option string) (ts : option string)
| UpdNoop.

Definition updateStatusUtil (channel thread_ts : option string) : Updater :=
  UpdThread channel thread_ts.

(** Calling the function [u] with [status]. *)
Definition call_updater (u : Updater) (status : string) : M unit :=
  match u with
  | UpdThread channel thread_ts =>
      try_catch
        (Client.chat_postMessage (mkPostMessage channel thread_ts status false);;
         ret tt)
        (λ _, ret tt)
  | UpdExisting channel key =>
      try_catch
        (s ← get_state;
         Client.chat_update channel (st_global s !! key) status)
        (λ _, ret tt)
  | UpdPosted channel ts =>
      if negb (Js.truthy status) then ret tt
      else try_catch (Client.chat_update channel ts status) (λ _, ret tt)
  | UpdNoop => ret tt
  end.

(** [content.includes(pat)] and [content.replace(pat, "")] (first match). *)
Definition includes (pat s : string) : bool :=
  bool_decide (is_Some (String.index 0 pat s)).

Definition remove_first (pat s : string) : string :=
  match String.index 0 pat s with
  | Some i =>
      String.substring 0 i s
      +:+ String.substring (i + String.length pat)
                           (String.length s - (i + String.length pat)) s
  | None => s
  end.

Definition thread_message (botUserId : string) (message : Message)
  : option CoreMessage :=
  let isBot := Js.truthy_opt (m_bot_id message) in
  if negb (Js.truthy_opt (m_text message)) then None
  else
    let content := Js.interp (m_text message) in
    let mention := "<@" +:+ botUserId +:+ ">" in
    let content :=
      if negb isBot && includes mention content
      then remove_first (mention +:+ " ") content
      else content in
    Some (mkCoreMessage (if isBot then RoleAssistant else RoleUser) (Some content)).

Definition getThread (channel_id thread_ts : option string) (botUserId : string)
  : M (list CoreMessage) :=
  try_catch
    (messages ← Client.conversations_replies channel_id thread_ts 50;
     match messages with
     | None => throw (mkError "No messages found in thread" None)
     | Some messages => ret (omap (thread_message botUserId) messages)
     end)
    (λ error,
       if bool_decide (err_code error = Some "missing_scope")
       then ret [mkCoreMessage RoleUser
                   (Some "すみません、プライベートチャンネルの履歴を読み取る権限がありません。管理者にgroups:historyスコープの追加を依頼してください。")]
       else ret [mkCoreMessage RoleUser
                   (Some ("エラーが発生しました: "
                          +:+ (if Js.truthy (err_message error)
                               then err_message error else "不明なエラー")))]).

Definition getBotId : M string :=
  try_catch
    (a ← Client.auth_test;
     if negb (Js.truthy_opt (auth_user_id a))
     then throw (mkError "botUserId is undefined" None)
     else ret (Js.interp (auth_user_id a)))
    (λ error, throw error).

End WithRuntime.
End SlackUtils.

(** ** [lib/generate-response.ts] *)

Module GenerateResponse.
Section WithRuntime.
Context `{RT : Runtime}.

Definition UPDATE_INTERVAL : Z := 2000.

(** The function returned by [throttledUpdate(updateStatus)], with the
    default [operationId]. The call of [updateStatus] is not awaited. *)
Definition throttledUpdate (updateStatus : SlackUtils.Updater)
    (message : string) : M unit :=
  let operationId := "default" in
  now ← Date_now;
  s ← get_state;
  let last := st_lastUpdateTime s !! operationId in
  let recent :=
    match last with
    | Some t => negb (t =? 0) && (now - t <? UPDATE_INTERVAL)
    | None => false
    end in
  if recent then ret tt
  else
    set_lastUpdateTime (<[operationId := now]> (st_lastUpdateTime s));;
    detached (SlackUtils.call_updater updateStatus message).

Fixpoint report_progress (updateStatus : SlackUtils.Updater)
    (progress : list string) : M unit :=
  match progress with
  | [] => ret tt
  | p :: rest => throttledUpdate updateStatus p;; report_progress updateStatus rest
  end.

Definition generateResponse (messages : list CoreMessage)
    (updateStatus : SlackUtils.Updater) : M string :=
  throttledUpdate updateStatus "考え中...";;
  g ← generateText messages;
  report_progress updateStatus (gen_progress g);;
  match gen_outcome g with
  | GenText text => ret (to_mrkdwn text)
  | GenThrows e => throw e
  | GenPending => pending
  end.

End WithRuntime.
End GenerateResponse.

(** ** [lib/handle-app-mention.ts] *)

Module HandleAppMention.
Section WithRuntime.
Context `{RT : Runtime}.

Definition updateStatusUtil (initialStatus : string) (event : SlackEvent)
  : M SlackUtils.Updater :=
  let initialMessageIdKey :=
    "message_" +:+ Js.interp (ev_channel event) +:+ "_"
    +:+ Js.interp (Js.or_else (ev_thread_ts event) (ev_ts event)) in
  s ← get_state;
  if Js.truthy_opt (st_global s !! initialMessageIdKey)
  then ret (SlackUtils.UpdExisting (ev_channel event) initialMessageIdKey)
  else
    try_catch
      (initialMessage ←
         Client.chat_postMessage
           (mkPostMessage (ev_channel event)
                          (Js.nullish (ev_thread_ts event) (ev_ts event))
                          initialStatus false);
       if negb (Js.truthy_opt initialMessage)
       then throw (mkError "Failed to post initial message" None)
       else
         s ← get_state;
         set_global (<[initialMessageIdKey := Js.interp initialMessage]> (st_global s));;
         ret (SlackUtils.UpdPosted (ev_channel event) initialMessage))
      (λ _, ret SlackUtils.UpdNoop).

Definition handleNewAppMention (event : SlackEvent) (botUserId : string)
  : M unit :=
  if Js.truthy_opt (ev_bot_id event)
     || bool_decide (ev_bot_id event = Some botUserId)
     || ev_bot_profile event
  then ret tt
  else
    updateMessage ← updateStatusUtil "処理中..." event;
    try_catch
      (result ←
         (if Js.truthy_opt (ev_thread_ts event)
          then
            messages ← SlackUtils.getThread (ev_channel event) (ev_thread_ts event) botUserId;
            GenerateResponse.generateResponse messages updateMessage
          else
            GenerateResponse.generateResponse
              [mkCoreMessage RoleUser (ev_text event)] updateMessage);
       SlackUtils.call_updater updateMessage result)
      (λ _,
         SlackUtils.call_updater updateMessage
           "処理中にエラーが発生しました。しばらく経ってから再度お試しください。").

End WithRuntime.
End HandleAppMention.

(** ** [lib/handle-messages.ts] *)

Module HandleMessages.
Section WithRuntime.
Context `{RT : Runtime}.

Definition assistantThreadMessage (event : SlackEvent) : M unit :=
  match ev_assistant_thread event with
  | None =>
      throw (mkError "Cannot destructure property 'channel_id' of 'event.assistant_thread' as it is undefined." None)
  | Some thread =>
      let channel_id := at_channel_id thread in
      let thread_ts := at_thread_ts thread in
      Client.chat_postMessage
        (mkPostMessage channel_id thread_ts
           "Hello, I'm an AI assistant built with the AI SDK by Vercel!" false);;
      Client.assistant_threads_setSuggestedPrompts channel_id thread_ts
  end.

Definition handleNewAssistantMessage (event : SlackEvent) (botUserId : string)
  : M unit :=
  if Js.truthy_opt (ev_bot_id event)
     || bool_decide (ev_bot_id event = Some botUserId)
     || ev_bot_profile event
     || negb (Js.truthy_opt (ev_thread_ts event))
  then ret tt
  else
    let thread_ts := ev_thread_ts event in
    let channel := ev_channel event in
    let updateStatus := SlackUtils.updateStatusUtil channel thread_ts in
    SlackUtils.call_updater updateStatus "is thinking...";;
    messages ← SlackUtils.getThread channel thread_ts botUserId;
    result ← GenerateResponse.generateResponse messages updateStatus;
    Client.chat_postMessage (mkPostMessage channel thread_ts result true);;
    SlackUtils.call_updater updateStatus "".

End WithRuntime.
End HandleMessages.

(** The error of reading a property of [null] or [undefined]. *)
Definition TypeError_read (what prop : string) : Error :=
  mkError ("Cannot read properties of " +:+ what +:+ " (reading '" +:+ prop +:+ "')") None.

(** [isEventProcessed] on the cache of the running process. *)
Definition isEventProcessed (eventId : string) : M bool :=
  s ← get_state;
  let '(answer, c) := DedupCache.isEventProcessed eventId (st_cache s) in
  set_cache c;;
  ret answer.

(** The condition under which both routers hand a [message] event to
    [handleNewAssistantMessage]. *)
Definition is_direct_message (slackEvent : SlackEvent) (botUserId : string) : bool :=
  bool_decide (ev_type slackEvent = Some "message")
  && negb (Js.truthy_opt (ev_subtype slackEvent))
  && bool_decide (ev_channel_type slackEvent = Some "im")
  && negb (Js.truthy_opt (ev_bot_id slackEvent))
  && negb (ev_bot_profile slackEvent)
  && negb (bool_decide (ev_bot_id slackEvent = Some botUserId)).

(** ** [lambda.ts]: the AWS Lambda entry point *)

Module Lambda.
Section WithRuntime.
Context `{RT : Runtime}.

(** [isRetryRequest]: the headers are copied under lower-cased names, a
    later key overwriting an earlier one, and [x-slack-retry-num] is
    tested for truthiness. *)
Definition isRetryRequest (hs : list (string * option string)) : bool :=
  let headers_lower : gmap string (option string) :=
    foldl (λ acc key, <[Js.toLowerCase key := default None (Js.obj_get key hs)]> acc)
          ∅ (map fst hs) in
  let retryNum := default None (headers_lower !! "x-slack-retry-num") in
  Js.truthy_opt retryNum.

Definition isMessageEvent (event : SlackEvent) : bool :=
  (bool_decide (ev_type event = Some "app_mention")
   || bool_decide (ev_type event = Some "message"))
  && bool_decide (is_Some (ev_channel event))
  && bool_decide (is_Some (ev_ts event)).

Definition apology : string :=
  "申し訳ありません、処理中にエラーが発生しました。しばらく経ってからもう一度お試しください。".

(** [JSON.stringify({ challenge: payload.challenge })]: an [undefined]
    property is left out. *)
Definition stringify_challenge (challenge : option string) : string :=
  match challenge with
  | Some c => "{" +:+ Js.quote "challenge" +:+ ":" +:+ Js.quote c +:+ "}"
  | None => "{}"
  end.

(** The thread-history check of lines 155-169; [Some r] when the handler
    returns [r] from inside it. *)
Definition history_gate (slackEvent : SlackEvent)
  : M (option APIGatewayProxyResult) :=
  if isMessageEvent slackEvent then
    try_catch
      (log StepHistoryCheck;;
       isAlreadyProcessed ← SlackUtils.checkIfAlreadyResponded slackEvent;
       if isAlreadyProcessed
       then ret (Some (mkResult 200 []
                   "Event already processed (verified via thread history)"))
       else ret None)
      (λ _, ret None)
  else ret None.

(** The dispatch of lines 177-220. *)
Definition dispatch (slackEvent : SlackEvent) (botUserId : string)
    (timeoutMs : Z) : M unit :=
  if bool_decide (ev_type slackEvent = Some "app_mention") then
    try_catch
      (log (StepDispatch HandleNewAppMention);;
       race (HandleAppMention.handleNewAppMention slackEvent botUserId) timeoutMs)
      (λ _,
         try_catch
           (if isMessageEvent slackEvent
            then
              Client.chat_postMessage
                (mkPostMessage (ev_channel slackEvent)
                   (Js.or_else (ev_thread_ts slackEvent) (ev_ts slackEvent))
                   apology false);;
              ret tt
            else ret tt)
           (λ _, ret tt))
  else if bool_decide (ev_type slackEvent = Some "assistant_thread_started") then
    try_catch
      (log (StepDispatch AssistantThreadMessage);;
       race (HandleMessages.assistantThreadMessage slackEvent) timeoutMs)
      (λ _, ret tt)
  else if is_direct_message slackEvent botUserId then
    try_catch
      (log (StepDispatch HandleNewAssistantMessage);;
       race (HandleMessages.handleNewAssistantMessage slackEvent botUserId) timeoutMs)
      (λ _, ret tt)
  else ret tt.

(** The inner [try] block of lines 116-228. *)
Definition process_event (event : APIGatewayProxyEvent) (rawBody : string)
    (requestType : option string) (slackEvent : SlackEvent)
  : M APIGatewayProxyResult :=
  let lambdaRequest_headers :=
    map (λ '(key, value), (key, default "" (Js.or_else value (Some ""))))
        (default [] (headers event)) in
  log StepVerify;;
  verificationResult ← SlackUtils.verifyRequest requestType lambdaRequest_headers rawBody;
  if verificationResult
  then ret (mkResult 200 [] "Verification failed, but returning 200 to avoid retries")
  else
    botUserId ← SlackUtils.getBotId;
    let isRetry :=
      match headers event with
      | Some hs => isRetryRequest hs
      | None => false
      end in
    early ← history_gate slackEvent;
    match early with
    | Some r => ret r
    | None =>
        let timeoutMs := if isRetry then 120000 else 160000 in
        dispatch slackEvent botUserId timeoutMs;;
        ret (mkResult 200 [] "処理が完了しました")
    end.

(** [event.body || ''], decoded when [event.isBase64Encoded]. *)
Definition rawBody_of (event : APIGatewayProxyEvent) : string :=
  let rawBody := default "" (Js.or_else (body event) (Some "")) in
  if isBase64Encoded event then base64_decode rawBody else rawBody.

Definition handler (event : APIGatewayProxyEvent) : M APIGatewayProxyResult :=
  let rawBody := rawBody_of event in
  try_catch
    (match JSON_parse rawBody with
     | ParseThrows e => throw e
     | ParsedNull => throw (TypeError_read "null" "type")
     | Parsed payload =>
         if bool_decide (p_type payload = Some "url_verification")
         then ret (mkResult 200 [("Content-Type", "application/json")]
                     (stringify_challenge (p_challenge payload)))
         else
           let requestType := p_type payload in
           duplicate ←
             (match p_event payload with
              | Some _ =>
                  if bool_decide (requestType = Some "event_callback")
                     && Js.truthy_opt (p_event_id payload)
                  then
                    log (StepDedupCache (Js.interp (p_event_id payload)));;
                    isEventProcessed (Js.interp (p_event_id payload))
                  else ret false
              | None => ret false
              end);
           if duplicate
           then ret (mkResult 200 [] "Event already processed")
           else
             match p_event payload with
             | Some slackEvent =>
                 if bool_decide (requestType = Some "event_callback")
                 then
                   try_catch
                     (process_event event rawBody requestType slackEvent)
                     (λ _, ret (mkResult 200 []
                                  "Error occurred, but returning 200 to avoid retries"))
                 else ret (mkResult 200 [] "Success!")
             | None => ret (mkResult 200 [] "Success!")
             end
     end)
    (λ error,
       ret (mkResult 500 [] ("Error processing request: " +:+ err_message error))).

End WithRuntime.
End Lambda.

(** ** The Vercel entry point ([POST]) *)

Module Vercel.
Section WithRuntime.
Context `{RT : Runtime}.

(** The request: its text and the entries that [headers.forEach] visits. *)
Record Request := mkVRequest {
  text : string;
  req_headers : list (string * string)
}.

Record Response := mkResponse {
  resp_body : string;
  status : Z
}.

(** [waitUntil(promise)]: the promise runs on, its outcome is not looked at. *)
Definition waitUntil {A} (m : M A) : M unit := detached m.

(** The check before a handler is started; [Some r] when [POST] returns
    [r] from inside it. *)
Definition history_gate (event : SlackEvent) (answer : string)
  : M (option Response) :=
  if bool_decide (is_Some (ev_channel event)) && bool_decide (is_Some (ev_ts event))
  then
    try_catch
      (log StepHistoryCheck;;
       isAlreadyProcessed ← SlackUtils.checkIfAlreadyResponded event;
       if isAlreadyProcessed then ret (Some (mkResponse answer 200)) else ret None)
      (λ _, ret None)
  else ret None.

(** The [try] block of lines 61-114. *)
Definition process_event (payload : Payload) : M Response :=
  botUserId ← SlackUtils.getBotId;
  match p_event payload with
  | None => throw (TypeError_read "undefined" "type")
  | Some event =>
      early ←
        (if bool_decide (ev_type event = Some "app_mention") then
           early ← history_gate event "Event already responded";
           match early with
           | Some r => ret (Some r)
           | None =>
               log (StepDispatch HandleNewAppMention);;
               waitUntil (HandleAppMention.handleNewAppMention event botUserId);;
               ret None
           end
         else ret None);
      match early with
      | Some r => ret r
      | None =>
          (if bool_decide (ev_type event = Some "assistant_thread_started") then
             log (StepDispatch AssistantThreadMessage);;
             waitUntil (HandleMessages.assistantThreadMessage event)
           else ret tt);;
          early ←
            (if is_direct_message event botUserId then
               early ← history_gate event "Message already responded";
               match early with
               | Some r => ret (Some r)
               | None =>
                   log (StepDispatch HandleNewAssistantMessage);;
                   waitUntil (HandleMessages.handleNewAssistantMessage event botUserId);;
                   ret None
               end
             else ret None);
          match early with
          | Some r => ret r
          | None => ret (mkResponse "Success!" 200)
          end
      end
  end.

Definition POST (request : Request) : M Response :=
  let rawBody := text request in
  match JSON_parse rawBody with
  | ParseThrows e => throw e
  | ParsedNull => throw (TypeError_read "null" "type")
  | Parsed payload =>
      let requestType := p_type payload in
      if bool_decide (requestType = Some "url_verification")
      then ret (mkResponse (default "" (p_challenge payload)) 200)
      else
        duplicate ←
          (match p_event payload with
           | Some _ =>
               if bool_decide (requestType = Some "event_callback")
                  && Js.truthy_opt (p_event_id payload)
               then
                 log (StepDedupCache (Js.interp (p_event_id payload)));;
                 isEventProcessed (Js.interp (p_event_id payload))
               else ret false
           | None => ret false
           end);
        if duplicate
        then ret (mkResponse "Event already processed" 200)
        else
          log StepVerify;;
          SlackUtils.verifyRequest requestType (req_headers request) rawBody;;
          try_catch
            (process_event payload)
            (λ _, ret (mkResponse "Error generating response" 500))
  end.

End WithRuntime.
End Vercel.

(** ** Sample requests and worlds

    Concrete inputs on which the definitions above are evaluated. *)

Module Sample.

(** A mention in channel [C1], not in a thread. *)
Definition mention : SlackEvent :=
  mkSlackEvent (Some "app_mention") None (Some "C1") None (Some "1700000000.25")
               None None false (Some "<@U1> hello") None.

(** A direct message inside the thread [1700000000.25]. *)
Definition dm_in_thread : SlackEvent :=
  mkSlackEvent (Some "message") None (Some "D1") (Some "im")
               (Some "1700000000.5") (Some "1700000000.25")
               None false (Some "hello") None.

(** A top-level direct message. *)
Definition dm_top_level : SlackEvent :=
  mkSlackEvent (Some "message") None (Some "D1") (Some "im")
               (Some "1700000000.5") None None false (Some "hello") None.

Definition payload_challenge : Payload :=
  mkPayload (Some "url_verification") (Some "abc123") None None.

Definition payload_mention : Payload :=
  mkPayload (Some "event_callback") None (Some mention) (Some "Ev01").

Definition payload_dm : Payload :=
  mkPayload (Some "event_callback") None (Some dm_in_thread) (Some "Ev02").

(** JSON text of an object whose members are given as texts. *)
Definition member (key value : string) : string :=
  Js.quote key +:+ ":" +:+ value.

Fixpoint join (members : list string) : string :=
  match members with
  | [] => ""
  | [m] => m
  | m :: rest => m +:+ "," +:+ join rest
  end.

Definition object (members : list string) : string :=
  "{" +:+ join members +:+ "}".

(** Request bodies, as JSON text. *)
Definition body_null : string := "null".

Definition body_challenge : string :=
  object [member "type" (Js.quote "url_verification");
          member "challenge" (Js.quote "abc123")].

Definition body_mention : string :=
  object [member "type" (Js.quote "event_callback");
          member "event_id" (Js.quote "Ev01");
          member "event"
            (object [member "type" (Js.quote "app_mention");
                     member "channel" (Js.quote "C1");
                     member "ts" (Js.quote "1700000000.25");
                     member "text" (Js.quote "<@U1> hello")])].

Definition body_dm : string :=
  object [member "type" (Js.quote "event_callback");
          member "event_id" (Js.quote "Ev02");
          member "event"
            (object [member "type" (Js.quote "message");
                     member "channel" (Js.quote "D1");
                     member "channel_type" (Js.quote "im");
                     member "ts" (Js.quote "1700000000.5");
                     member "thread_ts" (Js.quote "1700000000.25");
                     member "text" (Js.quote "hello")])].

(** [JSON.parse] on the bodies above; this table takes any other text to
    be malformed. *)
Definition sample_parse (s : string) : ParseResult :=
  if String.eqb s body_null then ParsedNull
  else if String.eqb s body_challenge then Parsed payload_challenge
  else if String.eqb s body_mention then Parsed payload_mention
  else if String.eqb s body_dm then Parsed payload_dm
  else ParseThrows (mkError "Unexpected end of JSON input" None).

(** [parseFloat] on the timestamps above. *)
Definition sample_parseFloat (s : string) : float :=
  if String.eqb s "1700000000.25" then 1700000000.25%float
  else if String.eqb s "1700000000.5" then 1700000000.5%float
  else if String.eqb s "1700000000.75" then 1700000000.75%float
  else nan.

(** A stand-in for the keyed hash, which the statements leave arbitrary. *)
Definition sample_hmac (key data : string) : string :=
  "mac(" +:+ key +:+ "," +:+ data +:+ ")".

#[global] Instance runtime : Runtime :=
  mkRuntime sample_parse (λ s, s) sample_hmac "secret" sample_parseFloat (λ s, s).

Definition now0 : Z := 1700000300000.

(** The headers of a signed request whose timestamp is 300 seconds before
    [now0]. *)
Definition verifier_headers (rawBody : string) : list (string * string) :=
  [("X-Slack-Request-Timestamp", "1700000000");
   ("X-Slack-Signature",
    "v0=" +:+ sample_hmac "secret" ("v0:1700000000:" +:+ rawBody))].

Definition signed_headers (rawBody : string) : list (string * option string) :=
  map (λ '(k, v), (k, Some v)) (verifier_headers rawBody).

Definition request (rawBody : string) : APIGatewayProxyEvent :=
  mkRequest (Some rawBody) false (Some (signed_headers rawBody)).

Definition quiet : World :=
  mkWorld (λ _, now0) [] [] [] [] [] [].

Definition auth_ok : Result AuthTest :=
  Ok (mkAuthTest (Some "U1") (Some "B1")).

Definition failure : Error := mkError "service unavailable" None.

(** A bot reply in the thread of [mention], after it. *)
Definition bot_reply : Message :=
  mkMessage (Some "B1") (Some "1700000000.25") (Some "1700000000.75")
            (Some "hi").

Definition user_message : Message :=
  mkMessage None (Some "1700000000.25") (Some "1700000000.25")
            (Some "<@U1> hello").

(** A world in which every Slack call succeeds and the text generation
    throws. *)
Definition generation_fails : World :=
  mkWorld (λ _, now0)
          [auth_ok; auth_ok]
          [Ok (Some [user_message]); Ok (Some [user_message])]
          [Ok (Some "1700000000.000400"); Ok (Some "1700000000.000500");
           Ok (Some "1700000000.000600")]
          [Ok tt; Ok tt]
          []
          [mkGeneration [] (GenThrows failure)].

(** The same with a text generation that does not finish in time. *)
Definition generation_hangs : World :=
  mkWorld (λ _, now0)
          [auth_ok; auth_ok]
          [Ok (Some [user_message]); Ok (Some [user_message])]
          [Ok (Some "1700000000.000400"); Ok (Some "1700000000.000500");
           Ok (Some "1700000000.000600")]
          [Ok tt; Ok tt]
          []
          [mkGeneration [] GenPending].

(** The clock of [quiet] one second later. *)
Definition quiet_later : World :=
  mkWorld (λ _, now0 + 1000) [] [] [] [] [] [].

(** A world whose thread history holds [messages]. *)
Definition history (messages : list Message) : World :=
  mkWorld (λ _, now0) [auth_ok] [Ok (Some messages)] [] [] [] [].


(** Distinct identifiers [1], [2], ... *)
Definition ids_from (start count : nat) : list string :=
  map (λ n : nat, pretty n) (seq start count).

End Sample.

(** * Verification *)

(** ** Definitions used in the statements *)

(** The queue keeps its last [MAX_CACHE_SIZE] entries. *)
Definition trim (l : list string) : list string :=
  drop (length l - DedupCache.MAX_CACHE_SIZE) l.

(** The invariant of the two module-level variables of the cache. *)
Record Inv (c : DedupCache.Cache) : Prop := mkInv {
  inv_nodup : NoDup (DedupCache.processedEventsQueue c);
  inv_length :
    (length (DedupCache.processedEventsQueue c) ≤ DedupCache.MAX_CACHE_SIZE)%nat;
  inv_queue_set :
    ∀ y, y ∈ DedupCache.processedEventsQueue c → y ∈ DedupCache.processedEvents c;
  inv_set_queue :
    ∀ y, y ∈ DedupCache.processedEvents c →
         y ∈ DedupCache.processedEventsQueue c ∨ y = ""
}.

(** The stages of the pipeline. *)
Inductive Stage :=
| DedupCacheCheck
| SignatureVerifier
| HistoryCheck
| Dispatch.

Definition stage_of (x : Step) : option Stage :=
  match x with
  | StepDedupCache _ => Some DedupCacheCheck
  | StepVerify => Some SignatureVerifier
  | StepHistoryCheck => Some HistoryCheck
  | StepDispatch _ => Some Dispatch
  | _ => None
  end.

(** The stages entered along a trace, in order. *)
Definition stages (t : list Step) : list Stage := omap stage_of t.

(** The order in which the routers go through the stages. *)
Definition pipeline : list Stage :=
  [DedupCacheCheck; SignatureVerifier; HistoryCheck; Dispatch].

(** A run of [m] appends steps to the trace, and the stages among them form
    a subsequence of [allowed]. *)
Definition emits {A} (allowed : list Stage) (m : M A) : Prop :=
  ∀ s, ∃ new, st_trace (snd (m s)) = st_trace s ++ new
              ∧ stages new `sublist_of` allowed.

(** [m] is never left pending, and a value it returns satisfies [P]. *)
Definition settles {A} (P : A → Prop) (m : M A) : Prop :=
  ∀ s, match fst (m s) with
       | Returned a => P a
       | Thrown _ => True
       | Pending => False
       end.

(** [m] always returns a value, and the value satisfies [P]. *)
Definition answers {A} (P : A → Prop) (m : M A) : Prop :=
  ∀ s, ∃ a, fst (m s) = Returned a ∧ P a.

Definition any {A} : A → Prop := λ _, True.

Definition ok_result (r : APIGatewayProxyResult) : Prop := statusCode r = 200.

Definition vercel_ok (r : Vercel.Response) : Prop :=
  Vercel.status r = 200 ∨ Vercel.status r = 500.

(** The next call served by [script] throws. *)
Definition fails {A} (script : list (Result A)) : Prop :=
  match script with
  | Ok _ :: _ => False
  | _ => True
  end.

(** The trace has a [chat.postMessage] with the apology of the Lambda
    router. *)
Definition posts_apology (t : list Step) : bool :=
  existsb (λ x, match x with
                | CallPostMessage args => String.eqb (pm_text args) Lambda.apology
                | _ => false
                end) t.

(** The last step of a trace. *)
Definition last_step (t : list Step) : option Step := last t.

(** The payload is a delivery whose identifier is in the dedup cache of
    [s]: the condition under which the routers answer
    ["Event already processed"]. *)
Definition already_recorded (p : Payload) (s : State) : Prop :=
  is_Some (p_event p)
  ∧ p_type p = Some "event_callback"
  ∧ ∃ id, p_event_id p = Some id ∧ id ≠ ""
          ∧ id ∈ DedupCache.processedEvents (st_cache s).

(** The next identity lookup answers with a user id. *)
Definition lookup_answers (s : State) : Prop :=
  ∃ a rest, w_auth_test (st_world s) = Ok a :: rest
            ∧ Js.truthy_opt (auth_user_id a) = true.

Definition vercel_200 (r : Vercel.Response) : Prop := Vercel.status r = 200.

(** ** Further definitions used in the statements *)

(** [m] leaves the component [f] of the state as it is. *)
Definition preserves {A X} (f : State → X) (m : M A) : Prop :=
  ∀ s, f (snd (m s)) = f s.

(** [m] never ends with a thrown error. *)
Definition never_throws {A} (m : M A) : Prop :=
  ∀ s e, fst (m s) ≠ Thrown e.

(** A run of [m] appends steps to the trace, and each of them satisfies
    [P]. *)
Definition steps_satisfy {A} (P : Step → Prop) (m : M A) : Prop :=
  ∀ s, ∃ new, st_trace (snd (m s)) = st_trace s ++ new ∧ Forall P new.

(** The step is one of the two stages that come before any collaborator
    is called. *)
Definition local_stage (x : Step) : Prop :=
  match x with
  | StepDedupCache _ | StepVerify => True
  | _ => False
  end.

(** The headers that the Lambda handler hands to [verifyRequest]
    ([lambdaRequest.headers]). *)
Definition lambda_headers (event : APIGatewayProxyEvent) : list (string * string) :=
  map (λ '(key, value), (key, default "" (Js.or_else value (Some ""))))
      (default [] (headers event)).

(** The identifiers that a sequence of calls of [isEventProcessed]
    recorded: those whose call answered [false]. *)
Fixpoint recorded_ids (ids : list string) (answers : list bool) : list string :=
  match ids, answers with
  | x :: ids', false :: answers' => x :: recorded_ids ids' answers'
  | _ :: ids', true :: answers' => recorded_ids ids' answers'
  | _, _ => []
  end.

(** Two lists of headers with the same values, in the same order, under
    names that are equal up to case. *)
Definition same_up_to_case (hs hs' : list (string * string)) : Prop :=
  Forall2 (λ kv kv', Js.toLowerCase (fst kv) = Js.toLowerCase (fst kv')
                     ∧ snd kv = snd kv') hs hs'.

(** The key under which [handle-app-mention.ts] keeps the timestamp of the
    status message of a thread in [global]. *)
Definition initialMessageIdKey (event : SlackEvent) : string :=
  "message_" +:+ Js.interp (ev_channel event) +:+ "_"
  +:+ Js.interp (Js.or_else (ev_thread_ts event) (ev_ts event)).

(** The payload is an [event_callback] that carries an event and the
    truthy identifier [id]: the condition under which the routers consult
    the dedup cache. *)
Definition delivers (p : Payload) (id : string) : Prop :=
  p_type p = Some "event_callback"
  ∧ is_Some (p_event p)
  ∧ p_event_id p = Some id
  ∧ id ≠ "".

(** The request lacks one of the two headers of a signed request. *)
Definition unsigned (hs : list (string * string)) : Prop :=
  SlackUtils.getHeader hs "X-Slack-Request-Timestamp" = None
  ∨ SlackUtils.getHeader hs "X-Slack-Signature" = None.

(** Fixtures for the greeting of a new assistant thread. *)
Module Greeting.

Definition thread_started : SlackEvent :=
  mkSlackEvent (Some "assistant_thread_started") None None None None None
               None false None
               (Some (mkAssistantThread (Some "D1") (Some "1700000000.25"))).

Definition payload : Payload :=
  mkPayload (Some "event_callback") None (Some thread_started) (Some "Ev03").

Definition body : string :=
  Sample.object
    [Sample.member "type" (Js.quote "event_callback");
     Sample.member "event_id" (Js.quote "Ev03");
     Sample.member "event"
       (Sample.object
          [Sample.member "type" (Js.quote "assistant_thread_started");
           Sample.member "assistant_thread"
             (Sample.object
                [Sample.member "channel_id" (Js.quote "D1");
                 Sample.member "thread_ts" (Js.quote "1700000000.25")])])].

(** [JSON.parse] on [body], and as in [Sample] on any other text. *)
Definition parse (s : string) : ParseResult :=
  if String.eqb s body then Parsed payload else Sample.sample_parse s.

Definition runtime : Runtime :=
  mkRuntime parse (λ s, s) Sample.sample_hmac "secret"
            Sample.sample_parseFloat (λ s, s).

(** A world in which the identity lookup and both calls of the greeting
    succeed. *)
Definition world : World :=
  mkWorld (λ _, Sample.now0) [Sample.auth_ok]
          [] [Ok (Some "1700000000.000400")] [] [Ok tt] [].

End Greeting.

(** The updater rewrites a message and never posts one. *)
Definition rewrites_message (u : SlackUtils.Updater) : Prop :=
  match u with
  | SlackUtils.UpdThread _ _ => False
  | _ => True
  end.

(** The calls a mention makes once its placeholder message exists. *)
Definition reply_step (x : Step) : Prop :=
  match x with
  | CallReplies _ _ _ | CallGenerateText _ | CallUpdate _ _ _ => True
  | _ => False
  end.

(** The placeholder message of a mention. *)
Definition placeholder_post (event : SlackEvent) : Step :=
  CallPostMessage
    (mkPostMessage (ev_channel event)
                   (Js.nullish (ev_thread_ts event) (ev_ts event))
                   "処理中..." false).

(** The apology the Lambda router posts for a mention. *)
Definition apology_post (event : SlackEvent) : Step :=
  CallPostMessage
    (mkPostMessage (ev_channel event)
                   (Js.or_else (ev_thread_ts event) (ev_ts event))
                   Lambda.apology false).

(** The state in which a router starts the handler [h]. *)
Definition started (h : HandlerName) (s : State) : State :=
  snd (log (StepDispatch h) s).

(** From a state that satisfies [I], a run of [m] leads to a state that
    satisfies [I] and appends steps that all satisfy [P]. *)
Definition maintains {A} (I : State → Prop) (P : Step → Prop) (m : M A) : Prop :=
  ∀ s, I s →
       I (snd (m s))
       ∧ ∃ new, st_trace (snd (m s)) = st_trace s ++ new ∧ Forall P new.

(** The step reads the thread, asks for a text, or rewrites the message
    [id] of [channel]. *)
Definition rewrites_only (channel : option string) (id : string) (x : Step)
  : Prop :=
  match x with
  | CallUpdate c t _ => c = channel ∧ t = Some id
  | CallReplies _ _ _ | CallGenerateText _ => True
  | _ => False
  end.

(** [global[key]] holds [id]. *)
Definition stored (key id : string) (s : State) : Prop :=
  st_global s !! key = Some id.

(** The three conditions under which [handleNewAppMention] returns at
    once. *)
Definition from_bot (event : SlackEvent) (botUserId : string) : bool :=
  Js.truthy_opt (ev_bot_id event)
  || bool_decide (ev_bot_id event = Some botUserId)
  || ev_bot_profile event.

(** Two mentions in the thread [1700000000.25] of channel [C1]. *)
Module Thread.

Definition first_mention : SlackEvent :=
  mkSlackEvent (Some "app_mention") None (Some "C1") None
               (Some "1700000000.5") (Some "1700000000.25")
               None false (Some "<@U1> hello") None.

Definition later_mention : SlackEvent :=
  mkSlackEvent (Some "app_mention") None (Some "C1") None
               (Some "1700000000.75") (Some "1700000000.25")
               None false (Some "<@U1> and then?") None.

(** A world in which every Slack call succeeds and the text generation
    answers. *)
Definition answering : World :=
  mkWorld (λ _, Sample.now0)
          [Sample.auth_ok]
          [Ok (Some [Sample.user_message])]
          [Ok (Some "1700000000.000400"); Ok (Some "1700000000.000500");
           Ok (Some "1700000000.000600"); Ok (Some "1700000000.000700")]
          [Ok tt; Ok tt]
          []
          [mkGeneration [] (GenText "hi")].

End Thread.

(** Status updates are throttled from [s] on: [lastUpdateTime.default]
    holds a time other than [0], and every reading of the clock from now on
    is less than [UPDATE_INTERVAL] after it. *)
Definition throttled (s : State) : Prop :=
  ∃ t, st_lastUpdateTime s !! "default" = Some t
       ∧ t ≠ 0
       ∧ ∀ n, (st_ticks s ≤ n)%nat →
              w_clock (st_world s) n - t < GenerateResponse.UPDATE_INTERVAL.

(** The notice that [handleNewAppMention] writes when it has caught an
    error. *)
Definition error_notice : string :=
  "処理中にエラーが発生しました。しばらく経ってから再度お試しください。".

(** The answers left for the text generation calls. *)
Definition generations (s : State) : list Generation :=
  w_generateText (st_world s).

(** How a generation ends, as [generateResponse] passes it on. *)
Definition outcome_of `{RT : Runtime} (g : Generation) : Outcome string :=
  match gen_outcome g with
  | GenText text => Returned (to_mrkdwn text)
  | GenThrows e => Thrown e
  | GenPending => Pending
  end.

(** The messages the direct-message handler posts into the thread of the
    event: a status, and the reply with its [blocks] section. *)
Definition status_post (event : SlackEvent) (status : string) : Step :=
  CallPostMessage
    (mkPostMessage (ev_channel event) (ev_thread_ts event) status false).

Definition reply_post (event : SlackEvent) (result : string) : Step :=
  CallPostMessage
    (mkPostMessage (ev_channel event) (ev_thread_ts event) result true).

(** The four conditions under which [handleNewAssistantMessage] returns at
    once. *)
Definition not_answered (event : SlackEvent) (botUserId : string) : bool :=
  Js.truthy_opt (ev_bot_id event)
  || bool_decide (ev_bot_id event = Some botUserId)
  || ev_bot_profile event
  || negb (Js.truthy_opt (ev_thread_ts event)).

(** ** [lib/generate-response.ts]: the calls to the Backlog wiki

    [fetchSearchWiki] and [fetchBacklogWikiContent] read the environment,
    make one [fetch] and read the answer. The network is a script of
    answers, as the Slack client is; the requested URLs are recorded. *)

Module Backlog.

(** A JSON value, as [response.json()] gives it; a number is a binary64
    and the members of an object have distinct keys. *)
#[warnings="-register-all"] Inductive Json :=
| JNull
| JBool (b : bool)
| JNumber (x : float)
| JString (s : string)
| JArray (items : list Json)
| JObject (members : list (string * Json)).

(** [value[key]] for the keys the code reads, on a value other than
    [null]; [None] stands for [undefined]. None of these keys is a property
    of a string, a number, a boolean or an array. *)
Definition get (key : string) (value : Json) : option Json :=
  match value with
  | JObject members => Js.obj_get key members
  | _ => None
  end.

Definition truthy (value : Json) : bool :=
  match value with
  | JNull => false
  | JBool b => b
  | JNumber x => negb (PrimFloat.eqb x 0 || PrimFloat.is_nan x)
  | JString s => Js.truthy s
  | JArray _ | JObject _ => true
  end.

(** The parts of a [Response] that the code reads; [text] and [json] are
    the outcomes of [response.text()] and [response.json()]. *)
Record Response := mkResponse {
  ok : bool;
  status : Z;
  text : Result string;
  json : Result Json
}.

(** What a [fetch] does: it rejects, it resolves with a response, or it
    does not settle (the calls pass no timeout and no signal). *)
Inductive FetchAnswer :=
| FetchRejects (e : Error)
| FetchResponds (response : Response)
| FetchHangs.

(** [process.env] *)
Record Env := mkEnv {
  BACKLOG_SPACE_ID : option string;
  BACKLOG_API_KEY : option string;
  BACKLOG_PROJECT_ID : option string
}.

(** The environment, the answers the network will give, in order, and the
    URLs requested so far. *)
Record Net := mkNet {
  env : Env;
  answers : list FetchAnswer;
  requests : list string
}.

Definition fetch (url : string) (net : Net) : Outcome Response * Net :=
  let net1 := mkNet (env net) (tail (answers net)) (requests net ++ [url]) in
  match answers net with
  | [] => (Thrown script_exhausted, net1)
  | FetchRejects e :: _ => (Thrown e, net1)
  | FetchResponds response :: _ => (Returned response, net1)
  | FetchHangs :: _ => (Pending, net1)
  end.

(** *** [URLSearchParams.prototype.toString]

    The [application/x-www-form-urlencoded] serializer on the UTF-8 bytes
    of names and values: ASCII letters and digits and [*-._] are kept, a
    space becomes [+], any other byte is percent-encoded with upper-case
    digits. *)
Definition is_unreserved (c : ascii) : bool :=
  let n := nat_of_ascii c in
  ((Nat.leb 48 n && Nat.leb n 57) || (Nat.leb 65 n && Nat.leb n 90)
   || (Nat.leb 97 n && Nat.leb n 122)
   || Nat.eqb n 42 || Nat.eqb n 45 || Nat.eqb n 46 || Nat.eqb n 95)%bool.

Definition hex_upper (n : nat) : ascii :=
  if Nat.ltb n 10 then ascii_of_nat (48 + n) else ascii_of_nat (55 + n).

Definition encode_byte (c : ascii) : string :=
  let n := nat_of_ascii c in
  if Nat.eqb n 32 then "+"
  else if is_unreserved c then String c ""
  else String "%" (String (hex_upper (Nat.div n 16))
                          (String (hex_upper (Nat.modulo n 16)) "")).

Fixpoint form_urlencode (s : string) : string :=
  match s with
  | EmptyString => ""
  | String c rest => encode_byte c +:+ form_urlencode rest
  end.

Fixpoint serialize (params : list (string * string)) : string :=
  match params with
  | [] => ""
  | [(name, value)] => form_urlencode name +:+ "=" +:+ form_urlencode value
  | (name, value) :: rest =>
      form_urlencode name +:+ "=" +:+ form_urlencode value +:+ "&"
      +:+ serialize rest
  end.

(** *** The two calls *)

Definition config_error : Error :=
  mkError "環境変数 BACKLOG_SPACE_ID または BACKLOG_API_KEY が未設定です" None.

Definition api_error (response_status : Z) (text : string) : Error :=
  mkError ("Backlog API エラー (" +:+ pretty response_status +:+ "): " +:+ text)
          None.

Record BacklogWiki := mkBacklogWiki {
  wiki_id : option Json;
  wiki_name : option Json;
  wiki_updated : option Json;
  wiki_projectId : option Json
}.

Record BacklogWikiContent := mkBacklogWikiContent {
  content_name : option Json;
  content_updated : option Json;
  content_updatedUser : option Json;
  content_content : string
}.

(** The callback of [data.map] in [fetchSearchWiki]. *)
Definition pick (wiki : Json) : Result BacklogWiki :=
  match wiki with
  | JNull => Err (TypeError_read "null" "id")
  | _ => Ok (mkBacklogWiki (get "id" wiki) (get "name" wiki)
                           (get "updated" wiki) (get "projectId" wiki))
  end.

(** [items.map(pick)]: the first callback that throws ends the loop. *)
Fixpoint map_pick (items : list Json) : Result (list BacklogWiki) :=
  match items with
  | [] => Ok []
  | wiki :: rest =>
      match pick wiki with
      | Err e => Err e
      | Ok entry =>
          match map_pick rest with
          | Err e => Err e
          | Ok entries => Ok (entry :: entries)
          end
      end
  end.

(** The parameters of the search, in the order they are appended. *)
Definition search_params (API_KEY keyword maxResults : string)
    (projectIdToUse : option string) : list (string * string) :=
  [("apiKey", API_KEY)]
  ++ (if Js.truthy keyword then [("keyword", keyword)] else [])
  ++ [("count", maxResults)]
  ++ (if Js.truthy_opt projectIdToUse
      then [("projectIdOrKey", Js.interp projectIdToUse)] else []).

(** [fetchSearchWiki(keyword, projectId, maxResults)]; [maxResults] is
    given by its text, [maxResults.toString()]. *)
Definition fetchSearchWiki (keyword : string) (projectId : option string)
    (maxResults : string) (net : Net) : Outcome (list BacklogWiki) * Net :=
  let SPACE_ID := BACKLOG_SPACE_ID (env net) in
  let API_KEY := BACKLOG_API_KEY (env net) in
  let DEFAULT_PROJECT_ID := BACKLOG_PROJECT_ID (env net) in
  if negb (Js.truthy_opt SPACE_ID) || negb (Js.truthy_opt API_KEY)
  then (Thrown config_error, net)
  else
    let projectIdToUse := Js.or_else projectId DEFAULT_PROJECT_ID in
    let params :=
      search_params (Js.interp API_KEY) keyword maxResults projectIdToUse in
    let url := "https://" +:+ Js.interp SPACE_ID
               +:+ ".backlog.com/api/v2/wikis?" +:+ serialize params in
    match fetch url net with
    | (Returned response, net1) =>
        if negb (ok response) then
          match text response with
          | Ok text => (Thrown (api_error (status response) text), net1)
          | Err e => (Thrown e, net1)
          end
        else
          match json response with
          | Err e => (Thrown e, net1)
          | Ok (JArray items) =>
              match map_pick items with
              | Ok entries => (Returned entries, net1)
              | Err e => (Thrown e, net1)
              end
          | Ok JNull => (Thrown (TypeError_read "null" "map"), net1)
          | Ok _ => (Thrown (mkError "data.map is not a function" None), net1)
          end
    | (Thrown e, net1) => (Thrown e, net1)
    | (Pending, net1) => (Pending, net1)
    end.

(** [data.updatedUser?.name] *)
Definition updatedUser_name (data : Json) : option Json :=
  match get "updatedUser" data with
  | None | Some JNull => None
  | Some updatedUser => get "name" updatedUser
  end.

(** [fetchBacklogWikiContent(wikiId)]; [trim] is
    [String.prototype.trim]. *)
Definition fetchBacklogWikiContent (trim : string → string) (wikiId : string)
    (net : Net) : Outcome BacklogWikiContent * Net :=
  let SPACE_ID := BACKLOG_SPACE_ID (env net) in
  let API_KEY := BACKLOG_API_KEY (env net) in
  if negb (Js.truthy_opt SPACE_ID) || negb (Js.truthy_opt API_KEY)
  then (Thrown config_error, net)
  else
    let url := "https://" +:+ Js.interp SPACE_ID
               +:+ ".backlog.com/api/v2/wikis/" +:+ wikiId
               +:+ "?apiKey=" +:+ Js.interp API_KEY in
    match fetch url net with
    | (Returned response, net1) =>
        if negb (ok response) then
          match text response with
          | Ok text => (Thrown (api_error (status response) text), net1)
          | Err e => (Thrown e, net1)
          end
        else
          match json response with
          | Err e => (Thrown e, net1)
          | Ok JNull => (Thrown (TypeError_read "null" "name"), net1)
          | Ok data =>
              let result content :=
                mkBacklogWikiContent (get "name" data) (get "updated" data)
                                     (updatedUser_name data) (trim content) in
              match get "content" data with
              | Some (JString content) => (Returned (result content), net1)
              | Some content =>
                  if truthy content
                  then (Thrown (mkError
                          "(intermediate value).trim is not a function" None),
                        net1)
                  else (Returned (result ""), net1)
              | None => (Returned (result ""), net1)
              end
          end
    | (Thrown e, net1) => (Thrown e, net1)
    | (Pending, net1) => (Pending, net1)
    end.

(** Both variables of the environment that the calls need are set and
    not empty. *)
Definition configured (net : Net) : bool :=
  Js.truthy_opt (BACKLOG_SPACE_ID (env net))
  && Js.truthy_opt (BACKLOG_API_KEY (env net)).

(** The address of the wiki API of the space. *)
Definition wikis_endpoint (net : Net) : string :=
  "https://" +:+ Js.interp (BACKLOG_SPACE_ID (env net))
  +:+ ".backlog.com/api/v2/wikis".

(** Number of occurrences of a byte in a text. *)
Fixpoint count_byte (c : ascii) (s : string) : nat :=
  match s with
  | EmptyString => 0
  | String c' rest =>
      (if Ascii.eqb c c' then 1 else 0) + count_byte c rest
  end%nat.

(** Every byte of a text satisfies [P]. *)
Fixpoint all_bytes (P : ascii → bool) (s : string) : bool :=
  match s with
  | EmptyString => true
  | String c rest => P c && all_bytes P rest
  end.

(** The bytes that the serializer writes for a name or a value. *)
Definition encoded_byte (c : ascii) : bool :=
  is_unreserved c || Ascii.eqb c "+" || Ascii.eqb c "%".




End Backlog.

(** The headers carry a timestamp within five minutes of the clock of [s]
    and the signature computed over it and [rawBody]. *)
Definition signed `{RT : Runtime} (hs : list (string * string))
    (rawBody : string) (s : State) : Prop :=
  ∃ t n,
    SlackUtils.getHeader hs "X-Slack-Request-Timestamp" = Some t
    ∧ Js.parseInt t = Some n
    ∧ Z.abs (w_clock (st_world s) (st_ticks s) - 1000 * n) ≤ 300 * 1000
    ∧ SlackUtils.getHeader hs "X-Slack-Signature"
      = Some ("v0=" +:+ hmac_sha256_hex signingSecret
                          ("v0:" +:+ t +:+ ":" +:+ rawBody)).

(** The next answer of the thread history gives no reason to skip the
    event: the call fails, or it answers with at most one message. *)
Definition quiet_history (s : State) : Prop :=
  match w_replies (st_world s) with
  | Ok (Some messages) :: _ => (length messages ≤ 1)%nat
  | _ => True
  end.

(** The steps of the direct-message handler between its first status and
    the end of the text generation: the thread is read (fifty messages),
    the text is asked for, and the only messages posted are statuses, the
    one that precedes the generation and the progress notes of the
    generation, as far as the throttle lets them through. *)
Definition thinking_steps (event : SlackEvent) (g : Generation)
    (mid : list Step) : Prop :=
  ∃ turns before_call after_call,
    mid = [CallReplies (ev_channel event) (ev_thread_ts event) 50]
          ++ before_call ++ [CallGenerateText turns] ++ after_call
    ∧ before_call `sublist_of` [status_post event "考え中..."]
    ∧ after_call `sublist_of` map (status_post event) (gen_progress g).



(** ** The dedup cache *)

Section CacheFacts.
Import DedupCache.

Lemma truthy_false (s : string) : Js.truthy s = false ↔ s = "".
Proof.
  unfold Js.truthy. rewrite negb_false_iff. apply String.eqb_eq.
Qed.

Lemma trim_app (a b : list string) : trim (trim a ++ b) = trim (a ++ b).
Proof.
  unfold trim, MAX_CACHE_SIZE.
  rewrite <- (drop_app_le a b) by lia.
  rewrite drop_drop. f_equal.
  rewrite length_drop, !length_app. lia.
Qed.

Lemma trim_short (l : list string) : (length l ≤ MAX_CACHE_SIZE)%nat → trim l = l.
Proof.
  unfold trim. intros H. replace (length l - MAX_CACHE_SIZE)%nat with 0%nat by lia.
  reflexivity.
Qed.

Lemma Inv_initial : Inv initial.
Proof.
  split; cbn.
  - constructor.
  - lia.
  - intros y Hy. inversion Hy.
  - intros y Hy. set_solver.
Qed.

Lemma hit_spec (x : string) (c : Cache) :
  x ∈ processedEvents c → isEventProcessed x c = (true, c).
Proof.
  intros Hx. unfold isEventProcessed. rewrite bool_decide_eq_true_2; done.
Qed.

Lemma miss_spec (x : string) (c : Cache) :
  Inv c → x ∉ processedEvents c →
  ∃ c', isEventProcessed x c = (false, c')
        ∧ processedEventsQueue c' = trim (processedEventsQueue c ++ [x])
        ∧ Inv c'
        ∧ (∀ y, y ∈ processedEvents c' → y = x ∨ y ∈ processedEvents c).
Proof.
  intros [Hnd Hlen Hqs Hsq] Hx.
  assert (Hxq : x ∉ processedEventsQueue c) by (intros H; apply Hx, Hqs, H).
  unfold isEventProcessed. rewrite bool_decide_eq_false_2 by done.
  destruct (Nat.ltb MAX_CACHE_SIZE (length (processedEventsQueue c ++ [x]))) eqn:Hfull.
  - apply Nat.ltb_lt in Hfull. rewrite length_app in Hfull. cbn in Hfull.
    destruct (processedEventsQueue c) as [|a q] eqn:Hq.
    { cbn in Hfull. unfold MAX_CACHE_SIZE in Hfull. lia. }
    cbn [app]. eexists. split; [reflexivity|]. cbn [processedEventsQueue processedEvents].
    cbn in Hlen, Hfull.
    assert (Hl : length q = 99%nat) by (unfold MAX_CACHE_SIZE in *; lia).
    apply NoDup_cons in Hnd as [Haq Hndq].
    assert (Hax : a ≠ x).
    { intros ->. apply Hxq. left. }
    split.
    { unfold trim, MAX_CACHE_SIZE. cbn [length]. rewrite length_app. cbn [length].
      rewrite Hl. reflexivity. }
    split.
    + split; cbn [processedEventsQueue processedEvents].
      * apply NoDup_app. split; [done|]. split.
        -- intros y Hy Hy'. apply list_elem_of_singleton in Hy' as ->.
           apply Hxq. right. done.
        -- apply NoDup_singleton.
      * rewrite length_app. cbn. unfold MAX_CACHE_SIZE. lia.
      * intros y Hy. apply elem_of_app in Hy.
        assert (y ≠ a).
        { destruct Hy as [Hy|Hy]; [intros ->; done|].
          apply list_elem_of_singleton in Hy as ->. done. }
        assert (y ∈ ({[x]} ∪ processedEvents c : gset string)).
        { destruct Hy as [Hy|Hy].
          - apply elem_of_union_r, Hqs. right. done.
          - apply list_elem_of_singleton in Hy as ->. set_solver. }
        destruct (Js.truthy a); set_solver.
      * intros y Hy.
        assert (Hy' : y ∈ ({[x]} ∪ processedEvents c : gset string) ∧ (y = a → a = "")).
        { destruct (Js.truthy a) eqn:Ht.
          - apply elem_of_difference in Hy as [Hy Hna]. split; [done|].
          intros Heq. exfalso. apply Hna. by apply elem_of_singleton.
          - split; [done|]. intros _. by apply truthy_false. }
        destruct Hy' as [Hy1 Hy2].
        apply elem_of_union in Hy1 as [Hy1|Hy1].
        -- apply elem_of_singleton in Hy1 as ->. left. apply elem_of_app. right. left.
        -- apply Hsq in Hy1 as [Hy1| ->]; [|by right].
           apply elem_of_cons in Hy1 as [->|Hy1].
           ++ right. by apply Hy2.
           ++ left. apply elem_of_app. by left.
    + intros y Hy.
    assert (H1 : y ∈ ({[x]} ∪ processedEvents c : gset string)).
    { destruct (Js.truthy a); [|done]. by apply elem_of_difference in Hy as [Hy _]. }
    apply elem_of_union in H1 as [H1|H1]; [left; by apply elem_of_singleton in H1 | by right].
  - apply Nat.ltb_ge in Hfull. eexists. split; [reflexivity|].
    cbn [processedEventsQueue processedEvents].
    split; [by rewrite trim_short|].
    split.
    + split; cbn [processedEventsQueue processedEvents].
      * apply NoDup_app. split; [done|]. split.
        -- intros y Hy Hy'. apply list_elem_of_singleton in Hy' as ->. done.
        -- apply NoDup_singleton.
      * done.
      * intros y Hy. apply elem_of_app in Hy as [Hy|Hy].
        -- apply elem_of_union_r, Hqs, Hy.
        -- apply list_elem_of_singleton in Hy as ->. set_solver.
      * intros y Hy. apply elem_of_union in Hy as [Hy|Hy].
        -- apply elem_of_singleton in Hy as ->. left. apply elem_of_app. right. left.
        -- apply Hsq in Hy as [Hy| ->]; [|by right]. left. apply elem_of_app. by left.
    + intros y Hy. set_solver.
Qed.

Lemma answer_is_membership (x : string) (c : Cache) :
  fst (isEventProcessed x c) = bool_decide (x ∈ processedEvents c).
Proof.
  unfold isEventProcessed. case_bool_decide; [done|].
  destruct (Nat.ltb _ _); [|done].
  destruct (processedEventsQueue c ++ [x]); done.
Qed.

Lemma Inv_member (x : string) (c : Cache) :
  Inv c → x ≠ "" → x ∈ processedEvents c ↔ x ∈ processedEventsQueue c.
Proof.
  intros HI Hx. split.
  - intros H. destruct (inv_set_queue c HI x H); done.
  - apply inv_queue_set, HI.
Qed.

(** Any sequence of calls: the queue is the old one followed by the
    identifiers that were recorded, cut to its last entries. *)
Lemma calls_spec (ys : list string) (c : Cache) :
  Inv c →
  ∃ news,
    Inv (snd (calls ys c))
    ∧ processedEventsQueue (snd (calls ys c)) = trim (processedEventsQueue c ++ news)
    ∧ length news = recorded (fst (calls ys c))
    ∧ (∀ y, y ∈ processedEvents (snd (calls ys c)) → y ∈ ys ∨ y ∈ processedEvents c).
Proof.
  revert c. induction ys as [|x ys IH]; intros c HI.
  - exists []. cbn. rewrite app_nil_r, trim_short by apply HI. auto.
  - cbn [calls]. destruct (decide (x ∈ processedEvents c)) as [Hx|Hx].
    + rewrite hit_spec by done.
      destruct (IH c HI) as (news & H1 & H2 & H3 & H4).
      destruct (calls ys c) as [bs c2]. cbn [fst snd] in *.
      exists news. split; [done|]. split; [done|]. split; [done|].
      intros y Hy. destruct (H4 y Hy); [left; by right | by right].
    + destruct (miss_spec x c HI Hx) as (c1 & -> & Hq & HI1 & Hs).
      destruct (IH c1 HI1) as (news & H1 & H2 & H3 & H4).
      destruct (calls ys c1) as [bs c2]. cbn [fst snd] in *.
      exists (x :: news). split; [done|]. split; [|split].
      * rewrite H2, Hq, trim_app, <- app_assoc. done.
      * unfold recorded in *. cbn. by rewrite H3.
      * intros y Hy. destruct (H4 y Hy) as [H|H]; [left; by right|].
        destruct (Hs y H) as [->|]; [left; left | by right].
Qed.

(** Calls with distinct identifiers that are not in the set: each one is
    recorded. *)
Lemma calls_fresh (ys : list string) (c : Cache) :
  Inv c → NoDup ys → (∀ y, y ∈ ys → y ∉ processedEvents c) →
  fst (calls ys c) = replicate (length ys) false
  ∧ Inv (snd (calls ys c))
  ∧ processedEventsQueue (snd (calls ys c)) = trim (processedEventsQueue c ++ ys).
Proof.
  revert c. induction ys as [|x ys IH]; intros c HI Hnd Hfresh.
  - cbn. rewrite app_nil_r, trim_short by apply HI. auto.
  - apply NoDup_cons in Hnd as [Hx Hnd].
    destruct (miss_spec x c HI) as (c1 & Hc1 & Hq & HI1 & Hs).
    { apply Hfresh. left. }
    cbn [calls]. rewrite Hc1.
    destruct (IH c1 HI1 Hnd) as (H1 & H2 & H3).
    { intros y Hy Hy'. destruct (Hs y Hy') as [->|H]; [done|].
      apply (Hfresh y); [by right | done]. }
    destruct (calls ys c1) as [bs c2]. cbn in *.
    rewrite H1, H3, Hq, trim_app, <- app_assoc. auto.
Qed.

Lemma reachable_Inv (c : Cache) : reachable c → Inv c.
Proof.
  intros [ids ->].
  destruct (calls_spec ids initial Inv_initial) as (news & H & _). exact H.
Qed.

Lemma reachable_subset (ids : list string) (x : string) :
  x ∈ processedEvents (snd (calls ids initial)) → x ∈ ids.
Proof.
  intros Hx.
  destruct (calls_spec ids initial Inv_initial) as (news & _ & _ & _ & H).
  destruct (H x Hx) as [|H']; [done|]. cbn in H'. set_solver.
Qed.

End CacheFacts.

(** ** Rules for traces and outcomes *)

Section Rules.
Context {A B : Type}.

Lemma emits_weaken l l' (m : M A) : emits l m → l `sublist_of` l' → emits l' m.
Proof.
  intros H Hl s. destruct (H s) as (new & Ht & Hs). exists new. split; [done|].
  by etransitivity.
Qed.

Lemma emits_ret l (a : A) : emits l (ret a).
Proof. intros s. exists []. cbn. rewrite app_nil_r. split; [done|]. apply sublist_nil_l. Qed.

Lemma emits_throw l e : emits l (throw (A:=A) e).
Proof. intros s. exists []. cbn. rewrite app_nil_r. split; [done|]. apply sublist_nil_l. Qed.

Lemma emits_pending l : emits l (pending (A:=A)).
Proof. intros s. exists []. cbn. rewrite app_nil_r. split; [done|]. apply sublist_nil_l. Qed.

Lemma emits_bind l1 l2 (m : M A) (k : A → M B) :
  emits l1 m → (∀ a, emits l2 (k a)) → emits (l1 ++ l2) (bind m k).
Proof.
  intros Hm Hk s. unfold bind. destruct (Hm s) as (t1 & Ht1 & Hs1).
  destruct (m s) as [[a|e|] s1]; cbn [snd] in *.
  - destruct (Hk a s1) as (t2 & Ht2 & Hs2). exists (t1 ++ t2). split.
    + rewrite Ht2, Ht1. by rewrite app_assoc.
    + unfold stages. rewrite omap_app. by apply sublist_app.
  - exists t1. split; [done|]. by apply sublist_inserts_r.
  - exists t1. split; [done|]. by apply sublist_inserts_r.
Qed.

Lemma emits_try l1 l2 (m : M A) (h : Error → M A) :
  emits l1 m → (∀ e, emits l2 (h e)) → emits (l1 ++ l2) (try_catch m h).
Proof.
  intros Hm Hk s. unfold try_catch. destruct (Hm s) as (t1 & Ht1 & Hs1).
  destruct (m s) as [[a|e|] s1]; cbn [snd] in *.
  - exists t1. split; [done|]. by apply sublist_inserts_r.
  - destruct (Hk e s1) as (t2 & Ht2 & Hs2). exists (t1 ++ t2). split.
    + rewrite Ht2, Ht1. by rewrite app_assoc.
    + unfold stages. rewrite omap_app. by apply sublist_app.
  - exists t1. split; [done|]. by apply sublist_inserts_r.
Qed.

Lemma emits_race l (m : M A) ms : emits l m → emits l (race m ms).
Proof.
  intros Hm s. unfold race. destruct (Hm s) as (t1 & Ht1 & Hs1).
  destruct (m s) as [[a|e|] s1]; cbn [snd] in *; eauto.
Qed.

Lemma emits_detached l (m : M A) : emits l m → emits l (detached m).
Proof. intros Hm s. unfold detached. cbn [snd]. apply Hm. Qed.

Lemma settles_weaken (P Q : A → Prop) (m : M A) :
  settles P m → (∀ a, P a → Q a) → settles Q m.
Proof. intros H HPQ s. specialize (H s). destruct (fst (m s)); auto. Qed.

Lemma settles_ret (P : A → Prop) a : P a → settles P (ret a).
Proof. intros H s. exact H. Qed.

Lemma settles_throw (P : A → Prop) e : settles P (throw e).
Proof. intros s. exact I. Qed.

Lemma settles_bind (P : B → Prop) (Q : A → Prop) (m : M A) (k : A → M B) :
  settles Q m → (∀ a, Q a → settles P (k a)) → settles P (bind m k).
Proof.
  intros Hm Hk s. unfold bind. specialize (Hm s).
  destruct (m s) as [[a|e|] s1]; cbn [fst] in *; [by apply Hk | done | done].
Qed.

Lemma settles_try (P : A → Prop) (m : M A) (h : Error → M A) :
  settles P m → (∀ e, settles P (h e)) → settles P (try_catch m h).
Proof.
  intros Hm Hh s. unfold try_catch. specialize (Hm s).
  destruct (m s) as [[a|e|] s1]; cbn [fst] in *; [done | apply Hh | done].
Qed.

Lemma settles_race (m : M A) ms : settles any (race m ms).
Proof. intros s. unfold race. destruct (m s) as [[a|e|] s1]; done. Qed.

Lemma answers_ret (P : A → Prop) a : P a → answers P (ret a).
Proof. intros H s. by exists a. Qed.

Lemma answers_bind (P : B → Prop) (m : M A) (k : A → M B) :
  answers any m → (∀ a, answers P (k a)) → answers P (bind m k).
Proof.
  intros Hm Hk s. unfold bind. destruct (Hm s) as (a & Ha & _).
  destruct (m s) as [o s1]; cbn [fst] in *; subst o. apply Hk.
Qed.

Lemma answers_try (P : A → Prop) (m : M A) (h : Error → M A) :
  settles P m → (∀ e, answers P (h e)) → answers P (try_catch m h).
Proof.
  intros Hm Hh s. unfold try_catch. specialize (Hm s).
  destruct (m s) as [[a|e|] s1]; cbn [fst] in *; [by exists a | apply Hh | done].
Qed.

Lemma answers_try_skip (P : A → Prop) (m : M A) (h : Error → M A) :
  answers P m → answers P (try_catch m h).
Proof.
  intros Hm s. unfold try_catch. destruct (Hm s) as (a & Ha & HP).
  destruct (m s) as [o s1]; cbn [fst] in *; subst o. by exists a.
Qed.

Lemma answers_settles (P : A → Prop) (m : M A) : answers P m → settles P m.
Proof. intros H s. destruct (H s) as (a & -> & Ha). done. Qed.

End Rules.

Lemma answers_detached {A} (m : M A) : answers any (detached m).
Proof. intros s. by exists tt. Qed.

(** Primitive operations *)
Lemma emits_log x : emits (stages [x]) (log x).
Proof. intros s. exists [x]. split; [done|]. reflexivity. Qed.

Lemma emits_get_state l : emits l get_state.
Proof. intros s. exists []. cbn. rewrite app_nil_r. split; [done|]. apply sublist_nil_l. Qed.

Lemma emits_set_cache l c : emits l (set_cache c).
Proof. intros s. exists []. cbn. rewrite app_nil_r. split; [done|]. apply sublist_nil_l. Qed.

Lemma emits_set_global l g : emits l (set_global g).
Proof. intros s. exists []. cbn. rewrite app_nil_r. split; [done|]. apply sublist_nil_l. Qed.

Lemma emits_set_lastUpdateTime l t : emits l (set_lastUpdateTime t).
Proof. intros s. exists []. cbn. rewrite app_nil_r. split; [done|]. apply sublist_nil_l. Qed.

Lemma emits_set_world l w : emits l (set_world w).
Proof. intros s. exists []. cbn. rewrite app_nil_r. split; [done|]. apply sublist_nil_l. Qed.

Lemma emits_Date_now l : emits l Date_now.
Proof. intros s. exists []. cbn. rewrite app_nil_r. split; [done|]. apply sublist_nil_l. Qed.

Lemma emits_of_result {A} l (r : Result A) : emits l (of_result r).
Proof. destruct r; [apply emits_ret | apply emits_throw]. Qed.

Lemma answers_log x : answers any (log x).
Proof. intros s. by exists tt. Qed.

Lemma answers_get_state : answers any get_state.
Proof. intros s. by exists s. Qed.

Lemma answers_set_cache c : answers any (set_cache c).
Proof. intros s. by exists tt. Qed.

Lemma answers_set_world w : answers any (set_world w).
Proof. intros s. by exists tt. Qed.

Lemma answers_Date_now : answers any Date_now.
Proof. intros s. by eexists. Qed.

Lemma settles_of_result {A} (r : Result A) : settles any (of_result r).
Proof. destruct r; intros s; done. Qed.

Create HintDb js_emits.
Create HintDb js_settles.

#[local] Hint Resolve emits_get_state emits_set_cache emits_set_global
emits_set_lastUpdateTime emits_set_world emits_Date_now emits_of_result
: js_emits.

#[local] Hint Resolve answers_settles answers_log answers_get_state answers_set_cache
answers_set_world answers_Date_now settles_of_result : js_settles.

(** Goals [emits [] m] for code that only calls collaborators. *)
Ltac emits_step :=
lazymatch goal with
| |- emits _ (ret _) => apply emits_ret
| |- emits _ (throw _) => apply emits_throw
| |- emits _ pending => apply emits_pending
| |- emits _ (log _) => apply emits_log
| |- emits _ (bind _ _) => apply (emits_bind [] []); [| intros ?]
| |- emits _ (try_catch _ _) => apply (emits_try [] []); [| intros ?]
| |- emits _ (race _ _) => apply emits_race
| |- emits _ (detached _) => apply emits_detached
| |- emits _ (if ?b then _ else _) => destruct b
| |- emits _ (match ?x with _ => _ end) => destruct x
| |- emits _ _ => solve [auto with js_emits]
end.

Ltac emits_nil := cbv zeta; repeat emits_step.

(** Goals [settles any m] for code that cannot be left pending. *)
Ltac settles_step :=
lazymatch goal with
| |- settles _ (ret _) => apply settles_ret; exact I
| |- settles _ (throw _) => apply settles_throw
| |- settles _ (bind _ _) => apply (settles_bind _ any); [| intros ? _]
| |- settles _ (try_catch _ _) => apply settles_try; [| intros ?]
| |- settles _ (race _ _) => apply settles_race
| |- settles _ (if ?b then _ else _) => destruct b
| |- settles _ (match ?x with _ => _ end) => destruct x
| |- settles _ _ => solve [auto with js_settles]
end.

Ltac settles_any := cbv zeta; repeat settles_step.

Section Routers.
Context `{RT : Runtime}.

Lemma emits_auth_test : emits [] Client.auth_test.
Proof. unfold Client.auth_test. emits_nil. Qed.

Lemma emits_conversations_replies c t n : emits [] (Client.conversations_replies c t n).
Proof. unfold Client.conversations_replies. emits_nil. Qed.

Lemma emits_chat_postMessage a : emits [] (Client.chat_postMessage a).
Proof. unfold Client.chat_postMessage. emits_nil. Qed.

Lemma emits_chat_update c t x : emits [] (Client.chat_update c t x).
Proof. unfold Client.chat_update. emits_nil. Qed.

Lemma emits_setSuggestedPrompts c t :
  emits [] (Client.assistant_threads_setSuggestedPrompts c t).
Proof. unfold Client.assistant_threads_setSuggestedPrompts. emits_nil. Qed.

Lemma emits_generateText ms : emits [] (generateText ms).
Proof. unfold generateText. emits_nil. Qed.

Lemma settles_auth_test : settles any Client.auth_test.
Proof. unfold Client.auth_test. settles_any. Qed.

Lemma settles_conversations_replies c t n :
  settles any (Client.conversations_replies c t n).
Proof. unfold Client.conversations_replies. settles_any. Qed.

Lemma settles_chat_postMessage a : settles any (Client.chat_postMessage a).
Proof. unfold Client.chat_postMessage. settles_any. Qed.

#[local] Hint Resolve emits_auth_test emits_conversations_replies
  emits_chat_postMessage emits_chat_update emits_setSuggestedPrompts
  emits_generateText : js_emits.
#[local] Hint Resolve settles_auth_test settles_conversations_replies
  settles_chat_postMessage : js_settles.

Lemma emits_isValidSlackRequest hs rawBody :
  emits [] (SlackUtils.isValidSlackRequest hs rawBody).
Proof. unfold SlackUtils.isValidSlackRequest. emits_nil. Qed.

Lemma emits_verifyRequest ty hs rawBody :
  emits [] (SlackUtils.verifyRequest ty hs rawBody).
Proof.
  unfold SlackUtils.verifyRequest. pose proof emits_isValidSlackRequest. emits_nil.
Qed.

Lemma emits_checkIfAlreadyResponded ev :
  emits [] (SlackUtils.checkIfAlreadyResponded ev).
Proof. unfold SlackUtils.checkIfAlreadyResponded. emits_nil. Qed.

Lemma emits_call_updater u status : emits [] (SlackUtils.call_updater u status).
Proof. unfold SlackUtils.call_updater. emits_nil. Qed.

Lemma emits_getThread c t b : emits [] (SlackUtils.getThread c t b).
Proof. unfold SlackUtils.getThread. emits_nil. Qed.

Lemma emits_getBotId : emits [] SlackUtils.getBotId.
Proof. unfold SlackUtils.getBotId. emits_nil. Qed.

#[local] Hint Resolve emits_isValidSlackRequest emits_verifyRequest
  emits_checkIfAlreadyResponded emits_call_updater emits_getThread
  emits_getBotId : js_emits.

Lemma emits_throttledUpdate u msg : emits [] (GenerateResponse.throttledUpdate u msg).
Proof. unfold GenerateResponse.throttledUpdate. emits_nil. Qed.

#[local] Hint Resolve emits_throttledUpdate : js_emits.

Lemma emits_report_progress u ps : emits [] (GenerateResponse.report_progress u ps).
Proof. induction ps as [|p ps IH]; cbn [GenerateResponse.report_progress]; emits_nil. Qed.

#[local] Hint Resolve emits_report_progress : js_emits.

Lemma emits_generateResponse ms u : emits [] (GenerateResponse.generateResponse ms u).
Proof. unfold GenerateResponse.generateResponse. emits_nil. Qed.

#[local] Hint Resolve emits_generateResponse : js_emits.

Lemma emits_mention_updateStatusUtil st ev :
  emits [] (HandleAppMention.updateStatusUtil st ev).
Proof. unfold HandleAppMention.updateStatusUtil. emits_nil. Qed.

#[local] Hint Resolve emits_mention_updateStatusUtil : js_emits.

Lemma emits_handleNewAppMention ev b :
  emits [] (HandleAppMention.handleNewAppMention ev b).
Proof. unfold HandleAppMention.handleNewAppMention. emits_nil. Qed.

Lemma emits_assistantThreadMessage ev :
  emits [] (HandleMessages.assistantThreadMessage ev).
Proof. unfold HandleMessages.assistantThreadMessage. emits_nil. Qed.

Lemma emits_handleNewAssistantMessage ev b :
  emits [] (HandleMessages.handleNewAssistantMessage ev b).
Proof.
  unfold HandleMessages.handleNewAssistantMessage, SlackUtils.updateStatusUtil.
  emits_nil.
Qed.

Lemma emits_isEventProcessed x : emits [] (isEventProcessed x).
Proof. unfold isEventProcessed. emits_nil. Qed.

Lemma answers_isEventProcessed x : answers any (isEventProcessed x).
Proof.
  intros s. unfold isEventProcessed, bind, get_state.
  destruct (DedupCache.isEventProcessed x (st_cache s)) as [b c]. by exists b.
Qed.

Lemma settles_isValidSlackRequest hs rawBody :
  settles any (SlackUtils.isValidSlackRequest hs rawBody).
Proof. unfold SlackUtils.isValidSlackRequest. settles_any. Qed.

Lemma answers_verifyRequest ty hs rawBody :
  answers any (SlackUtils.verifyRequest ty hs rawBody).
Proof.
  unfold SlackUtils.verifyRequest. apply answers_try.
  - pose proof settles_isValidSlackRequest. settles_any.
  - intros e. by apply answers_ret.
Qed.

Lemma settles_getBotId : settles any SlackUtils.getBotId.
Proof. unfold SlackUtils.getBotId. settles_any. Qed.

Lemma answers_checkIfAlreadyResponded ev :
  answers any (SlackUtils.checkIfAlreadyResponded ev).
Proof.
  unfold SlackUtils.checkIfAlreadyResponded.
  destruct (negb _); [by apply answers_ret|].
  apply answers_try; [settles_any | intros e; by apply answers_ret].
Qed.

#[local] Hint Resolve answers_verifyRequest settles_getBotId
  answers_checkIfAlreadyResponded answers_isEventProcessed : js_settles.
#[local] Hint Resolve emits_handleNewAppMention emits_assistantThreadMessage
  emits_handleNewAssistantMessage emits_isEventProcessed : js_emits.

(** *** The Lambda router *)

Lemma emits_lambda_history_gate ev : emits [HistoryCheck] (Lambda.history_gate ev).
Proof.
  unfold Lambda.history_gate. destruct (Lambda.isMessageEvent ev); [|apply emits_ret].
  apply (emits_try [HistoryCheck] []); [|intros e; apply emits_ret].
  apply (emits_bind [HistoryCheck] []); [apply emits_log | intros _]. emits_nil.
Qed.

Lemma settles_lambda_history_gate ev :
  settles (λ o, ∀ r, o = Some r → ok_result r) (Lambda.history_gate ev).
Proof.
  unfold Lambda.history_gate.
  destruct (Lambda.isMessageEvent ev); [|by apply settles_ret].
  apply settles_try; [|intros e; by apply settles_ret].
  apply (settles_bind _ any); [auto with js_settles | intros _ _].
  apply (settles_bind _ any); [auto with js_settles | intros b _].
  destruct b; apply settles_ret; [by intros r [= <-] | done].
Qed.

Lemma emits_lambda_dispatch ev b ms : emits [Dispatch] (Lambda.dispatch ev b ms).
Proof.
  unfold Lambda.dispatch.
  repeat (case_match; [
    apply (emits_try [Dispatch] []); [|intros e; emits_nil];
    apply (emits_bind [Dispatch] []); [apply emits_log | intros _]; emits_nil |]).
  apply emits_ret.
Qed.

Lemma settles_lambda_dispatch ev b ms : settles any (Lambda.dispatch ev b ms).
Proof. unfold Lambda.dispatch. settles_any. Qed.

Lemma emits_lambda_process_event event rawBody ty ev :
  emits [SignatureVerifier; HistoryCheck; Dispatch]
        (Lambda.process_event event rawBody ty ev).
Proof.
  unfold Lambda.process_event. cbv zeta.
  apply (emits_bind [SignatureVerifier] [HistoryCheck; Dispatch]);
    [apply emits_log | intros _].
  apply (emits_bind [] [HistoryCheck; Dispatch]); [emits_nil | intros failed].
  destruct failed; [apply emits_ret|].
  apply (emits_bind [] [HistoryCheck; Dispatch]); [emits_nil | intros botUserId].
  apply (emits_bind [HistoryCheck] [Dispatch]);
    [apply emits_lambda_history_gate | intros early].
  destruct early; [apply emits_ret|].
  apply (emits_bind [Dispatch] []); [apply emits_lambda_dispatch | intros _].
  apply emits_ret.
Qed.

Lemma settles_lambda_process_event event rawBody ty ev :
  settles ok_result (Lambda.process_event event rawBody ty ev).
Proof.
  unfold Lambda.process_event. cbv zeta.
  apply (settles_bind _ any); [auto with js_settles | intros _ _].
  apply (settles_bind _ any); [auto with js_settles | intros failed _].
  destruct failed; [by apply settles_ret|].
  apply (settles_bind _ any); [auto with js_settles | intros botUserId _].
  eapply settles_bind; [apply settles_lambda_history_gate | intros early Hearly].
  destruct early as [r|]; [apply settles_ret; by apply Hearly|].
  apply (settles_bind _ any); [apply settles_lambda_dispatch | intros _ _].
  by apply settles_ret.
Qed.

(** The cache check of both routers. *)
Lemma emits_cache_gate (p : Payload) :
  emits [DedupCacheCheck]
    (match p_event p with
     | Some _ =>
         if bool_decide (p_type p = Some "event_callback")
            && Js.truthy_opt (p_event_id p)
         then bind (log (StepDedupCache (Js.interp (p_event_id p))))
                   (λ _, isEventProcessed (Js.interp (p_event_id p)))
         else ret false
     | None => ret false
     end).
Proof.
  destruct (p_event p); [|apply emits_ret].
  destruct (_ && _); [|apply emits_ret].
  apply (emits_bind [DedupCacheCheck] []); [apply emits_log | intros _]. emits_nil.
Qed.

Lemma answers_cache_gate (p : Payload) :
  answers any
    (match p_event p with
     | Some _ =>
         if bool_decide (p_type p = Some "event_callback")
            && Js.truthy_opt (p_event_id p)
         then bind (log (StepDedupCache (Js.interp (p_event_id p))))
                   (λ _, isEventProcessed (Js.interp (p_event_id p)))
         else ret false
     | None => ret false
     end).
Proof.
  destruct (p_event p); [|by apply answers_ret].
  destruct (_ && _); [|by apply answers_ret].
  apply answers_bind; [apply answers_log | intros _]. apply answers_isEventProcessed.
Qed.

Lemma emits_lambda_handler event :
  emits pipeline
        (Lambda.handler event).
Proof.
  unfold Lambda.handler. cbv zeta.
  apply (emits_try pipeline []);
    [|intros e; apply emits_ret].
  destruct (JSON_parse _) as [e| |p]; [apply emits_throw | apply emits_throw |].
  case_bool_decide; [apply emits_ret|].
  apply (emits_bind [DedupCacheCheck] [SignatureVerifier; HistoryCheck; Dispatch]);
    [apply emits_cache_gate | intros duplicate].
  destruct duplicate; [apply emits_ret|].
  destruct (p_event p); [|apply emits_ret].
  case_bool_decide; [|apply emits_ret].
  apply (emits_try [SignatureVerifier; HistoryCheck; Dispatch] []);
    [apply emits_lambda_process_event | intros e; apply emits_ret].
Qed.

Lemma answers_lambda_handler_parsed event p :
  JSON_parse (Lambda.rawBody_of event) = Parsed p →
  answers ok_result (Lambda.handler event).
Proof.
  intros Hp. unfold Lambda.handler. cbv zeta. rewrite Hp.
  apply answers_try_skip.
  case_bool_decide; [by apply answers_ret|].
  apply answers_bind; [apply answers_cache_gate | intros duplicate].
  destruct duplicate; [by apply answers_ret|].
  destruct (p_event p); [|by apply answers_ret].
  case_bool_decide; [|by apply answers_ret].
  apply answers_try; [apply settles_lambda_process_event | intros e].
  by apply answers_ret.
Qed.

(** *** The Vercel router *)

Lemma emits_vercel_history_gate ev answer :
  emits [HistoryCheck] (Vercel.history_gate ev answer).
Proof.
  unfold Vercel.history_gate. destruct (_ && _); [|apply emits_ret].
  apply (emits_try [HistoryCheck] []); [|intros e; apply emits_ret].
  apply (emits_bind [HistoryCheck] []); [apply emits_log | intros _]. emits_nil.
Qed.

Lemma settles_vercel_history_gate ev answer :
  settles (λ o, ∀ r, o = Some r → vercel_ok r) (Vercel.history_gate ev answer).
Proof.
  unfold Vercel.history_gate. destruct (_ && _); [|by apply settles_ret].
  apply settles_try; [|intros e; by apply settles_ret].
  apply (settles_bind _ any); [auto with js_settles | intros _ _].
  apply (settles_bind _ any); [auto with js_settles | intros b _].
  destruct b; apply settles_ret; [intros r [= <-]; by left | done].
Qed.

Lemma emits_vercel_process_event p :
  emits [HistoryCheck; Dispatch] (Vercel.process_event p).
Proof.
  unfold Vercel.process_event.
  apply (emits_bind [] [HistoryCheck; Dispatch]); [emits_nil | intros botUserId].
  destruct (p_event p) as [ev|]; [|apply emits_throw].
  destruct (decide (ev_type ev = Some "app_mention")) as [Hty|Hty].
  - rewrite (bool_decide_eq_true_2 _ Hty).
    apply (emits_bind [HistoryCheck; Dispatch] []).
    + apply (emits_bind [HistoryCheck] [Dispatch]);
        [apply emits_vercel_history_gate | intros early].
      destruct early; [apply emits_ret|].
      apply (emits_bind [Dispatch] []); [apply emits_log | intros _].
      unfold Vercel.waitUntil. emits_nil.
    + intros early. destruct early; [apply emits_ret|].
      rewrite bool_decide_eq_false_2 by congruence.
      unfold is_direct_message. rewrite bool_decide_eq_false_2 by congruence.
      cbn [andb]. emits_nil.
  - rewrite (bool_decide_eq_false_2 _ Hty).
    apply (emits_bind [] [HistoryCheck; Dispatch]); [apply emits_ret | intros early].
    destruct early; [apply emits_ret|].
    destruct (decide (ev_type ev = Some "assistant_thread_started")) as [Hty'|Hty'].
    + rewrite (bool_decide_eq_true_2 _ Hty').
      apply (emits_weaken [Dispatch]); [|by apply sublist_cons].
      apply (emits_bind [Dispatch] []).
      * apply (emits_bind [Dispatch] []); [apply emits_log | intros _].
        unfold Vercel.waitUntil. emits_nil.
      * intros _. unfold is_direct_message.
        rewrite bool_decide_eq_false_2 by congruence. cbn [andb]. emits_nil.
    + rewrite (bool_decide_eq_false_2 _ Hty').
      apply (emits_bind [] [HistoryCheck; Dispatch]); [apply emits_ret | intros _].
      apply (emits_bind [HistoryCheck; Dispatch] []); [|intros early; emits_nil].
      destruct (is_direct_message ev botUserId); [|apply emits_ret].
      apply (emits_bind [HistoryCheck] [Dispatch]);
        [apply emits_vercel_history_gate | intros early].
      destruct early; [apply emits_ret|].
      apply (emits_bind [Dispatch] []); [apply emits_log | intros _].
      unfold Vercel.waitUntil. emits_nil.
Qed.

Lemma emits_vercel_POST request :
  emits pipeline
        (Vercel.POST request).
Proof.
  unfold Vercel.POST. cbv zeta.
  destruct (JSON_parse _) as [e| |p]; [apply emits_throw | apply emits_throw |].
  case_bool_decide; [apply emits_ret|].
  apply (emits_bind [DedupCacheCheck] [SignatureVerifier; HistoryCheck; Dispatch]);
    [apply emits_cache_gate | intros duplicate].
  destruct duplicate; [apply emits_ret|].
  apply (emits_bind [SignatureVerifier] [HistoryCheck; Dispatch]);
    [apply emits_log | intros _].
  apply (emits_bind [] [HistoryCheck; Dispatch]); [emits_nil | intros _].
  apply (emits_try [HistoryCheck; Dispatch] []);
    [apply emits_vercel_process_event | intros e; apply emits_ret].
Qed.

Lemma settles_vercel_process_event p : settles vercel_ok (Vercel.process_event p).
Proof.
  unfold Vercel.process_event, Vercel.waitUntil.
  apply (settles_bind _ any); [auto with js_settles | intros botUserId _].
  destruct (p_event p) as [ev|]; [|apply settles_throw].
  apply (settles_bind _ (λ o, ∀ r, o = Some r → vercel_ok r)).
  - case_bool_decide; [|by apply settles_ret].
    eapply settles_bind; [apply settles_vercel_history_gate | intros early Hearly].
    destruct early as [r|]; [apply settles_ret; intros r' [= <-]; by apply Hearly|].
    apply (settles_bind _ any); [auto with js_settles | intros _ _].
    apply (settles_bind _ any);
      [apply answers_settles, answers_detached | intros _ _].
    by apply settles_ret.
  - intros early Hearly. destruct early as [r|]; [apply settles_ret; by apply Hearly|].
    apply (settles_bind _ any).
    { case_bool_decide; [|by apply settles_ret].
      apply (settles_bind _ any); [auto with js_settles | intros _ _].
      apply answers_settles, answers_detached. }
    intros _ _.
    apply (settles_bind _ (λ o, ∀ r, o = Some r → vercel_ok r)).
    + destruct (is_direct_message ev botUserId); [|by apply settles_ret].
      eapply settles_bind; [apply settles_vercel_history_gate | intros early Hearly'].
      destruct early as [r|]; [apply settles_ret; intros r' [= <-]; by apply Hearly'|].
      apply (settles_bind _ any); [auto with js_settles | intros _ _].
      apply (settles_bind _ any);
        [apply answers_settles, answers_detached | intros _ _].
      by apply settles_ret.
    + intros early' Hearly'.
      destruct early' as [r|]; apply settles_ret; [by apply Hearly' | by left].
Qed.

Lemma answers_vercel_POST_parsed request p :
  JSON_parse (Vercel.text request) = Parsed p →
  answers vercel_ok (Vercel.POST request).
Proof.
  intros Hp. unfold Vercel.POST. cbv zeta. rewrite Hp.
  case_bool_decide; [apply answers_ret; by left|].
  apply answers_bind; [apply answers_cache_gate | intros duplicate].
  destruct duplicate; [apply answers_ret; by left|].
  apply answers_bind; [apply answers_log | intros _].
  apply answers_bind; [apply answers_verifyRequest | intros _].
  apply answers_try; [apply settles_vercel_process_event | intros e].
  apply answers_ret. by right.
Qed.

End Routers.

(** ** Running the collaborators *)

Section Runs.
Context `{RT : Runtime}.

Lemma run_replies (channel ts : option string) (limit : nat) (s : State) :
  ∃ s1,
    Client.conversations_replies channel ts limit s
    = (match w_replies (st_world s) with
       | Ok a :: _ => Returned a
       | Err e :: _ => Thrown e
       | [] => Thrown script_exhausted
       end, s1)
    ∧ w_auth_test (st_world s1) = w_auth_test (st_world s).
Proof.
  unfold Client.conversations_replies, bind, log, get_state. cbn.
  destruct (w_replies (st_world s)) as [|[a|e] rest]; cbn; eauto.
Qed.

Lemma run_auth_test (s : State) :
  ∃ s1,
    Client.auth_test s
    = (match w_auth_test (st_world s) with
       | Ok a :: _ => Returned a
       | Err e :: _ => Thrown e
       | [] => Thrown script_exhausted
       end, s1).
Proof.
  unfold Client.auth_test, bind, log, get_state. cbn.
  destruct (w_auth_test (st_world s)) as [|[a|e] rest]; cbn; eauto.
Qed.

(** The answer of the history check when both collaborators answer. *)
Lemma run_checkIfAlreadyResponded (event : SlackEvent) (s : State)
    (messages : list Message) (a : AuthTest) rest1 rest2 :
  is_Some (ev_channel event) → is_Some (ev_ts event) →
  w_replies (st_world s) = Ok (Some messages) :: rest1 →
  w_auth_test (st_world s) = Ok a :: rest2 →
  fst (SlackUtils.checkIfAlreadyResponded event s)
  = Returned
      (negb (Nat.leb (length messages) 1)
       && Nat.ltb 0 (length (List.filter
            (SlackUtils.is_later_bot_reply (auth_bot_id a)
               (SlackUtils.threadTs_of event) event) messages))).
Proof.
  intros Hc Ht Hr Ha. unfold SlackUtils.checkIfAlreadyResponded.
  rewrite !bool_decide_eq_true_2 by done. cbn [andb negb].
  unfold try_catch, bind.
  destruct (run_replies (ev_channel event) (SlackUtils.threadTs_of event) 10 s)
    as (s1 & -> & Hs1).
  rewrite Hr. destruct (Nat.leb (length messages) 1); [done|].
  destruct (run_auth_test s1) as (s2 & ->). rewrite Hs1, Ha. cbn [negb andb].
  by destruct (Nat.ltb 0 _).
Qed.

Lemma filter_nonempty {A} (f : A → bool) (l : list A) :
  Nat.ltb 0 (length (List.filter f l)) = true ↔ ∃ x, x ∈ l ∧ f x = true.
Proof.
  rewrite Nat.ltb_lt. split.
  - intros H. destruct (List.filter f l) as [|x r] eqn:E; [cbn in H; lia|].
    exists x. rewrite list_elem_of_In. apply filter_In. rewrite E. by left.
  - intros (x & Hx & Hf). rewrite list_elem_of_In in Hx.
    pose proof (proj2 (filter_In f x l) (conj Hx Hf)) as Hin.
    destruct (List.filter f l); [done | cbn; lia].
Qed.

Lemma is_later_bot_reply_spec botId threadTs event m :
  SlackUtils.is_later_bot_reply botId threadTs event m = true
  ↔ m_bot_id m = botId
    ∧ m_thread_ts m = threadTs
    ∧ PrimFloat.ltb (parseFloat (Js.interp (ev_ts event)))
                    (parseFloat (Js.interp (m_ts m))) = true.
Proof.
  unfold SlackUtils.is_later_bot_reply.
  rewrite !andb_true_iff, !bool_decide_eq_true. tauto.
Qed.

(** *** Runs of the combinators and of the cache check *)

Lemma truthy_of_nonempty (id : string) : id ≠ "" → Js.truthy id = true.
Proof. intros H. unfold Js.truthy. apply negb_true_iff. by apply String.eqb_neq. Qed.

Lemma bind_returned {A B} (m : M A) (k : A → M B) s a s1 :
  m s = (Returned a, s1) → bind m k s = k a s1.
Proof. intros H. unfold bind. by rewrite H. Qed.

(** The cache check of the routers, run in state [s]. *)
Lemma run_cache_gate (id : string) (s : State) :
  bind (log (StepDedupCache id)) (λ _, isEventProcessed id) s
  = (Returned (fst (DedupCache.isEventProcessed id (st_cache s))),
     mkState (snd (DedupCache.isEventProcessed id (st_cache s)))
             (st_global s) (st_lastUpdateTime s) (st_ticks s) (st_world s)
             (st_trace s ++ [StepDedupCache id])).
Proof.
  unfold bind, log, isEventProcessed, get_state, set_cache, ret. cbn.
  by destruct (DedupCache.isEventProcessed id (st_cache s)).
Qed.

Lemma bind_log {B} (x : Step) (k : unit → M B) (s : State) :
  bind (log x) k s = k tt (snd (log x s)).
Proof. reflexivity. Qed.

Lemma try_returned {A} (m : M A) (h : Error → M A) s a s1 :
  m s = (Returned a, s1) → try_catch m h s = (Returned a, s1).
Proof. intros H. unfold try_catch. by rewrite H. Qed.

Lemma run_getBotId (a : AuthTest) rest (s : State) :
  w_auth_test (st_world s) = Ok a :: rest →
  Js.truthy_opt (auth_user_id a) = true →
  ∃ s1, SlackUtils.getBotId s = (Returned (Js.interp (auth_user_id a)), s1)
        ∧ st_trace s1 = st_trace s ++ [CallAuthTest].
Proof.
  intros Ha Hu. unfold SlackUtils.getBotId, Client.auth_test.
  unfold try_catch, bind, log, get_state, set_world, of_result, ret. cbn.
  rewrite Ha. cbn. rewrite Hu. cbn. eauto.
Qed.

Lemma bind_thrown {A B} (m : M A) (k : A → M B) s e s1 :
  m s = (Thrown e, s1) → bind m k s = (Thrown e, s1).
Proof. intros H. unfold bind. by rewrite H. Qed.

Lemma bind_pending {A B} (m : M A) (k : A → M B) s s1 :
  m s = (Pending, s1) → bind m k s = (Pending, s1).
Proof. intros H. unfold bind. by rewrite H. Qed.

Lemma try_thrown {A} (m : M A) (h : Error → M A) s e s1 :
  m s = (Thrown e, s1) → try_catch m h s = h e s1.
Proof. intros H. unfold try_catch. by rewrite H. Qed.

Lemma try_pending {A} (m : M A) (h : Error → M A) s s1 :
  m s = (Pending, s1) → try_catch m h s = (Pending, s1).
Proof. intros H. unfold try_catch. by rewrite H. Qed.



(** [verifyRequest] returns and leaves the world as it is. *)
Lemma run_verifyRequest ty hs rawBody (s : State) :
  ∃ failed s1, SlackUtils.verifyRequest ty hs rawBody s = (Returned failed, s1)
               ∧ st_world s1 = st_world s.
Proof.
  unfold SlackUtils.verifyRequest, SlackUtils.isValidSlackRequest. cbv zeta.
  destruct (negb _ || negb _).
  - unfold try_catch, bind, ret. cbn. eauto.
  - unfold try_catch, bind, Date_now, ret. cbn [fst snd].
    destruct (SlackUtils.out_of_window _ _); cbn [negb orb]; [eauto|].
    destruct (negb _ || negb _); eauto.
Qed.

(** The cache check of the routers returns and leaves the world as it
    is; it answers [true] only on a delivery whose identifier is in the
    set. *)
Lemma run_cache_gate_world (p : Payload) (s : State) :
  ∃ duplicate s1,
    (match p_event p with
     | Some _ =>
         if bool_decide (p_type p = Some "event_callback")
            && Js.truthy_opt (p_event_id p)
         then bind (log (StepDedupCache (Js.interp (p_event_id p))))
                   (λ _, isEventProcessed (Js.interp (p_event_id p)))
         else ret false
     | None => ret false
     end) s = (Returned duplicate, s1)
    ∧ st_world s1 = st_world s
    ∧ (duplicate = true ↔
       is_Some (p_event p)
       ∧ p_type p = Some "event_callback"
       ∧ ∃ id, p_event_id p = Some id ∧ id ≠ ""
               ∧ id ∈ DedupCache.processedEvents (st_cache s)).
Proof.
  destruct (p_event p) as [ev|].
  2: { exists false, s. split; [done|]. split; [done|].
       split; [done | by intros [[? [=]] _]]. }
  case_bool_decide as Hty; cbn [andb].
  2: { exists false, s. split; [done|]. split; [done|].
       split; [done | by intros (_ & ? & _)]. }
  destruct (p_event_id p) as [id|] eqn:Hid; cbn [Js.truthy_opt].
  2: { exists false, s. split; [done|]. split; [done|].
       split; [done | by intros (_ & _ & ? & [=] & _)]. }
  destruct (Js.truthy id) eqn:Htruthy.
  - rewrite run_cache_gate. cbn [Js.interp from_option Datatypes.id].
    eexists _, _. split; [reflexivity|]. split; [done|].
    rewrite answer_is_membership, bool_decide_eq_true. split.
    + intros Hin. split; [by eexists|]. split; [done|]. exists id.
      split; [done|]. split; [|done]. intros ->. discriminate.
    + by intros (_ & _ & id' & [= <-] & _ & Hin).
  - exists false, s. split; [done|]. split; [done|]. split; [done|].
    intros (_ & _ & id' & [= <-] & Hne & _).
    by rewrite (truthy_of_nonempty id Hne) in Htruthy.
Qed.

End Runs.

(** * The claims *)

(** ** Dedup cache *)

(** The empty string is the one identifier that outlives its place in the
    queue: the entry taken off the queue is deleted from the set only when
    it is truthy. [isEventProcessed] is private to its module and both
    routers call it only after they have tested [payload.event_id] for
    truthiness, so the function never receives it. *)
Lemma empty_identifier_is_never_evicted :
  let ids := "" :: Sample.ids_from 1 100 in
  NoDup ids
  ∧ length ids = 101%nat
  ∧ fst (DedupCache.calls ids DedupCache.initial) = replicate 101 false
  ∧ fst (DedupCache.isEventProcessed ""
           (snd (DedupCache.calls ids DedupCache.initial))) = true.
Proof.
  split; [|by vm_compute].
  apply (bool_decide_unpack _). by vm_compute.
Qed.

(** C1: in any reachable cache, after [n > 100] calls of
    [isEventProcessed] with distinct identifiers that are not in the set,
    every call has answered [false], the queue holds exactly 100
    identifiers, a query on any of the first [n - 100] identifiers answers
    [false] (they were evicted, oldest first, one for each insertion past
    the capacity), and a query on each of the most recent 100 answers
    [true]. With [n = 101] the earliest identifier is the one evicted. The
    identifiers are those the function can receive: both routers pass it a
    [payload.event_id] they have found truthy, hence never the empty
    string. *)
Theorem fifo_eviction_of_nonempty_identifiers
    (c : DedupCache.Cache) (ids : list string) (n : nat) :
  DedupCache.reachable c →
  NoDup ids →
  Forall (λ y, y ≠ "" ∧ y ∉ DedupCache.processedEvents c) ids →
  (DedupCache.MAX_CACHE_SIZE < n ≤ length ids)%nat →
  let c' := snd (DedupCache.calls (take n ids) c) in
  fst (DedupCache.calls (take n ids) c) = replicate n false
  ∧ length (DedupCache.processedEventsQueue c') = DedupCache.MAX_CACHE_SIZE
  ∧ (∀ i y, ids !! i = Some y → (i < n - DedupCache.MAX_CACHE_SIZE)%nat →
            fst (DedupCache.isEventProcessed y c') = false)
  ∧ (∀ i y, ids !! i = Some y → (n - DedupCache.MAX_CACHE_SIZE ≤ i < n)%nat →
            fst (DedupCache.isEventProcessed y c') = true).
Proof.
  intros Hreach Hnd Hids Hn c'. rewrite Forall_forall in Hids.
  pose proof (reachable_Inv c Hreach) as HI.
  destruct (calls_fresh (take n ids) c HI) as (Hans & HI' & Hq).
  { eapply sublist_NoDup; [done | apply sublist_take]. }
  { intros y Hy. apply Hids. by eapply (subseteq_take n). }
  rewrite length_take in Hans.
  replace (n `min` length ids)%nat with n in Hans by lia.
  assert (Hq' : DedupCache.processedEventsQueue c'
                = drop (n - DedupCache.MAX_CACHE_SIZE) (take n ids)).
  { subst c'. rewrite Hq. unfold trim. rewrite length_app, length_take.
    pose proof (inv_length c HI).
    rewrite drop_app_ge by lia. f_equal. lia. }
  split; [done|]. split.
  { rewrite Hq', length_drop, length_take. lia. }
  split.
  - intros i y Hi Hlt. rewrite answer_is_membership.
    apply bool_decide_eq_false_2. intros Hy.
    apply (Inv_member y c' HI') in Hy;
      [|apply Hids; by eapply list_elem_of_lookup_2].
    rewrite Hq' in Hy. apply list_elem_of_lookup in Hy as [j Hj].
    rewrite lookup_drop, lookup_take_Some in Hj. destruct Hj as [Hj _].
    pose proof (NoDup_lookup ids i _ y Hnd Hi Hj). lia.
  - intros i y Hi Hlt. rewrite answer_is_membership.
    apply bool_decide_eq_true_2. apply (inv_queue_set c' HI').
    rewrite Hq'. apply list_elem_of_lookup.
    exists (i - (n - DedupCache.MAX_CACHE_SIZE))%nat.
    rewrite lookup_drop, lookup_take_Some. split; [|lia].
    rewrite <- Hi. f_equal. lia.
Qed.

Lemma fifo_eviction_witness :
  let ids := Sample.ids_from 1 101 in
  let c' := snd (DedupCache.calls (take 101 ids) DedupCache.initial) in
  fst (DedupCache.isEventProcessed "1" c') = false
  ∧ fst (DedupCache.isEventProcessed "2" c') = true
  ∧ fst (DedupCache.isEventProcessed "101" c') = true.
Proof.
  intros ids c'.
  assert (H1 : DedupCache.reachable DedupCache.initial) by (by exists []).
  assert (H2 : NoDup ids) by (apply (bool_decide_unpack _); by vm_compute).
  assert (H3 : Forall (λ y, y ≠ "" ∧ y ∉ DedupCache.processedEvents DedupCache.initial) ids)
    by (apply (bool_decide_unpack _); by vm_compute).
  assert (H4 : (DedupCache.MAX_CACHE_SIZE < 101 ≤ length ids)%nat)
    by (vm_compute; lia).
  destruct (fifo_eviction_of_nonempty_identifiers DedupCache.initial ids 101
              H1 H2 H3 H4) as (_ & _ & Hold & Hnew).
  split; [|split].
  - apply (Hold 0%nat); [reflexivity | vm_compute; lia].
  - apply (Hnew 1%nat); [reflexivity | vm_compute; lia].
  - apply (Hnew 100%nat); [reflexivity | vm_compute; lia].
Defined.

(** C2, as stated, fails once the identifier has been evicted: after [x]
    and one hundred other identifiers, a further call with [x] answers
    [false] again. *)
Lemma evicted_identifier_is_forgotten :
  let calls_so_far := "x" :: Sample.ids_from 1 100 in
  fst (DedupCache.calls calls_so_far DedupCache.initial) = replicate 101 false
  ∧ fst (DedupCache.isEventProcessed "x"
           (snd (DedupCache.calls calls_so_far DedupCache.initial))) = false.
Proof. by vm_compute. Qed.

(** C2 (amended): the first call of [isEventProcessed] with an identifier
    [x] (after any calls with other identifiers) answers [false] and records
    [x]; calling it twice in a row answers [(false, true)]; and a later call
    with [x] answers [true] as long as fewer than 100 identifiers have been
    recorded since. *)
Theorem seen_again_until_evicted (ids : list string) (x : string) :
  x ∉ ids →
  let c := snd (DedupCache.calls ids DedupCache.initial) in
  let c1 := snd (DedupCache.isEventProcessed x c) in
  fst (DedupCache.isEventProcessed x c) = false
  ∧ x ∈ DedupCache.processedEvents c1
  ∧ fst (DedupCache.calls [x; x] c) = [false; true]
  ∧ (∀ ys,
       (DedupCache.recorded (fst (DedupCache.calls ys c1))
        < DedupCache.MAX_CACHE_SIZE)%nat →
       fst (DedupCache.isEventProcessed x (snd (DedupCache.calls ys c1))) = true).
Proof.
  intros Hx c c1.
  assert (HI : Inv c) by (apply reachable_Inv; by exists ids).
  assert (Hxc : x ∉ DedupCache.processedEvents c).
  { intros H. apply Hx. by apply reachable_subset. }
  destruct (miss_spec x c HI Hxc) as (c1' & Hstep & Hq & HI1 & Hs).
  assert (Hc1 : c1 = c1') by (subst c1; by rewrite Hstep).
  rewrite Hc1. clear Hc1 c1.
  assert (Hlast : ∃ q, DedupCache.processedEventsQueue c1' = q ++ [x]).
  { rewrite Hq. unfold trim. rewrite length_app. cbn [length].
    pose proof (inv_length c HI). unfold DedupCache.MAX_CACHE_SIZE in *.
    rewrite drop_app_le by lia. eauto. }
  destruct Hlast as [q Hlast].
  assert (Hin : x ∈ DedupCache.processedEvents c1').
  { apply (inv_queue_set c1' HI1). rewrite Hlast. apply elem_of_app. right. left. }
  split; [by rewrite Hstep|]. split; [done|]. split.
  { cbn [DedupCache.calls]. rewrite Hstep. rewrite hit_spec by done. done. }
  intros ys Hrec. rewrite answer_is_membership. apply bool_decide_eq_true_2.
  destruct (calls_spec ys c1' HI1) as (news & HI2 & Hq2 & Hlen & _).
  apply (inv_queue_set _ HI2). rewrite Hq2, Hlast. unfold trim.
  pose proof (inv_length c1' HI1) as Hl1.
  rewrite Hlast, length_app in Hl1. cbn in Hl1.
  rewrite !length_app. cbn [length]. rewrite Hlen.
  rewrite <- app_assoc.
  rewrite drop_app_le by (unfold DedupCache.MAX_CACHE_SIZE in *; lia).
  apply elem_of_app. right. apply elem_of_app. left. left.
Qed.

Lemma seen_again_witness :
  let c := snd (DedupCache.calls ["a"; "b"] DedupCache.initial) in
  fst (DedupCache.calls ["c"; "c"] c) = [false; true]
  ∧ fst (DedupCache.isEventProcessed "c"
           (snd (DedupCache.calls ["d"; "a"; "e"]
                   (snd (DedupCache.isEventProcessed "c" c))))) = true.
Proof.
  intros c.
  assert (H : "c" ∉ ["a"; "b"]) by (apply (bool_decide_unpack _); by vm_compute).
  destruct (seen_again_until_evicted ["a"; "b"] "c" H) as (_ & _ & Htwice & Hlater).
  split; [exact Htwice|].
  apply (Hlater ["d"; "a"; "e"]). vm_compute. lia.
Defined.

(** ** Order of the pipeline *)

(** C3, as stated, fails: on a signed mention delivered for the first time
    the Lambda router checks the dedup cache first and verifies the
    signature second. *)
Lemma cache_check_precedes_verification :
  let run := Lambda.handler (Sample.request Sample.body_mention)
                            (boot Sample.generation_hangs) in
  let t := st_trace (snd run) in
  t !! 0%nat = Some (StepDedupCache "Ev01")
  ∧ t !! 1%nat = Some StepVerify
  ∧ stages t = [DedupCacheCheck; SignatureVerifier; HistoryCheck; Dispatch].
Proof. by vm_compute. Qed.

(** C3 (amended): for every request and every process state, the stages
    that the Lambda handler and the Vercel [POST] route enter occur in the
    order dedup-cache check, signature verification, history-based dedup
    check, handler dispatch, each at most once: the dedup-cache check comes
    before the signature verification, and both come before the history
    check and the dispatch. *)
Theorem pipeline_order `{RT : Runtime}
    (event : APIGatewayProxyEvent) (request : Vercel.Request) (s : State) :
  (∃ new, st_trace (snd (Lambda.handler event s)) = st_trace s ++ new
          ∧ stages new `sublist_of`
              [DedupCacheCheck; SignatureVerifier; HistoryCheck; Dispatch])
  ∧ (∃ new, st_trace (snd (Vercel.POST request s)) = st_trace s ++ new
            ∧ stages new `sublist_of`
                [DedupCacheCheck; SignatureVerifier; HistoryCheck; Dispatch]).
Proof.
  split; [apply emits_lambda_handler | apply emits_vercel_POST].
Qed.

(** ** Status of the response *)

Section StatusFacts.
Context `{RT : Runtime}.

Lemma answers_bind_post {A B} (P : B → Prop) (Q : A → Prop)
    (m : M A) (k : A → M B) :
  answers Q m → (∀ a, Q a → answers P (k a)) → answers P (bind m k).
Proof.
  intros Hm Hk s. unfold bind. destruct (Hm s) as (a & Ha & HQ).
  destruct (m s) as [o s1]; cbn [fst] in *; subst o. by apply Hk.
Qed.

(** The check before a handler of the Vercel route is started, and the
    start of the handler. *)
Lemma answers_vercel_gated {A} ev answer (h : HandlerName) (handler : M A) :
  answers (λ early, ∀ r, early = Some r → vercel_200 r)
    (bind (Vercel.history_gate ev answer)
       (λ early,
          match early with
          | Some r => ret (Some r)
          | None =>
              bind (log (StepDispatch h))
                   (λ _, bind (Vercel.waitUntil handler) (λ _, ret None))
          end)).
Proof.
  apply (answers_bind_post _ (λ early, ∀ r, early = Some r → vercel_200 r)).
  - unfold Vercel.history_gate. destruct (_ && _); [|by apply answers_ret].
    apply answers_try_skip.
    apply answers_bind; [apply answers_log | intros _].
    apply answers_bind; [apply answers_checkIfAlreadyResponded | intros b].
    destruct b; apply answers_ret; [by intros r [= <-] | done].
  - intros early Hearly. destruct early as [r|]; [by apply answers_ret|].
    apply answers_bind; [apply answers_log | intros _].
    apply answers_bind; [apply answers_detached | intros _].
    by apply answers_ret.
Qed.

(** The [try] block of the Vercel route does not throw once the identity
    lookup has answered and the payload carries an event. *)
Lemma vercel_process_event_returns (p : Payload) (ev : SlackEvent)
    (s s1 : State) (botUserId : string) :
  p_event p = Some ev →
  SlackUtils.getBotId s = (Returned botUserId, s1) →
  ∃ r, fst (Vercel.process_event p s) = Returned r ∧ vercel_200 r.
Proof.
  intros Hev Hbot. unfold Vercel.process_event.
  rewrite (bind_returned _ _ _ _ _ Hbot), Hev. clear Hbot. revert s1.
  match goal with
  | |- ∀ s1, ∃ r, fst (@?m s1) = Returned r ∧ _ =>
      change (answers vercel_200 m)
  end.
  apply (answers_bind_post _ (λ early, ∀ r, early = Some r → vercel_200 r)).
  { case_bool_decide; [apply answers_vercel_gated | by apply answers_ret]. }
  intros early Hearly. destruct early as [r|]; [apply answers_ret; by apply Hearly|].
  apply answers_bind.
  { case_bool_decide; [|by apply answers_ret].
    apply answers_bind; [apply answers_log | intros _]. apply answers_detached. }
  intros _.
  apply (answers_bind_post _ (λ early, ∀ r, early = Some r → vercel_200 r)).
  { destruct (is_direct_message ev botUserId);
      [apply answers_vercel_gated | by apply answers_ret]. }
  intros early' Hearly'.
  destruct early' as [r|]; apply answers_ret; [by apply Hearly' | done].
Qed.

End StatusFacts.

(** C4, as stated, fails: the body [null] parses as JSON and the Lambda
    handler answers 500, because reading [payload.type] throws inside the
    outer [try]. *)
Lemma parseable_body_answered_500 :
  JSON_parse (Lambda.rawBody_of (Sample.request Sample.body_null)) = ParsedNull
  ∧ fst (Lambda.handler (Sample.request Sample.body_null) (boot Sample.quiet))
    = Returned (mkResult 500 []
        "Error processing request: Cannot read properties of null (reading 'type')").
Proof. by vm_compute. Qed.

(** C4 (amended): the Lambda handler always answers, with status 200 or
    500; it answers 200 whenever the body parses to a JSON value other than
    [null] (failed verification, duplicate delivery, handler error and
    timeout included), and it answers 500 exactly when [JSON.parse] throws
    or returns [null]. The Vercel route, on a body that parses to a value
    other than [null], answers 200 whenever its [try] block does not throw:
    for a [url_verification], for a delivery whose identifier is in the
    dedup cache, and for a payload that carries an event when the identity
    lookup answers with a user id, whatever the verification, the history
    check and the handlers do. *)
Theorem response_status `{RT : Runtime}
    (event : APIGatewayProxyEvent) (request : Vercel.Request) (s : State) :
  (∃ r, fst (Lambda.handler event s) = Returned r
        ∧ (statusCode r = 200 ∨ statusCode r = 500)
        ∧ (∀ p, JSON_parse (Lambda.rawBody_of event) = Parsed p → statusCode r = 200)
        ∧ (statusCode r = 500 ↔
           JSON_parse (Lambda.rawBody_of event) = ParsedNull
           ∨ ∃ e, JSON_parse (Lambda.rawBody_of event) = ParseThrows e))
  ∧ (∀ p, JSON_parse (Vercel.text request) = Parsed p →
          p_type p = Some "url_verification"
          ∨ already_recorded p s
          ∨ (is_Some (p_event p) ∧ lookup_answers s) →
          ∃ r, fst (Vercel.POST request s) = Returned r
               ∧ Vercel.status r = 200).
Proof.
  split.
  - destruct (JSON_parse (Lambda.rawBody_of event)) as [e| |p] eqn:Hp.
    + unfold Lambda.handler. cbv zeta. rewrite Hp. eexists.
      split; [reflexivity|]. cbn. split; [by right|]. split; [done|].
      split; [by eauto | done].
    + unfold Lambda.handler. cbv zeta. rewrite Hp. eexists.
      split; [reflexivity|]. cbn. split; [by right|]. split; [done|].
      split; [by eauto | done].
    + destruct (answers_lambda_handler_parsed event p Hp s) as (r & Hr & Hok).
      exists r. unfold ok_result in Hok. split; [done|]. split; [by left|].
      split; [done|]. rewrite Hok. split; [done|]. by intros [? | [? ?]].
  - intros p Hp Hcase. unfold Vercel.POST. cbv zeta. rewrite Hp.
    case_bool_decide as Hurl; [by eexists|].
    destruct Hcase as [Hcase | Hcase]; [done|].
    destruct (run_cache_gate_world p s) as (dup & s1 & Hgate & Hw1 & Hdup).
    rewrite (bind_returned _ _ _ _ _ Hgate).
    destruct dup; [by eexists|].
    destruct Hcase as [Hrec | [[ev Hev] (a & rest & Ha & Hu)]].
    { apply Hdup in Hrec. discriminate. }
    rewrite bind_log.
    destruct (run_verifyRequest (p_type p) (Vercel.req_headers request)
                (Vercel.text request) (snd (log StepVerify s1)))
      as (failed & s3 & Hrun3 & Hw3).
    rewrite (bind_returned _ _ _ _ _ Hrun3).
    destruct (run_getBotId a rest s3) as (s4 & Hbot & _);
      [by rewrite Hw3; cbn; rewrite Hw1 | done |].
    destruct (vercel_process_event_returns p ev s3 s4 _ Hev Hbot)
      as (r & Hr & H200).
    exists r. split; [|exact H200]. unfold try_catch.
    destruct (Vercel.process_event p s3) as [o s5]. cbn [fst] in Hr.
    by subst o.
Qed.

Lemma response_status_witness :
  (∃ r, fst (Lambda.handler (Sample.request Sample.body_dm)
                            (boot Sample.generation_fails)) = Returned r
        ∧ statusCode r = 200)
  ∧ (∃ r, fst (Vercel.POST (Vercel.mkVRequest Sample.body_dm [])
                           (boot Sample.generation_fails)) = Returned r
          ∧ Vercel.status r = 200).
Proof.
  destruct (response_status (RT := Sample.runtime)
              (Sample.request Sample.body_dm)
              (Vercel.mkVRequest Sample.body_dm [])
              (boot Sample.generation_fails))
    as [(r & Hr & _ & H200 & _) Hvercel].
  split.
  - exists r. split; [exact Hr|]. apply (H200 Sample.payload_dm). reflexivity.
  - apply (Hvercel Sample.payload_dm); [reflexivity|].
    right. right. split; [by eexists|]. eexists _, _. split; reflexivity.
Defined.

(** ** History-based dedup check *)

(** C5, as stated, fails: when the fetched list holds a single message, the
    check answers [false] even though that message is authored by the bot,
    belongs to the thread of the event and is later than the event. *)
Lemma single_message_history_is_ignored :
  let event := Sample.mention in
  let messages := [Sample.bot_reply] in
  let s := boot (Sample.history messages) in
  w_replies (st_world s) = [Ok (Some messages)]
  ∧ w_auth_test (st_world s) = [Ok (mkAuthTest (Some "U1") (Some "B1"))]
  ∧ m_bot_id Sample.bot_reply = Some "B1"
  ∧ m_thread_ts Sample.bot_reply = SlackUtils.threadTs_of event
  ∧ PrimFloat.ltb (parseFloat (Js.interp (ev_ts event)))
                  (parseFloat (Js.interp (m_ts Sample.bot_reply))) = true
  ∧ fst (SlackUtils.checkIfAlreadyResponded event s) = Returned false.
Proof. by vm_compute. Qed.

(** C5 (amended): for an event with a channel and a timestamp, when the
    history fetch and the identity lookup answer, [checkIfAlreadyResponded]
    returns [true] exactly when the fetched list has more than one message
    and contains a message whose [bot_id] is the bot's, whose [thread_ts] is
    the thread of the event and whose timestamp is strictly greater than the
    event's; it returns [false] otherwise, in particular when every message
    of the bot has a smaller or equal timestamp. *)
Theorem history_check_detects_later_bot_reply `{RT : Runtime}
    (event : SlackEvent) (s : State) (messages : list Message) (a : AuthTest)
    (rest1 : list (Result (option (list Message))))
    (rest2 : list (Result AuthTest)) :
  is_Some (ev_channel event) →
  is_Some (ev_ts event) →
  w_replies (st_world s) = Ok (Some messages) :: rest1 →
  w_auth_test (st_world s) = Ok a :: rest2 →
  let later m :=
    PrimFloat.ltb (parseFloat (Js.interp (ev_ts event)))
                  (parseFloat (Js.interp (m_ts m))) in
  let answered :=
    (1 < length messages)%nat
    ∧ ∃ m, m ∈ messages
           ∧ m_bot_id m = auth_bot_id a
           ∧ m_thread_ts m = SlackUtils.threadTs_of event
           ∧ later m = true in
  (∃ b, fst (SlackUtils.checkIfAlreadyResponded event s) = Returned b)
  ∧ (fst (SlackUtils.checkIfAlreadyResponded event s) = Returned true ↔ answered)
  ∧ ((∀ m, m ∈ messages → m_bot_id m = auth_bot_id a → later m = false) →
     fst (SlackUtils.checkIfAlreadyResponded event s) = Returned false).
Proof.
  intros Hc Ht Hr Ha later answered.
  rewrite (run_checkIfAlreadyResponded event s messages a rest1 rest2 Hc Ht Hr Ha).
  assert (Hiff : negb (Nat.leb (length messages) 1)
                 && Nat.ltb 0 (length (List.filter
                      (SlackUtils.is_later_bot_reply (auth_bot_id a)
                         (SlackUtils.threadTs_of event) event) messages)) = true
                 ↔ answered).
  { rewrite andb_true_iff, negb_true_iff, Nat.leb_gt, filter_nonempty.
    unfold answered. apply and_iff_compat_l. split.
    - intros (m & Hm & Hf). apply is_later_bot_reply_spec in Hf. by exists m.
    - intros (m & Hm & Hf). exists m. split; [done|].
      by apply is_later_bot_reply_spec. }
  split; [eauto|]. split.
  - rewrite <- Hiff. split; [by intros [= ->] | by intros ->].
  - intros Hnone. f_equal. apply not_true_is_false. rewrite Hiff.
    intros (_ & m & Hm & Hb & _ & Hl). rewrite (Hnone m Hm Hb) in Hl. done.
Qed.

Lemma history_check_witness :
  fst (SlackUtils.checkIfAlreadyResponded Sample.mention
         (boot (Sample.history [Sample.user_message; Sample.bot_reply])))
  = Returned true.
Proof.
  destruct (history_check_detects_later_bot_reply (RT := Sample.runtime)
              Sample.mention
              (boot (Sample.history [Sample.user_message; Sample.bot_reply]))
              [Sample.user_message; Sample.bot_reply]
              (mkAuthTest (Some "U1") (Some "B1")) [] [])
    as (_ & Hiff & _).
  - by eexists.
  - by eexists.
  - reflexivity.
  - reflexivity.
  - apply Hiff. split; [vm_compute; lia|].
    exists Sample.bot_reply. split; [right; left|]. by vm_compute.
Defined.

(** C6: [checkIfAlreadyResponded] always returns a boolean and never
    throws; when the history fetch throws, or when the identity lookup
    throws, it returns [false], and the Lambda handler goes on past the
    check instead of answering that the event was already processed. *)
Theorem history_check_fails_open `{RT : Runtime} (event : SlackEvent) (s : State) :
  (∃ b, fst (SlackUtils.checkIfAlreadyResponded event s) = Returned b)
  ∧ (fails (w_replies (st_world s)) →
     fst (SlackUtils.checkIfAlreadyResponded event s) = Returned false)
  ∧ (fails (w_auth_test (st_world s)) →
     fst (SlackUtils.checkIfAlreadyResponded event s) = Returned false)
  ∧ (fails (w_replies (st_world s)) ∨ fails (w_auth_test (st_world s)) →
     fst (Lambda.history_gate event s) = Returned None).
Proof.
  assert (Hfalse :
    fails (w_replies (st_world s)) ∨ fails (w_auth_test (st_world s)) →
    ∀ s', w_replies (st_world s') = w_replies (st_world s) →
          w_auth_test (st_world s') = w_auth_test (st_world s) →
          fst (SlackUtils.checkIfAlreadyResponded event s') = Returned false).
  { intros Hfail s' Hr' Ha'. unfold SlackUtils.checkIfAlreadyResponded.
    destruct (negb _); [done|]. unfold try_catch, bind.
    destruct (run_replies (ev_channel event) (SlackUtils.threadTs_of event) 10 s')
      as (s1 & -> & Hs1).
    rewrite Hr'.
    destruct (w_replies (st_world s)) as [|[[messages|]|e] rest]; try done.
    destruct Hfail as [[]|Hfail].
    destruct (Nat.leb (length messages) 1); [done|].
    destruct (run_auth_test s1) as (s2 & ->). rewrite Hs1, Ha'.
    destruct (w_auth_test (st_world s)) as [|[a|e] rest']; done. }
  split.
  { destruct (answers_checkIfAlreadyResponded event s) as (b & Hb & _). eauto. }
  split; [intros H; apply Hfalse; auto|].
  split; [intros H; apply Hfalse; auto|].
  intros Hfail. unfold Lambda.history_gate.
  destruct (Lambda.isMessageEvent event); [|done].
  unfold try_catch, bind, log. cbn [fst snd].
  pose proof (Hfalse Hfail
    (mkState (st_cache s) (st_global s) (st_lastUpdateTime s) (st_ticks s)
             (st_world s) (st_trace s ++ [StepHistoryCheck])) eq_refl eq_refl) as H.
  destruct (SlackUtils.checkIfAlreadyResponded event _) as [o s1].
  cbn [fst] in H. subst o. done.
Qed.

Lemma history_check_fails_open_witness :
  fst (SlackUtils.checkIfAlreadyResponded Sample.mention (boot Sample.quiet))
  = Returned false
  ∧ fst (Lambda.history_gate Sample.mention (boot Sample.quiet)) = Returned None.
Proof.
  destruct (history_check_fails_open (RT := Sample.runtime)
              Sample.mention (boot Sample.quiet)) as (_ & Hfetch & _ & Hgate).
  split; [apply Hfetch | apply Hgate; left]; exact I.
Defined.

(** ** Signature verifier *)

Lemma parseInt_truthy (t : string) (n : Z) : Js.parseInt t = Some n → Js.truthy t = true.
Proof. destruct t; [discriminate | reflexivity]. Qed.

Lemma timingSafeEqual_refl (a : string) : SlackUtils.timingSafeEqual_or_false a a = true.
Proof.
  unfold SlackUtils.timingSafeEqual_or_false.
  by rewrite Nat.eqb_refl, String.eqb_refl.
Qed.

Lemma timingSafeEqual_neq (a b : string) :
  a ≠ b → SlackUtils.timingSafeEqual_or_false a b = false.
Proof.
  intros H. unfold SlackUtils.timingSafeEqual_or_false.
  destruct (Nat.eqb _ _); [|done]. by apply String.eqb_neq.
Qed.

(** The verdict of [isValidSlackRequest] in terms of the two headers. *)
Lemma run_isValidSlackRequest `{RT : Runtime}
    (hs : list (string * string)) (rawBody : string) (s : State) :
  fst (SlackUtils.isValidSlackRequest hs rawBody s)
  = Returned
      match SlackUtils.getHeader hs "X-Slack-Request-Timestamp",
            SlackUtils.getHeader hs "X-Slack-Signature" with
      | Some t, Some sg =>
          Js.truthy t && Js.truthy sg
          && negb (SlackUtils.out_of_window (w_clock (st_world s) (st_ticks s))
                                            (Js.parseInt t))
          && SlackUtils.timingSafeEqual_or_false
               ("v0=" +:+ hmac_sha256_hex signingSecret
                            ("v0:" +:+ t +:+ ":" +:+ rawBody)) sg
      | _, _ => false
      end.
Proof.
  unfold SlackUtils.isValidSlackRequest.
  destruct (SlackUtils.getHeader hs "X-Slack-Request-Timestamp") as [t|];
    destruct (SlackUtils.getHeader hs "X-Slack-Signature") as [sg|];
    cbn [Js.truthy_opt negb orb]; try reflexivity.
  - destruct (Js.truthy t), (Js.truthy sg); cbn [negb orb andb]; try reflexivity.
    unfold bind, Date_now. cbn [Js.interp from_option id].
    by destruct (SlackUtils.out_of_window _ _).
  - by destruct (negb _).
Qed.

(** C7: [isValidSlackRequest] returns [false] when the timestamp header
    is absent, when the signature header is absent, when the timestamp is
    more than 300 seconds away from the current time, and when the supplied
    signature differs from ["v0="] followed by the keyed hash of
    [v0:{timestamp}:{body}]; a timestamp exactly 301 seconds old is
    rejected, and one exactly 300 seconds old is accepted when the supplied
    signature is the computed one. [now] is [Date.now()], in milliseconds. *)
Theorem signature_verifier_fails_closed `{RT : Runtime}
    (hs : list (string * string)) (rawBody : string) (s : State) :
  let now := w_clock (st_world s) (st_ticks s) in
  let verdict := fst (SlackUtils.isValidSlackRequest hs rawBody s) in
  let timestamp := SlackUtils.getHeader hs "X-Slack-Request-Timestamp" in
  let slackSignature := SlackUtils.getHeader hs "X-Slack-Signature" in
  let computed t :=
    "v0=" +:+ hmac_sha256_hex signingSecret ("v0:" +:+ t +:+ ":" +:+ rawBody) in
  (timestamp = None → verdict = Returned false)
  ∧ (slackSignature = None → verdict = Returned false)
  ∧ (∀ t n, timestamp = Some t → Js.parseInt t = Some n →
            300 * 1000 < Z.abs (now - 1000 * n) → verdict = Returned false)
  ∧ (∀ t sg, timestamp = Some t → slackSignature = Some sg →
             computed t ≠ sg → verdict = Returned false)
  ∧ (∀ t n, timestamp = Some t → Js.parseInt t = Some n →
            now = 1000 * (n + 301) → verdict = Returned false)
  ∧ (∀ t n, timestamp = Some t → Js.parseInt t = Some n →
            now = 1000 * (n + 300) → slackSignature = Some (computed t) →
            verdict = Returned true).
Proof.
  cbv zeta. rewrite run_isValidSlackRequest.
  generalize (w_clock (st_world s) (st_ticks s)). intros now.
  destruct (SlackUtils.getHeader hs "X-Slack-Request-Timestamp") as [t0|];
    destruct (SlackUtils.getHeader hs "X-Slack-Signature") as [sg0|].
  2-4: repeat split; done.
  assert (Hwindow : ∀ n, Js.parseInt t0 = Some n →
            300 * 1000 < Z.abs (now - 1000 * n) →
            SlackUtils.out_of_window now (Js.parseInt t0) = true).
  { intros n -> Hfar. apply Z.ltb_lt. lia. }
  split; [done|]. split; [done|]. split.
  { intros t n [= <-] Hn Hfar. rewrite (Hwindow n Hn Hfar).
    by rewrite andb_false_r. }
  split.
  { intros t sg [= <-] [= <-] Hne. rewrite timingSafeEqual_neq by done.
    by rewrite andb_false_r. }
  split.
  { intros t n [= <-] Hn ->. rewrite (Hwindow n Hn) by lia.
    by rewrite andb_false_r. }
  intros t n [= <-] Hn -> [= ->].
  rewrite (parseInt_truthy t0 n Hn), timingSafeEqual_refl, Hn.
  unfold SlackUtils.out_of_window.
  replace (60 * 5 * 1000 <? Z.abs (1000 * (n + 300) - 1000 * n)) with false;
    [reflexivity|].
  symmetry. apply Z.ltb_ge. lia.
Qed.

Lemma signature_verifier_witness :
  fst (SlackUtils.isValidSlackRequest
         (Sample.verifier_headers Sample.body_mention) Sample.body_mention
         (boot Sample.quiet)) = Returned true
  ∧ fst (SlackUtils.isValidSlackRequest
           (Sample.verifier_headers Sample.body_mention) Sample.body_mention
           (boot Sample.quiet_later)) = Returned false
  ∧ fst (SlackUtils.isValidSlackRequest [] Sample.body_mention
           (boot Sample.quiet)) = Returned false.
Proof.
  split; [|split].
  - destruct (signature_verifier_fails_closed (RT := Sample.runtime)
                (Sample.verifier_headers Sample.body_mention) Sample.body_mention
                (boot Sample.quiet)) as (_ & _ & _ & _ & _ & Haccept).
    apply (Haccept "1700000000" 1700000000); reflexivity.
  - destruct (signature_verifier_fails_closed (RT := Sample.runtime)
                (Sample.verifier_headers Sample.body_mention) Sample.body_mention
                (boot Sample.quiet_later)) as (_ & _ & _ & _ & Hreject & _).
    apply (Hreject "1700000000" 1700000000); reflexivity.
  - destruct (signature_verifier_fails_closed (RT := Sample.runtime)
                [] Sample.body_mention (boot Sample.quiet)) as (Habsent & _).
    apply Habsent. reflexivity.
Defined.

(** ** Apology after a failed handler *)

(** C8 at the failing input: a direct message inside a thread, signed and
    delivered for the first time, whose handler throws (the text generation
    fails) or is abandoned at the deadline (the text generation hangs). The
    Lambda handler answers 200, the trace ends with the call of the text
    generation, and no apology was posted. On a mention whose handler is
    abandoned at the deadline, the same router does post the apology. *)
Theorem direct_message_failure_posts_no_apology :
  let thrown := Lambda.handler (Sample.request Sample.body_dm)
                               (boot Sample.generation_fails) in
  let hung := Lambda.handler (Sample.request Sample.body_dm)
                             (boot Sample.generation_hangs) in
  let mention := Lambda.handler (Sample.request Sample.body_mention)
                                (boot Sample.generation_hangs) in
  (fst thrown = Returned (mkResult 200 [] "処理が完了しました")
   ∧ stages (st_trace (snd thrown))
     = [DedupCacheCheck; SignatureVerifier; HistoryCheck; Dispatch]
   ∧ last_step (st_trace (snd thrown))
     = Some (CallGenerateText [mkCoreMessage RoleUser (Some "hello")])
   ∧ posts_apology (st_trace (snd thrown)) = false)
  ∧ (fst hung = Returned (mkResult 200 [] "処理が完了しました")
     ∧ stages (st_trace (snd hung))
       = [DedupCacheCheck; SignatureVerifier; HistoryCheck; Dispatch]
     ∧ last_step (st_trace (snd hung))
       = Some (CallGenerateText [mkCoreMessage RoleUser (Some "hello")])
     ∧ posts_apology (st_trace (snd hung)) = false)
  ∧ (fst mention = Returned (mkResult 200 [] "処理が完了しました")
     ∧ posts_apology (st_trace (snd mention)) = true).
Proof.
  repeat split; by vm_compute.
Qed.

(** ** URL verification *)

(** C9: for a payload of type [url_verification] with a challenge, the
    Lambda handler answers 200 with the JSON object whose only property is
    the challenge, and the Vercel route answers 200 with the challenge as
    body; no step is performed and the state is unchanged. For the challenge
    [abc123] the bodies are [{"challenge":"abc123"}] and [abc123]. *)
Theorem url_verification_echoes_challenge `{RT : Runtime}
    (event : APIGatewayProxyEvent) (request : Vercel.Request)
    (p : Payload) (challenge : string) (s : State) :
  p_type p = Some "url_verification" →
  p_challenge p = Some challenge →
  (JSON_parse (Lambda.rawBody_of event) = Parsed p →
   Lambda.handler event s
   = (Returned (mkResult 200 [("Content-Type", "application/json")]
                  ("{" +:+ Js.quote "challenge" +:+ ":" +:+ Js.quote challenge +:+ "}")),
      s))
  ∧ (JSON_parse (Vercel.text request) = Parsed p →
     Vercel.POST request s = (Returned (Vercel.mkResponse challenge 200), s))
  ∧ (challenge = "abc123" →
     "{" +:+ Js.quote "challenge" +:+ ":" +:+ Js.quote challenge +:+ "}"
     = String "{" (String Js.dquote ("challenge"
         +:+ String Js.dquote (String ":" (String Js.dquote ("abc123"
         +:+ String Js.dquote "}")))))).
Proof.
  intros Hty Hch. split; [|split].
  - intros Hp. unfold Lambda.handler. cbv zeta. rewrite Hp.
    rewrite bool_decide_eq_true_2 by done. rewrite Hch. reflexivity.
  - intros Hp. unfold Vercel.POST. cbv zeta. rewrite Hp.
    rewrite bool_decide_eq_true_2 by done. rewrite Hch. reflexivity.
  - intros ->. reflexivity.
Qed.

Lemma url_verification_witness :
  Lambda.handler (Sample.request Sample.body_challenge) (boot Sample.quiet)
  = (Returned (mkResult 200 [("Content-Type", "application/json")]
                 ("{" +:+ Js.quote "challenge" +:+ ":" +:+ Js.quote "abc123" +:+ "}")),
     boot Sample.quiet)
  ∧ Vercel.POST (Vercel.mkVRequest Sample.body_challenge []) (boot Sample.quiet)
    = (Returned (Vercel.mkResponse "abc123" 200), boot Sample.quiet).
Proof.
  destruct (url_verification_echoes_challenge (RT := Sample.runtime)
              (Sample.request Sample.body_challenge)
              (Vercel.mkVRequest Sample.body_challenge [])
              Sample.payload_challenge "abc123" (boot Sample.quiet)
              eq_refl eq_refl) as (Hlambda & Hvercel & _).
  split; [apply Hlambda | apply Hvercel]; reflexivity.
Defined.

(** ** Top-level direct messages *)

(** C10: for a [message] event that passes the dispatch conditions of the
    router and has no (truthy) [thread_ts], [handleNewAssistantMessage]
    returns at once and leaves the state as it is: nothing is posted. In the
    Lambda router the dispatch of such an event adds the dispatch step to
    the trace and nothing else. *)
Theorem top_level_direct_message_is_dropped `{RT : Runtime}
    (event : SlackEvent) (botUserId : string) (timeoutMs : Z) (s : State) :
  is_direct_message event botUserId = true →
  Js.truthy_opt (ev_thread_ts event) = false →
  HandleMessages.handleNewAssistantMessage event botUserId s = (Returned tt, s)
  ∧ Lambda.dispatch event botUserId timeoutMs s
    = (Returned tt, snd (log (StepDispatch HandleNewAssistantMessage) s)).
Proof.
  intros Hdm Hthread.
  assert (Hdrop : ∀ s', HandleMessages.handleNewAssistantMessage event botUserId s'
                        = (Returned tt, s')).
  { intros s'. unfold HandleMessages.handleNewAssistantMessage.
    rewrite Hthread. cbn [negb]. rewrite !orb_true_r. reflexivity. }
  split; [apply Hdrop|].
  unfold Lambda.dispatch. rewrite Hdm.
  unfold is_direct_message in Hdm.
  repeat (apply andb_true_iff in Hdm as [Hdm ?]).
  apply bool_decide_eq_true in Hdm.
  rewrite !bool_decide_eq_false_2 by (rewrite Hdm; congruence).
  unfold try_catch, bind, race. cbn [log fst snd]. rewrite Hdrop. reflexivity.
Qed.

Lemma top_level_direct_message_witness :
  HandleMessages.handleNewAssistantMessage Sample.dm_top_level "U1"
    (boot Sample.generation_fails)
  = (Returned tt, boot Sample.generation_fails).
Proof.
  apply (top_level_direct_message_is_dropped (RT := Sample.runtime)
           Sample.dm_top_level "U1" 160000 (boot Sample.generation_fails));
    reflexivity.
Defined.

(** * Further properties *)

(** ** The dedup cache *)

Lemma recorded_after_call (x : string) (c : DedupCache.Cache) :
  Inv c → x ∈ DedupCache.processedEvents (snd (DedupCache.isEventProcessed x c)).
Proof.
  intros HI. destruct (decide (x ∈ DedupCache.processedEvents c)) as [Hx|Hx].
  - by rewrite hit_spec.
  - destruct (miss_spec x c HI Hx) as (c' & -> & Hq & HI' & _). cbn [snd].
    apply (inv_queue_set c' HI'). rewrite Hq. unfold trim.
    rewrite length_app. cbn [length]. pose proof (inv_length c HI).
    unfold DedupCache.MAX_CACHE_SIZE in *.
    rewrite drop_app_le by lia. apply elem_of_app. right. left.
Qed.

Lemma call_keeps_Inv (x : string) (c : DedupCache.Cache) :
  Inv c → Inv (snd (DedupCache.isEventProcessed x c)).
Proof.
  intros HI. destruct (decide (x ∈ DedupCache.processedEvents c)) as [Hx|Hx].
  - by rewrite hit_spec.
  - by destruct (miss_spec x c HI Hx) as (c' & -> & _ & HI' & _).
Qed.

Lemma calls_queue (ids : list string) (c : DedupCache.Cache) :
  Inv c →
  DedupCache.processedEventsQueue (snd (DedupCache.calls ids c))
  = trim (DedupCache.processedEventsQueue c
          ++ recorded_ids ids (fst (DedupCache.calls ids c)))
  ∧ length (recorded_ids ids (fst (DedupCache.calls ids c)))
    = DedupCache.recorded (fst (DedupCache.calls ids c)).
Proof.
  revert c. induction ids as [|x ids IH]; intros c HI.
  - cbn. rewrite app_nil_r, trim_short by apply HI. done.
  - cbn [DedupCache.calls].
    destruct (decide (x ∈ DedupCache.processedEvents c)) as [Hx|Hx].
    + rewrite hit_spec by done. destruct (IH c HI) as [H1 H2].
      destruct (DedupCache.calls ids c) as [bs c2]. cbn [fst snd] in *.
      cbn [recorded_ids]. done.
    + destruct (miss_spec x c HI Hx) as (c1 & -> & Hq & HI1 & _).
      destruct (IH c1 HI1) as [H1 H2].
      destruct (DedupCache.calls ids c1) as [bs c2]. cbn [fst snd] in *.
      cbn [recorded_ids]. split.
      * rewrite H1, Hq, trim_app, <- app_assoc. done.
      * unfold DedupCache.recorded in *. cbn. by rewrite H2.
Qed.

(** X1: in every cache that the process can reach, the queue has no
    duplicate and at most 100 entries, every queued identifier is in the
    set, every identifier of the set is queued or is the empty string, and
    the set has at most 101 elements. *)
Theorem cache_stays_bounded_and_consistent (c : DedupCache.Cache) :
  DedupCache.reachable c →
  NoDup (DedupCache.processedEventsQueue c)
  ∧ (length (DedupCache.processedEventsQueue c) ≤ DedupCache.MAX_CACHE_SIZE)%nat
  ∧ (∀ y, y ∈ DedupCache.processedEventsQueue c → y ∈ DedupCache.processedEvents c)
  ∧ (∀ y, y ∈ DedupCache.processedEvents c →
          y ∈ DedupCache.processedEventsQueue c ∨ y = "")
  ∧ (size (DedupCache.processedEvents c) ≤ DedupCache.MAX_CACHE_SIZE + 1)%nat.
Proof.
  intros Hreach. destruct (reachable_Inv c Hreach) as [Hnd Hlen Hqs Hsq].
  repeat (split; [done|]).
  assert (Hsub : DedupCache.processedEvents c
                 ⊆ list_to_set (DedupCache.processedEventsQueue c) ∪ {[""]}).
  { intros y Hy. destruct (Hsq y Hy) as [H| ->].
    - apply elem_of_union_l. by apply elem_of_list_to_set.
    - apply elem_of_union_r. by apply elem_of_singleton. }
  apply subseteq_size in Hsub.
  pose proof (size_union_alt
    (list_to_set (DedupCache.processedEventsQueue c) : gset string) {[""]}) as Hu.
  assert (size ({[""]} ∖ list_to_set (DedupCache.processedEventsQueue c) : gset string)
          ≤ 1)%nat.
  { etransitivity; [apply subseteq_size, subseteq_difference_l; reflexivity|].
    by rewrite size_singleton. }
  rewrite (size_list_to_set _ Hnd) in Hu. lia.
Qed.

Lemma cache_invariant_witness :
  let c := snd (DedupCache.calls ["a"; "b"; "a"] DedupCache.initial) in
  NoDup (DedupCache.processedEventsQueue c)
  ∧ (size (DedupCache.processedEvents c) ≤ DedupCache.MAX_CACHE_SIZE + 1)%nat.
Proof.
  intros c.
  assert (H : DedupCache.reachable c) by (by exists ["a"; "b"; "a"]).
  destruct (cache_stays_bounded_and_consistent c H) as (Hnd & _ & _ & _ & Hsize).
  split; [exact Hnd | exact Hsize].
Defined.

(** X2: when only non-empty identifiers have been passed to
    [isEventProcessed] since the process started, the set holds exactly the
    identifiers of the queue, and its size is the length of the queue. *)
Theorem set_mirrors_queue (ids : list string) :
  Forall (λ y, y ≠ "") ids →
  let c := snd (DedupCache.calls ids DedupCache.initial) in
  DedupCache.processedEvents c = list_to_set (DedupCache.processedEventsQueue c)
  ∧ size (DedupCache.processedEvents c) = length (DedupCache.processedEventsQueue c).
Proof.
  intros Hids c. rewrite Forall_forall in Hids.
  assert (HI : Inv c) by (apply reachable_Inv; by exists ids).
  assert (Heq : DedupCache.processedEvents c
                = list_to_set (DedupCache.processedEventsQueue c)).
  { apply set_eq. intros y. rewrite elem_of_list_to_set. split.
    - intros Hy. destruct (inv_set_queue c HI y Hy) as [H| ->]; [done|].
      apply reachable_subset in Hy. by destruct (Hids "" Hy).
    - apply (inv_queue_set c HI). }
  split; [done|]. rewrite Heq. apply size_list_to_set, HI.
Qed.

Lemma set_mirrors_queue_witness :
  let c := snd (DedupCache.calls ["a"; "b"; "a"; "c"] DedupCache.initial) in
  size (DedupCache.processedEvents c) = length (DedupCache.processedEventsQueue c).
Proof.
  intros c.
  assert (H : Forall (λ y, y ≠ "") ["a"; "b"; "a"; "c"])
    by (apply (bool_decide_unpack _); by vm_compute).
  exact (proj2 (set_mirrors_queue ["a"; "b"; "a"; "c"] H)).
Defined.

(** X3: the queue is first in, first out and a repeated identifier is not
    moved: after any sequence of calls from a reachable cache, the queue is
    the old queue followed by the identifiers that the calls recorded (those
    answered [false]), in call order, cut down to its last 100 entries. *)
Theorem queue_holds_latest_recordings (c : DedupCache.Cache) (ids : list string) :
  DedupCache.reachable c →
  let run := DedupCache.calls ids c in
  DedupCache.processedEventsQueue (snd run)
  = drop (length (DedupCache.processedEventsQueue c
                  ++ recorded_ids ids (fst run)) - DedupCache.MAX_CACHE_SIZE)
         (DedupCache.processedEventsQueue c ++ recorded_ids ids (fst run))
  ∧ length (recorded_ids ids (fst run)) = DedupCache.recorded (fst run).
Proof.
  intros Hreach run. apply calls_queue. by apply reachable_Inv.
Qed.

Lemma queue_holds_latest_recordings_witness :
  DedupCache.processedEventsQueue
    (snd (DedupCache.calls ["b"; "a"; "c"; "a"]
            (snd (DedupCache.calls ["a"] DedupCache.initial))))
  = ["a"; "b"; "c"].
Proof.
  assert (H : DedupCache.reachable (snd (DedupCache.calls ["a"] DedupCache.initial)))
    by (by exists ["a"]).
  destruct (queue_holds_latest_recordings _ ["b"; "a"; "c"; "a"] H) as [Hq _].
  rewrite Hq. reflexivity.
Defined.

(** ** Rules for what a computation leaves alone *)

Section FrameRules.
Context {A B X : Type} (f : State → X).

Lemma preserves_ret (a : A) : preserves f (ret a).
Proof. intros s. reflexivity. Qed.

Lemma preserves_throw e : preserves f (throw (A:=A) e).
Proof. intros s. reflexivity. Qed.

Lemma preserves_pending : preserves f (pending (A:=A)).
Proof. intros s. reflexivity. Qed.

Lemma preserves_bind (m : M A) (k : A → M B) :
  preserves f m → (∀ a, preserves f (k a)) → preserves f (bind m k).
Proof.
  intros Hm Hk s. unfold bind. specialize (Hm s).
  destruct (m s) as [[a|e|] s1]; cbn [snd] in *; [|done|done].
  by rewrite Hk.
Qed.

Lemma preserves_try (m : M A) (h : Error → M A) :
  preserves f m → (∀ e, preserves f (h e)) → preserves f (try_catch m h).
Proof.
  intros Hm Hh s. unfold try_catch. specialize (Hm s).
  destruct (m s) as [[a|e|] s1]; cbn [snd] in *; [done| |done].
  by rewrite Hh.
Qed.

Lemma preserves_race (m : M A) ms : preserves f m → preserves f (race m ms).
Proof.
  intros Hm s. unfold race. specialize (Hm s).
  by destruct (m s) as [[a|e|] s1].
Qed.

Lemma preserves_detached (m : M A) : preserves f m → preserves f (detached m).
Proof. intros Hm s. apply Hm. Qed.

End FrameRules.

Section ThrowRules.
Context {A B : Type}.

Lemma never_throws_ret (a : A) : never_throws (ret a).
Proof. intros s e. done. Qed.

Lemma never_throws_bind (m : M A) (k : A → M B) :
  never_throws m → (∀ a, never_throws (k a)) → never_throws (bind m k).
Proof.
  intros Hm Hk s e. unfold bind. specialize (Hm s).
  destruct (m s) as [[a|e'|] s1]; cbn [fst] in *; [apply Hk | | done].
  by destruct (Hm e').
Qed.

Lemma never_throws_try (m : M A) (h : Error → M A) :
  (∀ e, never_throws (h e)) → never_throws (try_catch m h).
Proof.
  intros Hh s e. unfold try_catch.
  destruct (m s) as [[a|e'|] s1]; cbn [fst]; [done | apply Hh | done].
Qed.

Lemma steps_ret (P : Step → Prop) (a : A) : steps_satisfy P (ret a).
Proof. intros s. exists []. cbn. by rewrite app_nil_r. Qed.

Lemma steps_throw (P : Step → Prop) e : steps_satisfy P (throw (A:=A) e).
Proof. intros s. exists []. cbn. by rewrite app_nil_r. Qed.

Lemma steps_pending (P : Step → Prop) : steps_satisfy P (pending (A:=A)).
Proof. intros s. exists []. cbn. by rewrite app_nil_r. Qed.

Lemma steps_bind (P : Step → Prop) (m : M A) (k : A → M B) :
  steps_satisfy P m → (∀ a, steps_satisfy P (k a)) → steps_satisfy P (bind m k).
Proof.
  intros Hm Hk s. unfold bind. destruct (Hm s) as (t1 & Ht1 & Hs1).
  destruct (m s) as [[a|e|] s1]; cbn [snd] in *; eauto.
  destruct (Hk a s1) as (t2 & Ht2 & Hs2). exists (t1 ++ t2). split.
  - rewrite Ht2, Ht1. by rewrite app_assoc.
  - by apply Forall_app.
Qed.

Lemma steps_try (P : Step → Prop) (m : M A) (h : Error → M A) :
  steps_satisfy P m → (∀ e, steps_satisfy P (h e)) → steps_satisfy P (try_catch m h).
Proof.
  intros Hm Hh s. unfold try_catch. destruct (Hm s) as (t1 & Ht1 & Hs1).
  destruct (m s) as [[a|e|] s1]; cbn [snd] in *; eauto.
  destruct (Hh e s1) as (t2 & Ht2 & Hs2). exists (t1 ++ t2). split.
  - rewrite Ht2, Ht1. by rewrite app_assoc.
  - by apply Forall_app.
Qed.

Lemma steps_detached (P : Step → Prop) (m : M A) :
  steps_satisfy P m → steps_satisfy P (detached m).
Proof. intros Hm s. apply Hm. Qed.

End ThrowRules.

Lemma steps_log (P : Step → Prop) x : P x → steps_satisfy P (log x).
Proof. intros HP s. exists [x]. split; [done|]. by constructor. Qed.

Lemma steps_silent {A} (P : Step → Prop) (m : M A) :
  preserves st_trace m → steps_satisfy P m.
Proof. intros Hm s. exists []. rewrite Hm, app_nil_r. done. Qed.

Create HintDb js_frame.

(** Goals [preserves f m]: the combinators by their rules, the primitive
    operations by computation. *)
Ltac preserves_step :=
  lazymatch goal with
  | |- preserves _ (ret _) => apply preserves_ret
  | |- preserves _ (throw _) => apply preserves_throw
  | |- preserves _ pending => apply preserves_pending
  | |- preserves _ (bind _ _) => apply preserves_bind; [| intros ?]
  | |- preserves _ (try_catch _ _) => apply preserves_try; [| intros ?]
  | |- preserves _ (race _ _) => apply preserves_race
  | |- preserves _ (detached _) => apply preserves_detached
  | |- preserves _ (if ?b then _ else _) => destruct b
  | |- preserves _ (match ?x with _ => _ end) => destruct x
  | |- preserves _ _ =>
      first [ solve [auto with js_frame] | solve [intros ?; reflexivity] ]
  end.

Ltac preserves_auto := cbv zeta; repeat preserves_step.

Ltac never_throws_step :=
  lazymatch goal with
  | |- never_throws (ret _) => apply never_throws_ret
  | |- never_throws (bind _ _) => apply never_throws_bind; [| intros ?]
  | |- never_throws (try_catch _ _) => apply never_throws_try; intros ?
  | |- never_throws (if ?b then _ else _) => destruct b
  | |- never_throws (match ?x with _ => _ end) => destruct x
  | |- never_throws _ =>
      first [ solve [auto with js_frame] | solve [intros ? ?; discriminate] ]
  end.

Ltac never_throws_auto := cbv zeta; repeat never_throws_step.

Ltac steps_step :=
  lazymatch goal with
  | |- steps_satisfy _ (ret _) => apply steps_ret
  | |- steps_satisfy _ (throw _) => apply steps_throw
  | |- steps_satisfy _ pending => apply steps_pending
  | |- steps_satisfy _ (log _) => apply steps_log; first [exact I | reflexivity]
  | |- steps_satisfy _ (bind _ _) => apply steps_bind; [| intros ?]
  | |- steps_satisfy _ (try_catch _ _) => apply steps_try; [| intros ?]
  | |- steps_satisfy _ (detached _) => apply steps_detached
  | |- steps_satisfy _ (if ?b then _ else _) => destruct b
  | |- steps_satisfy _ (match ?x with _ => _ end) => destruct x
  | |- steps_satisfy _ _ =>
      first [ solve [auto with js_frame]
            | solve [apply steps_silent; intros ?; reflexivity] ]
  end.

Ltac steps_auto := cbv zeta; repeat steps_step.

(** Every function below the routers, unfolded down to the primitive
    operations ([report_progress] is recursive and has its own lemmas). *)
Ltac unfold_handlers :=
  unfold HandleAppMention.handleNewAppMention, HandleAppMention.updateStatusUtil,
    HandleMessages.handleNewAssistantMessage, HandleMessages.assistantThreadMessage,
    GenerateResponse.generateResponse, GenerateResponse.throttledUpdate,
    SlackUtils.getThread, SlackUtils.getBotId, SlackUtils.checkIfAlreadyResponded,
    SlackUtils.verifyRequest, SlackUtils.isValidSlackRequest,
    SlackUtils.updateStatusUtil, SlackUtils.call_updater,
    Client.auth_test, Client.conversations_replies, Client.chat_postMessage,
    Client.chat_update, Client.assistant_threads_setSuggestedPrompts,
    generateText, of_result.

Section Frames.
Context `{RT : Runtime}.

Lemma cache_report_progress u ps :
  preserves st_cache (GenerateResponse.report_progress u ps).
Proof.
  induction ps as [|p ps IH]; cbn [GenerateResponse.report_progress].
  - apply preserves_ret.
  - apply preserves_bind; [|intros _; exact IH].
    unfold_handlers. destruct u; preserves_auto.
Qed.

#[local] Hint Resolve cache_report_progress : js_frame.

Lemma cache_lambda_process_event event rawBody ty ev :
  preserves st_cache (Lambda.process_event event rawBody ty ev).
Proof.
  unfold Lambda.process_event, Lambda.history_gate, Lambda.dispatch.
  unfold_handlers. preserves_auto.
Qed.

Lemma cache_vercel_process_event p :
  preserves st_cache (Vercel.process_event p).
Proof.
  unfold Vercel.process_event, Vercel.history_gate, Vercel.waitUntil.
  unfold_handlers. preserves_auto.
Qed.

Lemma cache_verifyRequest ty hs rawBody :
  preserves st_cache (SlackUtils.verifyRequest ty hs rawBody).
Proof. unfold_handlers. preserves_auto. Qed.

Lemma trace_verifyRequest ty hs rawBody :
  preserves st_trace (SlackUtils.verifyRequest ty hs rawBody).
Proof. unfold_handlers. preserves_auto. Qed.

Lemma world_verifyRequest ty hs rawBody :
  preserves st_world (SlackUtils.verifyRequest ty hs rawBody).
Proof. unfold_handlers. preserves_auto. Qed.

End Frames.

(** ** The routers and the dedup cache *)

Section RouterFacts.
Context `{RT : Runtime}.

(** The cache after the Lambda handler has served a delivery. *)
Lemma lambda_handler_cache event p id s :
  JSON_parse (Lambda.rawBody_of event) = Parsed p →
  delivers p id →
  st_cache (snd (Lambda.handler event s))
  = snd (DedupCache.isEventProcessed id (st_cache s)).
Proof.
  intros Hp (Hty & [ev Hev] & Hid & Hne).
  unfold Lambda.handler. cbv zeta. rewrite Hp.
  rewrite bool_decide_eq_false_2 by (rewrite Hty; discriminate).
  rewrite Hev, Hid. rewrite (bool_decide_eq_true_2 _ Hty).
  cbn [Js.truthy_opt Js.interp from_option Datatypes.id andb].
  rewrite (truthy_of_nonempty id Hne). cbn [andb].
  unfold try_catch. rewrite (bind_returned _ _ _ _ _ (run_cache_gate id s)).
  destruct (DedupCache.isEventProcessed id (st_cache s)) as [[|] c];
    cbn [fst snd]; [done|].
  match goal with
  | |- context [Lambda.process_event ?a ?b ?c ?d ?st] =>
      pose proof (cache_lambda_process_event a b c d st) as Hkeep;
      destruct (Lambda.process_event a b c d st) as [[r|e|] s3]
  end; cbn in *; done.
Qed.

(** The Lambda handler on a delivery whose identifier is in the set. *)
Lemma lambda_handler_hit event p id s :
  JSON_parse (Lambda.rawBody_of event) = Parsed p →
  delivers p id →
  id ∈ DedupCache.processedEvents (st_cache s) →
  Lambda.handler event s
  = (Returned (mkResult 200 [] "Event already processed"),
     snd (log (StepDedupCache id) s)).
Proof.
  intros Hp (Hty & [ev Hev] & Hid & Hne) Hin.
  unfold Lambda.handler. cbv zeta. rewrite Hp.
  rewrite bool_decide_eq_false_2 by (rewrite Hty; discriminate).
  rewrite Hev, Hid. rewrite (bool_decide_eq_true_2 _ Hty).
  cbn [Js.truthy_opt Js.interp from_option Datatypes.id andb].
  rewrite (truthy_of_nonempty id Hne). cbn [andb].
  unfold try_catch. rewrite (bind_returned _ _ _ _ _ (run_cache_gate id s)).
  rewrite (hit_spec id (st_cache s) Hin). reflexivity.
Qed.

Lemma vercel_POST_cache request p id s :
  JSON_parse (Vercel.text request) = Parsed p →
  delivers p id →
  st_cache (snd (Vercel.POST request s))
  = snd (DedupCache.isEventProcessed id (st_cache s)).
Proof.
  intros Hp (Hty & [ev Hev] & Hid & Hne).
  unfold Vercel.POST. cbv zeta. rewrite Hp.
  rewrite bool_decide_eq_false_2 by (rewrite Hty; discriminate).
  rewrite Hev, Hid. rewrite (bool_decide_eq_true_2 _ Hty).
  cbn [Js.truthy_opt Js.interp from_option Datatypes.id andb].
  rewrite (truthy_of_nonempty id Hne). cbn [andb].
  rewrite (bind_returned _ _ _ _ _ (run_cache_gate id s)).
  destruct (DedupCache.isEventProcessed id (st_cache s)) as [[|] c];
    cbn [fst snd]; [done|].
  assert (Hrest : preserves st_cache
            (bind (log StepVerify) (λ _,
               bind (SlackUtils.verifyRequest (p_type p) (Vercel.req_headers request)
                       (Vercel.text request)) (λ _,
                 try_catch (Vercel.process_event p)
                   (λ _, ret (Vercel.mkResponse "Error generating response" 500)))))).
  { apply preserves_bind; [intros ?; reflexivity | intros _].
    apply preserves_bind; [apply cache_verifyRequest | intros _].
    apply preserves_try; [apply cache_vercel_process_event | intros _].
    apply preserves_ret. }
  apply Hrest.
Qed.

Lemma vercel_POST_hit request p id s :
  JSON_parse (Vercel.text request) = Parsed p →
  delivers p id →
  id ∈ DedupCache.processedEvents (st_cache s) →
  Vercel.POST request s
  = (Returned (Vercel.mkResponse "Event already processed" 200),
     snd (log (StepDedupCache id) s)).
Proof.
  intros Hp (Hty & [ev Hev] & Hid & Hne) Hin.
  unfold Vercel.POST. cbv zeta. rewrite Hp.
  rewrite bool_decide_eq_false_2 by (rewrite Hty; discriminate).
  rewrite Hev, Hid. rewrite (bool_decide_eq_true_2 _ Hty).
  cbn [Js.truthy_opt Js.interp from_option Datatypes.id andb].
  rewrite (truthy_of_nonempty id Hne). cbn [andb].
  rewrite (bind_returned _ _ _ _ _ (run_cache_gate id s)).
  rewrite (hit_spec id (st_cache s) Hin). reflexivity.
Qed.

End RouterFacts.

(** X4: two deliveries with the same truthy [event_id] in the same
    process: whatever the first run did, the second one is answered
    ["Event already processed"] with status 200, and its only step is the
    cache check; no collaborator is called and no handler is started. This
    holds for the Lambda handler and for the Vercel route. *)
Theorem duplicate_delivery_is_short_circuited `{RT : Runtime}
    (p1 p2 : Payload) (id : string) (s : State) :
  DedupCache.reachable (st_cache s) →
  delivers p1 id →
  delivers p2 id →
  (∀ first second,
     JSON_parse (Lambda.rawBody_of first) = Parsed p1 →
     JSON_parse (Lambda.rawBody_of second) = Parsed p2 →
     let s1 := snd (Lambda.handler first s) in
     Lambda.handler second s1
     = (Returned (mkResult 200 [] "Event already processed"),
        snd (log (StepDedupCache id) s1)))
  ∧ (∀ first second,
       JSON_parse (Vercel.text first) = Parsed p1 →
       JSON_parse (Vercel.text second) = Parsed p2 →
       let s1 := snd (Vercel.POST first s) in
       Vercel.POST second s1
       = (Returned (Vercel.mkResponse "Event already processed" 200),
          snd (log (StepDedupCache id) s1))).
Proof.
  intros Hreach H1 H2. pose proof (reachable_Inv _ Hreach) as HI. split.
  - intros first second Hp1 Hp2 s1.
    apply (lambda_handler_hit second p2 id s1 Hp2 H2).
    subst s1. rewrite (lambda_handler_cache first p1 id s Hp1 H1).
    by apply recorded_after_call.
  - intros first second Hp1 Hp2 s1.
    apply (vercel_POST_hit second p2 id s1 Hp2 H2).
    subst s1. rewrite (vercel_POST_cache first p1 id s Hp1 H1).
    by apply recorded_after_call.
Qed.

Lemma duplicate_delivery_witness :
  let s1 := snd (Lambda.handler (Sample.request Sample.body_mention)
                                (boot Sample.generation_hangs)) in
  fst (Lambda.handler (Sample.request Sample.body_mention) s1)
  = Returned (mkResult 200 [] "Event already processed").
Proof.
  intros s1.
  assert (Hreach : DedupCache.reachable (st_cache (boot Sample.generation_hangs)))
    by (by exists []).
  assert (Hd : delivers Sample.payload_mention "Ev01").
  { split; [reflexivity|]. split; [by eexists|]. split; [reflexivity|discriminate]. }
  destruct (duplicate_delivery_is_short_circuited (RT := Sample.runtime)
              Sample.payload_mention Sample.payload_mention "Ev01"
              (boot Sample.generation_hangs) Hreach Hd Hd) as [Hlambda _].
  exact (f_equal fst (Hlambda (Sample.request Sample.body_mention)
                              (Sample.request Sample.body_mention)
                              eq_refl eq_refl)).
Defined.

(** ** Requests without a signature *)

Section Unsigned.
Context `{RT : Runtime}.

Lemma verifyRequest_unsigned ty hs rawBody s :
  unsigned hs → SlackUtils.verifyRequest ty hs rawBody s = (Returned true, s).
Proof.
  intros Hu. unfold SlackUtils.verifyRequest, SlackUtils.isValidSlackRequest.
  assert (Hgate : negb (Js.truthy_opt (SlackUtils.getHeader hs "X-Slack-Request-Timestamp"))
                  || negb (Js.truthy_opt (SlackUtils.getHeader hs "X-Slack-Signature"))
                  = true).
  { destruct Hu as [-> | ->]; [done | apply orb_true_r]. }
  rewrite Hgate. reflexivity.
Qed.

(** The run of the Lambda handler on an unsigned [event_callback]. *)
Lemma lambda_handler_unsigned event p ev s :
  JSON_parse (Lambda.rawBody_of event) = Parsed p →
  p_type p = Some "event_callback" →
  p_event p = Some ev →
  unsigned (lambda_headers event) →
  Lambda.handler event s
  = if Js.truthy_opt (p_event_id p) then
      let id := Js.interp (p_event_id p) in
      let s2 := mkState (snd (DedupCache.isEventProcessed id (st_cache s)))
                        (st_global s) (st_lastUpdateTime s) (st_ticks s)
                        (st_world s) (st_trace s ++ [StepDedupCache id]) in
      if fst (DedupCache.isEventProcessed id (st_cache s))
      then (Returned (mkResult 200 [] "Event already processed"), s2)
      else (Returned (mkResult 200 []
              "Verification failed, but returning 200 to avoid retries"),
            snd (log StepVerify s2))
    else (Returned (mkResult 200 []
            "Verification failed, but returning 200 to avoid retries"),
          snd (log StepVerify s)).
Proof.
  intros Hp Hty Hev Hu.
  assert (Hrest : ∀ s2,
    try_catch (Lambda.process_event event (Lambda.rawBody_of event) (p_type p) ev)
      (λ _, ret (mkResult 200 []
                   "Error occurred, but returning 200 to avoid retries")) s2
    = (Returned (mkResult 200 []
                   "Verification failed, but returning 200 to avoid retries"),
       snd (log StepVerify s2))).
  { intros s2. apply try_returned. unfold Lambda.process_event. cbv zeta.
    rewrite bind_log.
    rewrite (bind_returned _ _ _ _ _
               (verifyRequest_unsigned (p_type p) _ (Lambda.rawBody_of event)
                  (snd (log StepVerify s2)) Hu)).
    reflexivity. }
  unfold Lambda.handler. cbv zeta. rewrite Hp.
  rewrite bool_decide_eq_false_2 by (rewrite Hty; discriminate).
  rewrite Hev. rewrite (bool_decide_eq_true_2 _ Hty). cbn [andb].
  unfold try_catch at 1. destruct (Js.truthy_opt (p_event_id p)).
  - rewrite (bind_returned _ _ _ _ _ (run_cache_gate _ s)).
    destruct (fst (DedupCache.isEventProcessed _ _)); [done|].
    by rewrite Hrest.
  - rewrite (bind_returned _ _ _ _ _ (eq_refl : ret false s = (Returned false, s))).
    by rewrite Hrest.
Qed.

End Unsigned.

(** X5: an [event_callback] that lacks the timestamp header or the
    signature header: the Lambda handler answers 200 (the verification
    failure, or the duplicate notice when the identifier is already in the
    cache), calls no collaborator (the world is left as it is and the only
    steps are the cache check and the verification), and starts no handler.
    The identifier of such a request is nevertheless in the dedup cache
    afterwards. *)
Theorem unsigned_request_calls_no_collaborator `{RT : Runtime}
    (event : APIGatewayProxyEvent) (p : Payload) (s : State) :
  JSON_parse (Lambda.rawBody_of event) = Parsed p →
  p_type p = Some "event_callback" →
  is_Some (p_event p) →
  unsigned (lambda_headers event) →
  let run := Lambda.handler event s in
  (fst run = Returned (mkResult 200 [] "Event already processed")
   ∨ fst run = Returned (mkResult 200 []
                 "Verification failed, but returning 200 to avoid retries"))
  ∧ st_world (snd run) = st_world s
  ∧ (∃ new, st_trace (snd run) = st_trace s ++ new ∧ Forall local_stage new)
  ∧ (DedupCache.reachable (st_cache s) →
     ∀ id, p_event_id p = Some id → id ≠ "" →
           id ∈ DedupCache.processedEvents (st_cache (snd run))).
Proof.
  intros Hp Hty [ev Hev] Hu run.
  split; [|split; [|split]].
  4: { intros Hreach id Hid Hne. subst run.
       rewrite (lambda_handler_cache event p id s Hp).
       - apply recorded_after_call. by apply reachable_Inv.
       - split; [done|]. split; [by exists ev|]. done. }
  all: subst run; rewrite (lambda_handler_unsigned event p ev s Hp Hty Hev Hu);
    cbv zeta; destruct (Js.truthy_opt (p_event_id p));
    [destruct (fst (DedupCache.isEventProcessed _ _))|]; cbn.
  - by left.
  - by right.
  - by right.
  - done.
  - done.
  - done.
  - eexists [_]. split; [reflexivity|]. by repeat constructor.
  - eexists [_; _]. rewrite <- app_assoc. split; [reflexivity|].
    by repeat constructor.
  - eexists [_]. split; [reflexivity|]. by repeat constructor.
Qed.

Lemma unsigned_request_witness :
  let run := Lambda.handler
               (mkRequest (Some Sample.body_mention) false (Some []))
               (boot Sample.generation_hangs) in
  fst run = Returned (mkResult 200 []
              "Verification failed, but returning 200 to avoid retries")
  ∧ st_world (snd run) = Sample.generation_hangs
  ∧ "Ev01" ∈ DedupCache.processedEvents (st_cache (snd run)).
Proof.
  intros run.
  destruct (unsigned_request_calls_no_collaborator (RT := Sample.runtime)
              (mkRequest (Some Sample.body_mention) false (Some []))
              Sample.payload_mention (boot Sample.generation_hangs)
              eq_refl eq_refl (ex_intro _ _ eq_refl) (or_introl eq_refl))
    as (_ & Hworld & _ & Hcache).
  split; [reflexivity|]. split; [exact Hworld|].
  apply Hcache; [by exists [] | reflexivity | discriminate].
Defined.

(** X6: the Vercel route does not look at the result of [verifyRequest].
    An [assistant_thread_started] event that is delivered for the first
    time without a timestamp or signature header is answered ["Success!"]
    with status 200 as soon as the identity lookup answers, and the route
    starts the greeting handler for it: the verification step, the identity
    lookup and the dispatch follow one another in the trace. *)
Theorem vercel_dispatches_unsigned_request `{RT : Runtime}
    (request : Vercel.Request) (p : Payload) (event : SlackEvent)
    (a : AuthTest) (rest : list (Result AuthTest)) (s : State) :
  JSON_parse (Vercel.text request) = Parsed p →
  p_type p = Some "event_callback" →
  p_event p = Some event →
  ev_type event = Some "assistant_thread_started" →
  (∀ id, p_event_id p = Some id → id ∉ DedupCache.processedEvents (st_cache s)) →
  unsigned (Vercel.req_headers request) →
  w_auth_test (st_world s) = Ok a :: rest →
  Js.truthy_opt (auth_user_id a) = true →
  fst (Vercel.POST request s) = Returned (Vercel.mkResponse "Success!" 200)
  ∧ ∃ before after,
      st_trace (snd (Vercel.POST request s))
      = st_trace s ++ before
        ++ [StepVerify; CallAuthTest; StepDispatch AssistantThreadMessage]
        ++ after.
Proof.
  intros Hp Hty Hev Het Hfresh Hu Ha Huid.
  assert (Hrest : ∀ s2,
    st_world s2 = st_world s →
    ∃ s4 after,
      bind (log StepVerify) (λ _,
        bind (SlackUtils.verifyRequest (p_type p) (Vercel.req_headers request)
                (Vercel.text request)) (λ _,
          try_catch (Vercel.process_event p)
            (λ _, ret (Vercel.mkResponse "Error generating response" 500)))) s2
      = (Returned (Vercel.mkResponse "Success!" 200), s4)
      ∧ st_trace s4
        = st_trace s2
          ++ [StepVerify; CallAuthTest; StepDispatch AssistantThreadMessage]
          ++ after).
  { intros s2 Hw. rewrite bind_log.
    rewrite (bind_returned _ _ _ _ _
               (verifyRequest_unsigned (p_type p) _ (Vercel.text request)
                  (snd (log StepVerify s2)) Hu)).
    destruct (run_getBotId a rest (snd (log StepVerify s2))) as (s3 & Hbot & Ht3);
      [by rewrite <- Ha, <- Hw | done |].
    unfold Vercel.process_event.
    assert (Hmessage : is_direct_message event (Js.interp (auth_user_id a)) = false).
    { unfold is_direct_message. rewrite bool_decide_eq_false_2; [done|].
      rewrite Het. discriminate. }
    rewrite Hev.
    rewrite (bool_decide_eq_false_2 (ev_type event = Some "app_mention"))
      by (rewrite Het; discriminate).
    rewrite (bool_decide_eq_true_2 _ Het).
    destruct (emits_assistantThreadMessage event
                (snd (log (StepDispatch AssistantThreadMessage) s3)))
      as (after & Hafter & _).
    eexists _, after. split.
    - apply try_returned. rewrite (bind_returned _ _ _ _ _ Hbot).
      rewrite Hmessage. unfold Vercel.waitUntil, detached, bind, ret, log.
      cbn [fst snd]. reflexivity.
    - cbn [snd]. unfold log in Hafter. cbn [snd st_trace] in Hafter.
      rewrite Hafter, Ht3. cbn. by rewrite <- !app_assoc. }
  unfold Vercel.POST. cbv zeta. rewrite Hp.
  rewrite bool_decide_eq_false_2 by (rewrite Hty; discriminate).
  rewrite Hev. rewrite (bool_decide_eq_true_2 _ Hty). cbn [andb].
  destruct (p_event_id p) as [id|] eqn:Hid; cbn [Js.truthy_opt].
  - destruct (Js.truthy id).
    + rewrite (bind_returned _ _ _ _ _ (run_cache_gate _ s)).
      cbn [Js.interp from_option Datatypes.id].
      rewrite answer_is_membership.
      rewrite bool_decide_eq_false_2 by (by apply Hfresh).
      match goal with
      | |- context [bind (log StepVerify) _ ?st] =>
          destruct (Hrest st eq_refl) as (s4 & after & -> & Ht)
      end.
      split; [done|]. exists [StepDedupCache id], after.
      cbn [snd]. rewrite Ht. cbn. by rewrite <- !app_assoc.
    + rewrite (bind_returned _ _ _ _ _ (eq_refl : ret false s = (Returned false, s))).
      destruct (Hrest s eq_refl) as (s4 & after & -> & Ht).
      split; [done|]. exists [], after. cbn [snd]. by rewrite Ht.
  - rewrite (bind_returned _ _ _ _ _ (eq_refl : ret false s = (Returned false, s))).
    destruct (Hrest s eq_refl) as (s4 & after & -> & Ht).
    split; [done|]. exists [], after. cbn [snd]. by rewrite Ht.
Qed.

Lemma vercel_dispatches_unsigned_request_witness :
  let run := Vercel.POST (RT := Greeting.runtime)
               (Vercel.mkVRequest Greeting.body []) (boot Greeting.world) in
  fst run = Returned (Vercel.mkResponse "Success!" 200)
  ∧ ∃ before after,
      st_trace (snd run)
      = [] ++ before
        ++ [StepVerify; CallAuthTest; StepDispatch AssistantThreadMessage]
        ++ after.
Proof.
  apply (vercel_dispatches_unsigned_request (RT := Greeting.runtime)
           (Vercel.mkVRequest Greeting.body []) Greeting.payload
           Greeting.thread_started (mkAuthTest (Some "U1") (Some "B1")) []
           (boot Greeting.world)).
  - reflexivity.
  - reflexivity.
  - reflexivity.
  - reflexivity.
  - intros id _. apply not_elem_of_empty.
  - left. reflexivity.
  - reflexivity.
  - reflexivity.
Defined.



(** ** The utilities of [slack-utils.ts] *)

Section Utilities.
Context `{RT : Runtime}.

Lemma thread_message_roles (botUserId : string) (messages : list Message) :
  map role (omap (SlackUtils.thread_message botUserId) messages)
  = map (λ m, if Js.truthy_opt (m_bot_id m) then RoleAssistant else RoleUser)
        (List.filter (λ m, Js.truthy_opt (m_text m)) messages).
Proof.
  induction messages as [|m messages IH]; [done|].
  cbn [omap list_omap List.filter]. unfold SlackUtils.thread_message at 1.
  cbv zeta. destruct (Js.truthy_opt (m_text m)); cbn; [|exact IH].
  by rewrite IH.
Qed.

Lemma thread_message_content (botUserId : string) (messages : list Message) :
  Forall (λ turn, is_Some (content turn))
         (omap (SlackUtils.thread_message botUserId) messages).
Proof.
  induction messages as [|m messages IH]; [constructor|].
  cbn [omap list_omap]. unfold SlackUtils.thread_message at 1. cbv zeta.
  destruct (negb (Js.truthy_opt (m_text m))); [exact IH|].
  constructor; [by eexists | exact IH].
Qed.

Lemma never_throws_call_updater u status :
  never_throws (SlackUtils.call_updater u status).
Proof. unfold SlackUtils.call_updater. destruct u; never_throws_auto. Qed.

Lemma never_throws_mention_updateStatusUtil status event :
  never_throws (HandleAppMention.updateStatusUtil status event).
Proof. unfold HandleAppMention.updateStatusUtil. never_throws_auto. Qed.

End Utilities.

(** X8: [getThread] always returns a list of turns, whatever the history
    call does, and every turn has a content. When the call answers with
    messages, the turns are those of the messages that have a text, in
    order, a message with a [bot_id] giving an assistant turn and any other
    a user turn. When the call throws or answers without messages, the
    result is a single user turn. *)
Theorem getThread_always_returns `{RT : Runtime}
    (channel_id thread_ts : option string) (botUserId : string) (s : State) :
  ∃ turns,
    fst (SlackUtils.getThread channel_id thread_ts botUserId s) = Returned turns
    ∧ Forall (λ turn, is_Some (content turn)) turns
    ∧ match w_replies (st_world s) with
      | Ok (Some messages) :: _ =>
          map role turns
          = map (λ m, if Js.truthy_opt (m_bot_id m) then RoleAssistant else RoleUser)
                (List.filter (λ m, Js.truthy_opt (m_text m)) messages)
      | _ => ∃ text, turns = [mkCoreMessage RoleUser (Some text)]
      end.
Proof.
  unfold SlackUtils.getThread, Client.conversations_replies.
  unfold try_catch, bind, log, get_state, set_world, of_result, ret, throw.
  cbn. destruct (w_replies (st_world s)) as [|[[messages|]|e] rest]; cbn.
  - eexists. split; [reflexivity|]. split; [|by eexists].
    repeat constructor. by eexists.
  - eexists. split; [reflexivity|].
    split; [apply thread_message_content | apply thread_message_roles].
  - eexists. split; [reflexivity|]. split; [|by eexists].
    repeat constructor. by eexists.
  - destruct (bool_decide (err_code e = Some "missing_scope")); cbn;
      (eexists; split; [reflexivity|]; split; [|by eexists]);
      repeat constructor; by eexists.
Qed.

(** ** The mention handler *)

Section Mention.
Context `{RT : Runtime}.

Lemma steps_bind_settled {A B} (P : Step → Prop) (Q : A → Prop)
    (m : M A) (k : A → M B) :
  settles Q m → steps_satisfy P m → (∀ a, Q a → steps_satisfy P (k a)) →
  steps_satisfy P (bind m k).
Proof.
  intros HQ Hm Hk s. unfold bind. specialize (HQ s).
  destruct (Hm s) as (t1 & Ht1 & Hs1).
  destruct (m s) as [[a|e|] s1]; cbn [fst snd] in *; eauto.
  destruct (Hk a HQ s1) as (t2 & Ht2 & Hs2). exists (t1 ++ t2). split.
  - rewrite Ht2, Ht1. by rewrite app_assoc.
  - by apply Forall_app.
Qed.

Lemma steps_weaken {A} (P Q : Step → Prop) (m : M A) :
  (∀ x, P x → Q x) → steps_satisfy P m → steps_satisfy Q m.
Proof.
  intros HPQ Hm s. destruct (Hm s) as (new & Hnew & HP).
  exists new. split; [done|]. by eapply Forall_impl.
Qed.

Lemma steps_reply_call_updater u status :
  rewrites_message u → steps_satisfy reply_step (SlackUtils.call_updater u status).
Proof.
  intros Hu. destruct u; [done|..]; unfold_handlers; steps_auto.
Qed.

Lemma steps_reply_throttledUpdate u message :
  rewrites_message u →
  steps_satisfy reply_step (GenerateResponse.throttledUpdate u message).
Proof.
  intros Hu. unfold GenerateResponse.throttledUpdate. cbv zeta.
  apply steps_bind; [apply steps_silent; by intros ?|intros now].
  apply steps_bind; [apply steps_silent; by intros ?|intros s0].
  destruct (match st_lastUpdateTime s0 !! "default" with
            | Some t => _ | None => _ end); [apply steps_ret|].
  apply steps_bind; [apply steps_silent; by intros ?|intros _].
  apply steps_detached. by apply steps_reply_call_updater.
Qed.

Lemma steps_reply_report_progress u progress :
  rewrites_message u →
  steps_satisfy reply_step (GenerateResponse.report_progress u progress).
Proof.
  intros Hu. induction progress as [|p progress IH];
    cbn [GenerateResponse.report_progress]; [apply steps_ret|].
  apply steps_bind; [by apply steps_reply_throttledUpdate | intros _; exact IH].
Qed.

Lemma steps_reply_generateResponse messages u :
  rewrites_message u →
  steps_satisfy reply_step (GenerateResponse.generateResponse messages u).
Proof.
  intros Hu. unfold GenerateResponse.generateResponse.
  apply steps_bind; [by apply steps_reply_throttledUpdate | intros _].
  apply steps_bind; [unfold generateText; steps_auto | intros g].
  apply steps_bind; [by apply steps_reply_report_progress | intros _].
  destruct (gen_outcome g); steps_auto.
Qed.

Lemma steps_reply_getThread channel_id thread_ts botUserId :
  steps_satisfy reply_step (SlackUtils.getThread channel_id thread_ts botUserId).
Proof. unfold_handlers. steps_auto. Qed.

(** The part of [handleNewAppMention] that follows [updateStatusUtil]. *)
Lemma steps_reply_mention_body (event : SlackEvent) (botUserId : string) u :
  rewrites_message u →
  steps_satisfy reply_step
    (try_catch
       (bind
          (if Js.truthy_opt (ev_thread_ts event)
           then
             bind (SlackUtils.getThread (ev_channel event) (ev_thread_ts event)
                     botUserId)
                  (λ messages, GenerateResponse.generateResponse messages u)
           else
             GenerateResponse.generateResponse
               [mkCoreMessage RoleUser (ev_text event)] u)
          (λ result, SlackUtils.call_updater u result))
       (λ _,
          SlackUtils.call_updater u
            "処理中にエラーが発生しました。しばらく経ってから再度お試しください。")).
Proof.
  intros Hu. apply steps_try; [|intros _; by apply steps_reply_call_updater].
  apply steps_bind; [|intros result; by apply steps_reply_call_updater].
  destruct (Js.truthy_opt (ev_thread_ts event));
    [|by apply steps_reply_generateResponse].
  apply steps_bind; [apply steps_reply_getThread | intros messages].
  by apply steps_reply_generateResponse.
Qed.

Lemma settles_mention_updateStatusUtil status event :
  settles rewrites_message (HandleAppMention.updateStatusUtil status event).
Proof.
  intros s. unfold HandleAppMention.updateStatusUtil, Client.chat_postMessage.
  unfold try_catch, bind, log, get_state, set_world, set_global, of_result,
    ret, throw. cbn.
  destruct (Js.truthy_opt (st_global s !! _)); cbn; [done|].
  destruct (w_postMessage (st_world s)) as [|[initialMessage|e] rest]; cbn;
    [done| |done].
  destruct (negb (Js.truthy_opt initialMessage)); cbn; done.
Qed.

Lemma steps_mention_updateStatusUtil event :
  steps_satisfy (λ x, x = placeholder_post event)
                (HandleAppMention.updateStatusUtil "処理中..." event).
Proof.
  unfold HandleAppMention.updateStatusUtil, placeholder_post.
  unfold_handlers. steps_auto.
Qed.

Lemma steps_handleNewAppMention event botUserId :
  steps_satisfy (λ x, reply_step x ∨ x = placeholder_post event)
                (HandleAppMention.handleNewAppMention event botUserId).
Proof.
  unfold HandleAppMention.handleNewAppMention.
  destruct (_ || _); [apply steps_ret|].
  apply (steps_bind_settled _ rewrites_message).
  - apply settles_mention_updateStatusUtil.
  - eapply steps_weaken; [|apply steps_mention_updateStatusUtil]. by right.
  - intros u Hu. eapply steps_weaken; [|by apply steps_reply_mention_body].
    by left.
Qed.

Lemma posts_apology_app (t1 t2 : list Step) :
  posts_apology (t1 ++ t2) = posts_apology t1 || posts_apology t2.
Proof. unfold posts_apology. apply existsb_app. Qed.

Lemma no_apology (t : list Step) :
  Forall (λ x, posts_apology [x] = false) t → posts_apology t = false.
Proof.
  induction 1 as [|x t Hx _ IH]; [done|].
  change (x :: t) with ([x] ++ t). rewrite posts_apology_app, Hx, IH. done.
Qed.

(** The apology call, run in state [s]. *)
Lemma run_apology_post (args : PostMessage) (s : State) :
  ∃ s1, try_catch (bind (Client.chat_postMessage args) (λ _, ret tt))
                  (λ _, ret tt) s = (Returned tt, s1)
        ∧ st_trace s1 = st_trace s ++ [CallPostMessage args].
Proof.
  unfold Client.chat_postMessage.
  unfold try_catch, bind, log, get_state, set_world, of_result, ret, throw.
  cbn. destruct (w_postMessage (st_world s)) as [|[ts|e] rest]; cbn; eauto.
Qed.

(** The dispatch of the Lambda router on a mention. *)
Lemma run_dispatch_mention (event : SlackEvent) (botUserId : string)
    (timeoutMs : Z) (s : State) :
  ev_type event = Some "app_mention" →
  Lambda.isMessageEvent event = true →
  Lambda.dispatch event botUserId timeoutMs s
  = match HandleAppMention.handleNewAppMention event botUserId
            (started HandleNewAppMention s) with
    | (Returned a, s2) => (Returned a, s2)
    | (_, s2) =>
        try_catch (bind (Client.chat_postMessage
                           (mkPostMessage (ev_channel event)
                              (Js.or_else (ev_thread_ts event) (ev_ts event))
                              Lambda.apology false))
                        (λ _, ret tt))
                  (λ _, ret tt) s2
    end.
Proof.
  intros Hty Hmsg. unfold Lambda.dispatch.
  rewrite (bool_decide_eq_true_2 _ Hty), Hmsg.
  unfold try_catch at 1. rewrite bind_log. unfold race.
  fold (started HandleNewAppMention s).
  by destruct (HandleAppMention.handleNewAppMention event botUserId
                 (started HandleNewAppMention s)) as [[a|e|] s2].
Qed.

End Mention.

(** X9: [handleNewAppMention] never throws: whatever the collaborators
    answer, it returns, or it is still waiting for the text generation. *)
Theorem handleNewAppMention_never_throws `{RT : Runtime}
    (event : SlackEvent) (botUserId : string) (s : State) (e : Error) :
  fst (HandleAppMention.handleNewAppMention event botUserId s) ≠ Thrown e.
Proof.
  revert s e.
  change (never_throws (HandleAppMention.handleNewAppMention event botUserId)).
  unfold HandleAppMention.handleNewAppMention.
  destruct (_ || _); [apply never_throws_ret|].
  apply never_throws_bind; [apply never_throws_mention_updateStatusUtil|].
  intros updateMessage. apply never_throws_try. intros e.
  apply never_throws_call_updater.
Qed.

(** X10: the Lambda router, on a mention that has a channel and a
    timestamp, posts its apology exactly when the mention handler has not
    finished before the deadline. The dispatch always returns; the apology
    is then the last call of the run, into the thread of the event
    ([thread_ts || ts]). *)
Theorem mention_apology_exactly_on_timeout `{RT : Runtime}
    (event : SlackEvent) (botUserId : string) (timeoutMs : Z) (s : State) :
  ev_type event = Some "app_mention" →
  is_Some (ev_channel event) →
  is_Some (ev_ts event) →
  let run := Lambda.dispatch event botUserId timeoutMs s in
  fst run = Returned tt
  ∧ ∃ new,
      st_trace (snd run) = st_trace s ++ new
      ∧ (posts_apology new = true
         ↔ fst (HandleAppMention.handleNewAppMention event botUserId
                  (started HandleNewAppMention s)) = Pending)
      ∧ (posts_apology new = true → last new = Some (apology_post event)).
Proof.
  intros Hty Hch Hts run. subst run.
  assert (Hmsg : Lambda.isMessageEvent event = true).
  { unfold Lambda.isMessageEvent. rewrite (bool_decide_eq_true_2 _ Hty).
    by rewrite (bool_decide_eq_true_2 _ Hch), (bool_decide_eq_true_2 _ Hts). }
  rewrite (run_dispatch_mention event botUserId timeoutMs s Hty Hmsg).
  assert (Hnever : never_throws
                     (HandleAppMention.handleNewAppMention event botUserId)).
  { unfold HandleAppMention.handleNewAppMention.
    destruct (_ || _); [apply never_throws_ret|].
    apply never_throws_bind; [apply never_throws_mention_updateStatusUtil|].
    intros updateMessage. apply never_throws_try. intros e.
    apply never_throws_call_updater. }
  specialize (Hnever (started HandleNewAppMention s)).
  destruct (steps_handleNewAppMention event botUserId
              (started HandleNewAppMention s)) as (new & Hnew & Hsteps).
  assert (Hquiet : posts_apology new = false).
  { apply no_apology. eapply Forall_impl; [exact Hsteps|].
    intros x [Hx| ->]; [by destruct x | by vm_compute]. }
  destruct (HandleAppMention.handleNewAppMention event botUserId
              (started HandleNewAppMention s)) as [[[]|e|] s2];
    cbn [fst snd] in *.
  - split; [done|]. exists ([StepDispatch HandleNewAppMention] ++ new).
    split; [by rewrite Hnew, app_assoc|].
    rewrite posts_apology_app, Hquiet. cbn. split; [split|]; done.
  - by destruct (Hnever e).
  - destruct (run_apology_post
                (mkPostMessage (ev_channel event)
                   (Js.or_else (ev_thread_ts event) (ev_ts event))
                   Lambda.apology false) s2) as (s3 & Hrun & Ht3).
    rewrite Hrun. cbn [fst snd]. split; [done|].
    exists ([StepDispatch HandleNewAppMention] ++ new ++ [apology_post event]).
    split; [rewrite Ht3, Hnew; unfold started, apology_post; cbn;
            by rewrite <- !app_assoc|].
    split; [split; [done|intros _]|intros _].
    + rewrite !posts_apology_app. apply orb_true_iff. right.
      apply orb_true_iff. right. by vm_compute.
    + by rewrite !app_assoc, last_snoc.
Qed.

Lemma mention_apology_witness :
  let run := Lambda.dispatch (RT := Sample.runtime) Sample.mention "U1" 160000
               (boot Sample.generation_hangs) in
  fst run = Returned tt ∧ posts_apology (st_trace (snd run)) = true.
Proof.
  intros run.
  destruct (mention_apology_exactly_on_timeout (RT := Sample.runtime)
              Sample.mention "U1" 160000 (boot Sample.generation_hangs)
              eq_refl (ex_intro _ _ eq_refl) (ex_intro _ _ eq_refl))
    as (Hret & new & Hnew & Hiff & _).
  split; [exact Hret|].
  change (posts_apology (st_trace (snd run)) = true).
  subst run. rewrite Hnew. apply Hiff. reflexivity.
Defined.

(** ** The placeholder message of a thread *)

Section Placeholder.
Context `{RT : Runtime}.

Section Rules.
Context {A B : Type} (I : State → Prop) (P : Step → Prop).

Lemma maintains_ret (a : A) : maintains I P (ret a).
Proof. intros s Hs. split; [done|]. exists []. by rewrite app_nil_r. Qed.

Lemma maintains_bind (m : M A) (k : A → M B) :
  maintains I P m → (∀ a, maintains I P (k a)) → maintains I P (bind m k).
Proof.
  intros Hm Hk s Hs. unfold bind. destruct (Hm s Hs) as (H1 & t1 & Ht1 & Hs1).
  destruct (m s) as [[a|e|] s1]; cbn [snd] in *; eauto.
  destruct (Hk a s1 H1) as (H2 & t2 & Ht2 & Hs2). split; [done|].
  exists (t1 ++ t2). split.
  - rewrite Ht2, Ht1. by rewrite app_assoc.
  - by apply Forall_app.
Qed.

Lemma maintains_try (m : M A) (h : Error → M A) :
  maintains I P m → (∀ e, maintains I P (h e)) → maintains I P (try_catch m h).
Proof.
  intros Hm Hh s Hs. unfold try_catch.
  destruct (Hm s Hs) as (H1 & t1 & Ht1 & Hs1).
  destruct (m s) as [[a|e|] s1]; cbn [snd] in *; eauto.
  destruct (Hh e s1 H1) as (H2 & t2 & Ht2 & Hs2). split; [done|].
  exists (t1 ++ t2). split.
  - rewrite Ht2, Ht1. by rewrite app_assoc.
  - by apply Forall_app.
Qed.

Lemma maintains_detached (m : M A) : maintains I P m → maintains I P (detached m).
Proof. intros Hm s Hs. apply (Hm s Hs). Qed.

End Rules.

Lemma global_report_progress u ps :
  preserves st_global (GenerateResponse.report_progress u ps).
Proof.
  induction ps as [|p ps IH]; cbn [GenerateResponse.report_progress].
  - apply preserves_ret.
  - apply preserves_bind; [|intros _; exact IH].
    unfold_handlers. destruct u; preserves_auto.
Qed.

#[local] Hint Resolve global_report_progress : js_frame.

(** The part of [handleNewAppMention] that follows [updateStatusUtil]
    leaves [global] as it is. *)
Lemma global_mention_body (event : SlackEvent) (botUserId : string) u :
  preserves st_global
    (try_catch
       (bind
          (if Js.truthy_opt (ev_thread_ts event)
           then
             bind (SlackUtils.getThread (ev_channel event) (ev_thread_ts event)
                     botUserId)
                  (λ messages, GenerateResponse.generateResponse messages u)
           else
             GenerateResponse.generateResponse
               [mkCoreMessage RoleUser (ev_text event)] u)
          (λ result, SlackUtils.call_updater u result))
       (λ _,
          SlackUtils.call_updater u
            "処理中にエラーが発生しました。しばらく経ってから再度お試しください。")).
Proof. unfold_handlers. destruct u; preserves_auto. Qed.

Section Stored.
Variables (key id : string) (channel : option string).

Lemma maintains_leaf {A} (P : Step → Prop) (m : M A) :
  preserves st_global m → steps_satisfy P m → maintains (stored key id) P m.
Proof.
  intros Hg Hm s Hs. split; [|apply Hm]. unfold stored. by rewrite Hg.
Qed.

Lemma maintains_existing status :
  maintains (stored key id) (rewrites_only channel id)
            (SlackUtils.call_updater (SlackUtils.UpdExisting channel key) status).
Proof.
  intros s Hs. unfold stored in *.
  unfold SlackUtils.call_updater, Client.chat_update.
  unfold try_catch, bind, log, get_state, set_world, of_result, ret, throw.
  cbn. rewrite Hs.
  destruct (w_update (st_world s)) as [|[[]|e] rest]; cbn;
    (split; [done|]; eexists [_]; split; [reflexivity|]);
    by repeat constructor.
Qed.

Lemma maintains_throttledUpdate message :
  maintains (stored key id) (rewrites_only channel id)
    (GenerateResponse.throttledUpdate (SlackUtils.UpdExisting channel key) message).
Proof.
  unfold GenerateResponse.throttledUpdate. cbv zeta.
  apply maintains_bind;
    [apply maintains_leaf; [by intros ?|apply steps_silent; by intros ?]|].
  intros now. apply maintains_bind;
    [apply maintains_leaf; [by intros ?|apply steps_silent; by intros ?]|].
  intros s0.
  destruct (match st_lastUpdateTime s0 !! "default" with
            | Some t => _ | None => _ end); [apply maintains_ret|].
  apply maintains_bind;
    [apply maintains_leaf; [by intros ?|apply steps_silent; by intros ?]|].
  intros _. apply maintains_detached, maintains_existing.
Qed.

Lemma maintains_report_progress progress :
  maintains (stored key id) (rewrites_only channel id)
    (GenerateResponse.report_progress (SlackUtils.UpdExisting channel key) progress).
Proof.
  induction progress as [|p progress IH];
    cbn [GenerateResponse.report_progress]; [apply maintains_ret|].
  apply maintains_bind; [apply maintains_throttledUpdate | intros _; exact IH].
Qed.

Lemma maintains_generateResponse messages :
  maintains (stored key id) (rewrites_only channel id)
    (GenerateResponse.generateResponse messages
       (SlackUtils.UpdExisting channel key)).
Proof.
  unfold GenerateResponse.generateResponse.
  apply maintains_bind; [apply maintains_throttledUpdate | intros _].
  apply maintains_bind.
  { apply maintains_leaf; unfold generateText; [preserves_auto | steps_auto]. }
  intros g. apply maintains_bind; [apply maintains_report_progress | intros _].
  apply maintains_leaf; destruct (gen_outcome g);
    [preserves_auto.. | steps_auto | steps_auto | steps_auto].
Qed.

Lemma maintains_mention_body (event : SlackEvent) (botUserId : string) :
  maintains (stored key id) (rewrites_only channel id)
    (try_catch
       (bind
          (if Js.truthy_opt (ev_thread_ts event)
           then
             bind (SlackUtils.getThread (ev_channel event) (ev_thread_ts event)
                     botUserId)
                  (λ messages,
                     GenerateResponse.generateResponse messages
                       (SlackUtils.UpdExisting channel key))
           else
             GenerateResponse.generateResponse
               [mkCoreMessage RoleUser (ev_text event)]
               (SlackUtils.UpdExisting channel key))
          (λ result,
             SlackUtils.call_updater (SlackUtils.UpdExisting channel key) result))
       (λ _,
          SlackUtils.call_updater (SlackUtils.UpdExisting channel key)
            "処理中にエラーが発生しました。しばらく経ってから再度お試しください。")).
Proof.
  apply maintains_try; [|intros _; apply maintains_existing].
  apply maintains_bind; [|intros result; apply maintains_existing].
  destruct (Js.truthy_opt (ev_thread_ts event));
    [|apply maintains_generateResponse].
  apply maintains_bind; [|intros messages; apply maintains_generateResponse].
  apply maintains_leaf; unfold_handlers; [preserves_auto | steps_auto].
Qed.

End Stored.

(** [updateStatusUtil] when [global] already holds a message for the
    thread. *)
Lemma run_updateStatusUtil_stored status (event : SlackEvent) id (s : State) :
  stored (initialMessageIdKey event) id s → id ≠ "" →
  HandleAppMention.updateStatusUtil status event s
  = (Returned (SlackUtils.UpdExisting (ev_channel event)
                 (initialMessageIdKey event)), s).
Proof.
  intros Hs Hid. unfold stored, initialMessageIdKey in *.
  unfold HandleAppMention.updateStatusUtil. cbv zeta.
  unfold bind, get_state. cbn [fst snd]. rewrite Hs. cbn [Js.truthy_opt].
  by rewrite (truthy_of_nonempty id Hid).
Qed.

(** [updateStatusUtil] when [global] holds nothing for the thread and the
    placeholder is posted. *)
Lemma run_updateStatusUtil_posted status (event : SlackEvent) ts rest (s : State) :
  Js.truthy_opt (st_global s !! initialMessageIdKey event) = false →
  w_postMessage (st_world s) = Ok (Some ts) :: rest → ts ≠ "" →
  ∃ s1, HandleAppMention.updateStatusUtil status event s
        = (Returned (SlackUtils.UpdPosted (ev_channel event) (Some ts)), s1)
        ∧ stored (initialMessageIdKey event) ts s1
        ∧ st_trace s1
          = st_trace s
            ++ [CallPostMessage
                  (mkPostMessage (ev_channel event)
                     (Js.nullish (ev_thread_ts event) (ev_ts event))
                     status false)]
        ∧ w_generateText (st_world s1) = w_generateText (st_world s).
Proof.
  intros Hs Hw Hts. unfold stored, initialMessageIdKey in *.
  unfold HandleAppMention.updateStatusUtil, Client.chat_postMessage. cbv zeta.
  unfold try_catch, bind, log, get_state, set_world, set_global, of_result,
    ret, throw. cbn. rewrite Hs, Hw. cbn. rewrite (truthy_of_nonempty ts Hts).
  cbn. eexists. split; [reflexivity|]. cbn.
  split; [apply lookup_insert_eq | done].
Qed.

(** A mention that is not skipped and whose placeholder is posted leaves
    the identifier of the placeholder in [global]. *)
Lemma mention_stores_placeholder (event : SlackEvent) botUserId ts rest s :
  from_bot event botUserId = false →
  Js.truthy_opt (st_global s !! initialMessageIdKey event) = false →
  w_postMessage (st_world s) = Ok (Some ts) :: rest → ts ≠ "" →
  stored (initialMessageIdKey event) ts
         (snd (HandleAppMention.handleNewAppMention event botUserId s)).
Proof.
  intros Hbot Hs Hw Hts. unfold HandleAppMention.handleNewAppMention.
  unfold from_bot in Hbot. rewrite Hbot.
  destruct (run_updateStatusUtil_posted "処理中..." event ts rest s Hs Hw Hts)
    as (s1 & Hrun & Hstored & _).
  rewrite (bind_returned _ _ _ _ _ Hrun). unfold stored.
  by rewrite global_mention_body.
Qed.

(** A mention in a thread for which [global] holds a message. *)
Lemma mention_rewrites_stored (event : SlackEvent) botUserId id s :
  stored (initialMessageIdKey event) id s → id ≠ "" →
  ∃ new, st_trace (snd (HandleAppMention.handleNewAppMention event botUserId s))
         = st_trace s ++ new
         ∧ Forall (rewrites_only (ev_channel event) id) new.
Proof.
  intros Hs Hid. unfold HandleAppMention.handleNewAppMention.
  destruct (_ || _); [exists []; by rewrite app_nil_r|].
  rewrite (bind_returned _ _ _ _ _
             (run_updateStatusUtil_stored "処理中..." event id s Hs Hid)).
  apply (maintains_mention_body (initialMessageIdKey event) id (ev_channel event)
           event botUserId s Hs).
Qed.

End Placeholder.

(** X11: the placeholder of a thread is posted once per process. When a
    mention that is not from a bot has posted its placeholder (message
    [ts]), the handler of a later mention with the same channel and the same
    [thread_ts || ts] posts no message: it only reads the thread, asks for
    a text and rewrites message [ts], so that its reply replaces the reply
    to the earlier mention. *)
Theorem later_mention_rewrites_first_placeholder `{RT : Runtime}
    (first later : SlackEvent) (botUserId botUserId' ts : string)
    (rest : list (Result (option string))) (s : State) :
  from_bot first botUserId = false →
  Js.truthy_opt (st_global s !! initialMessageIdKey first) = false →
  w_postMessage (st_world s) = Ok (Some ts) :: rest →
  ts ≠ "" →
  ev_channel later = ev_channel first →
  Js.or_else (ev_thread_ts later) (ev_ts later)
  = Js.or_else (ev_thread_ts first) (ev_ts first) →
  let s1 := snd (HandleAppMention.handleNewAppMention first botUserId s) in
  ∃ new,
    st_trace (snd (HandleAppMention.handleNewAppMention later botUserId' s1))
    = st_trace s1 ++ new
    ∧ Forall (rewrites_only (ev_channel first) ts) new.
Proof.
  intros Hbot Hs Hw Hts Hch Hth s1.
  assert (Hkey : initialMessageIdKey later = initialMessageIdKey first).
  { unfold initialMessageIdKey. by rewrite Hch, Hth. }
  rewrite <- Hch. apply mention_rewrites_stored; [|done].
  rewrite Hkey. by apply (mention_stores_placeholder first botUserId ts rest s).
Qed.

Lemma later_mention_witness :
  let s1 := snd (HandleAppMention.handleNewAppMention (RT := Sample.runtime)
                   Thread.first_mention "U1" (boot Sample.generation_fails)) in
  ∃ new,
    st_trace (snd (HandleAppMention.handleNewAppMention (RT := Sample.runtime)
                     Thread.later_mention "U1" s1))
    = st_trace s1 ++ new
    ∧ Forall (rewrites_only (Some "C1") "1700000000.000400") new.
Proof.
  apply (later_mention_rewrites_first_placeholder (RT := Sample.runtime)
           Thread.first_mention Thread.later_mention "U1" "U1"
           "1700000000.000400"
           [Ok (Some "1700000000.000500"); Ok (Some "1700000000.000600")]
           (boot Sample.generation_fails)).
  - reflexivity.
  - reflexivity.
  - reflexivity.
  - discriminate.
  - reflexivity.
  - reflexivity.
Defined.

(** ** The throttle of the status updates *)

Section Throttle.
Context `{RT : Runtime}.

Lemma run_throttledUpdate_throttled u message (s : State) :
  throttled s →
  ∃ s1, GenerateResponse.throttledUpdate u message s = (Returned tt, s1)
        ∧ throttled s1
        ∧ st_trace s1 = st_trace s
        ∧ st_world s1 = st_world s.
Proof.
  intros (t & Ht & Hnz & Hclock).
  unfold GenerateResponse.throttledUpdate. cbv zeta.
  unfold bind, Date_now, get_state. cbn [fst snd st_lastUpdateTime].
  rewrite Ht.
  assert (Hrecent : negb (t =? 0)
                    && (w_clock (st_world s) (st_ticks s) - t
                        <? GenerateResponse.UPDATE_INTERVAL) = true).
  { apply andb_true_iff. split.
    - apply negb_true_iff. by apply Z.eqb_neq.
    - apply Z.ltb_lt. by apply Hclock. }
  rewrite Hrecent. eexists. split; [reflexivity|].
  split; [|done]. exists t. cbn. split; [done|]. split; [done|].
  intros n Hn. apply Hclock. lia.
Qed.

Lemma run_report_progress_throttled u progress (s : State) :
  throttled s →
  ∃ s1, GenerateResponse.report_progress u progress s = (Returned tt, s1)
        ∧ throttled s1
        ∧ st_trace s1 = st_trace s
        ∧ st_world s1 = st_world s.
Proof.
  revert s. induction progress as [|p progress IH]; intros s Hs;
    cbn [GenerateResponse.report_progress]; [by exists s|].
  destruct (run_throttledUpdate_throttled u p s Hs) as (s1 & Hrun & Hs1 & Ht1 & Hw1).
  rewrite (bind_returned _ _ _ _ _ Hrun).
  destruct (IH s1 Hs1) as (s2 & Hrun2 & Hs2 & Ht2 & Hw2).
  exists s2. split; [done|]. split; [done|]. split; congruence.
Qed.

(** The text generation call, run in state [s]. *)
Lemma run_generateText messages (s : State) :
  ∃ s1, st_trace s1 = st_trace s ++ [CallGenerateText messages]
        ∧ (throttled s → throttled s1)
        ∧ (generateText messages s = (Thrown script_exhausted, s1)
           ∨ ∃ g, generateText messages s = (Returned g, s1)).
Proof.
  unfold generateText, bind, log, get_state, set_world, ret, throw.
  cbn [fst snd st_world].
  destruct (w_generateText (st_world s)) as [|g rest];
    (eexists; split; [|split; [|first [left; reflexivity
                                      | right; eexists; reflexivity]]]);
    [reflexivity| |reflexivity|];
    intros (t & Ht & Hnz & Hclock); by exists t.
Qed.

End Throttle.

(** X12: while status updates are throttled, [generateResponse] reports
    nothing: whatever the updater it is given (the throttle has a single
    entry, shared by all threads) and however many progress notes the tools
    produce, its only call is the text generation. *)
Theorem throttled_response_reports_nothing `{RT : Runtime}
    (messages : list CoreMessage) (updateStatus : SlackUtils.Updater)
    (s : State) :
  throttled s →
  st_trace (snd (GenerateResponse.generateResponse messages updateStatus s))
  = st_trace s ++ [CallGenerateText messages].
Proof.
  intros Hs. unfold GenerateResponse.generateResponse.
  destruct (run_throttledUpdate_throttled updateStatus "考え中..." s Hs)
    as (s1 & Hrun & Hs1 & Ht1 & Hw1).
  rewrite (bind_returned _ _ _ _ _ Hrun). rewrite <- Ht1.
  destruct (run_generateText messages s1) as (s2 & Ht2 & Hs2 & [Hgen | [g Hgen]]).
  - by rewrite (bind_thrown _ _ _ _ _ Hgen).
  - rewrite (bind_returned _ _ _ _ _ Hgen).
    destruct (run_report_progress_throttled updateStatus (gen_progress g) s2
                (Hs2 Hs1)) as (s3 & Hrun3 & _ & Ht3 & _).
    rewrite (bind_returned _ _ _ _ _ Hrun3).
    destruct (gen_outcome g); cbn [ret throw pending snd]; by rewrite Ht3.
Qed.

Lemma throttled_response_witness :
  let s := mkState DedupCache.initial ∅ {["default" := Sample.now0]} 0%nat
                   Sample.generation_fails [] in
  st_trace (snd (GenerateResponse.generateResponse (RT := Sample.runtime)
                   [mkCoreMessage RoleUser (Some "hello")]
                   (SlackUtils.UpdThread (Some "D1") (Some "1700000000.25")) s))
  = [] ++ [CallGenerateText [mkCoreMessage RoleUser (Some "hello")]].
Proof.
  apply (throttled_response_reports_nothing (RT := Sample.runtime)).
  exists Sample.now0. split; [reflexivity|]. split; [discriminate|].
  intros n _. reflexivity.
Defined.

(** ** The reply to a mention *)

Section Reply.
Context `{RT : Runtime}.

Lemma generations_chat_postMessage args :
  preserves generations (Client.chat_postMessage args).
Proof.
  intros s. unfold generations, Client.chat_postMessage.
  unfold bind, log, get_state, set_world, of_result, ret, throw. cbn.
  by destruct (w_postMessage (st_world s)) as [|[a|e] rest].
Qed.

Lemma generations_chat_update channel ts text :
  preserves generations (Client.chat_update channel ts text).
Proof.
  intros s. unfold generations, Client.chat_update.
  unfold bind, log, get_state, set_world, of_result, ret, throw. cbn.
  by destruct (w_update (st_world s)) as [|[a|e] rest].
Qed.

Lemma generations_conversations_replies channel ts limit :
  preserves generations (Client.conversations_replies channel ts limit).
Proof.
  intros s. unfold generations, Client.conversations_replies.
  unfold bind, log, get_state, set_world, of_result, ret, throw. cbn.
  by destruct (w_replies (st_world s)) as [|[a|e] rest].
Qed.

#[local] Hint Resolve generations_chat_postMessage generations_chat_update
  generations_conversations_replies : js_frame.

Lemma generations_throttledUpdate u message :
  preserves generations (GenerateResponse.throttledUpdate u message).
Proof.
  unfold GenerateResponse.throttledUpdate, SlackUtils.call_updater.
  destruct u; preserves_auto.
Qed.

Lemma generations_report_progress u progress :
  preserves generations (GenerateResponse.report_progress u progress).
Proof.
  induction progress as [|p progress IH];
    cbn [GenerateResponse.report_progress]; [apply preserves_ret|].
  apply preserves_bind; [apply generations_throttledUpdate | intros _; exact IH].
Qed.

Lemma generations_getThread channel_id thread_ts botUserId :
  preserves generations (SlackUtils.getThread channel_id thread_ts botUserId).
Proof. unfold SlackUtils.getThread. preserves_auto. Qed.

Lemma returns_throttledUpdate u message (s : State) :
  fst (GenerateResponse.throttledUpdate u message s) = Returned tt.
Proof.
  unfold GenerateResponse.throttledUpdate. cbv zeta.
  unfold bind, Date_now, get_state, set_lastUpdateTime, detached, ret.
  cbn [fst snd]. by destruct (match _ !! "default" with Some t => _ | None => _ end).
Qed.

Lemma returns_report_progress u progress (s : State) :
  fst (GenerateResponse.report_progress u progress s) = Returned tt.
Proof.
  revert s. induction progress as [|p progress IH]; intros s;
    cbn [GenerateResponse.report_progress]; [done|].
  unfold bind. pose proof (returns_throttledUpdate u p s) as Hp.
  destruct (GenerateResponse.throttledUpdate u p s) as [o s1].
  cbn [fst] in Hp. subst o. apply IH.
Qed.

Lemma returns_getThread channel_id thread_ts botUserId (s : State) :
  ∃ turns, fst (SlackUtils.getThread channel_id thread_ts botUserId s)
           = Returned turns.
Proof.
  unfold SlackUtils.getThread, Client.conversations_replies.
  unfold try_catch, bind, log, get_state, set_world, of_result, ret, throw.
  cbn. destruct (w_replies (st_world s)) as [|[[messages|]|e] rest]; cbn;
    eauto.
  destruct (bool_decide _); cbn; eauto.
Qed.

(** A computation that returns, as an equation on its run. *)
Lemma returned_run {A} (m : M A) (s : State) (a : A) :
  fst (m s) = Returned a → m s = (Returned a, snd (m s)).
Proof. intros H. rewrite <- H. by destruct (m s). Qed.

(** [generateResponse] ends as the next generation of the script does. *)
Lemma run_generateResponse messages u (s : State) g rest :
  generations s = g :: rest →
  ∃ s1 mid, GenerateResponse.generateResponse messages u s = (outcome_of g, s1)
            ∧ st_trace s1 = st_trace s ++ mid.
Proof.
  intros Hg. unfold GenerateResponse.generateResponse.
  rewrite (bind_returned _ _ _ _ _
             (returned_run _ _ _ (returns_throttledUpdate u "考え中..." s))).
  destruct (emits_throttledUpdate u "考え中..." s) as (t1 & Ht1 & _).
  pose proof (generations_throttledUpdate u "考え中..." s) as Hg1.
  rewrite Hg in Hg1.
  set (s1 := snd (GenerateResponse.throttledUpdate u "考え中..." s)) in *.
  assert (Hgen : ∃ s2, generateText messages s1 = (Returned g, s2)
                       ∧ st_trace s2 = st_trace s1 ++ [CallGenerateText messages]).
  { unfold generations in Hg1. unfold generateText.
    unfold bind, log, get_state, set_world, ret. cbn. rewrite Hg1. eauto. }
  destruct Hgen as (s2 & Hgen & Ht2).
  rewrite (bind_returned _ _ _ _ _ Hgen).
  rewrite (bind_returned _ _ _ _ _
             (returned_run _ _ _ (returns_report_progress u (gen_progress g) s2))).
  destruct (emits_report_progress u (gen_progress g) s2) as (t3 & Ht3 & _).
  set (s3 := snd (GenerateResponse.report_progress u (gen_progress g) s2)) in *.
  exists s3, (t1 ++ [CallGenerateText messages] ++ t3). split.
  - unfold outcome_of. by destruct (gen_outcome g).
  - rewrite Ht3, Ht2, Ht1. by rewrite <- !app_assoc.
Qed.

(** The same for the text of a mention, with or without a thread. *)
Lemma run_mention_text (event : SlackEvent) (botUserId : string) u
    (s : State) g rest :
  generations s = g :: rest →
  ∃ s1 mid,
    (if Js.truthy_opt (ev_thread_ts event)
     then
       bind (SlackUtils.getThread (ev_channel event) (ev_thread_ts event)
               botUserId)
            (λ messages, GenerateResponse.generateResponse messages u)
     else
       GenerateResponse.generateResponse
         [mkCoreMessage RoleUser (ev_text event)] u) s
    = (outcome_of g, s1)
    ∧ st_trace s1 = st_trace s ++ mid.
Proof.
  intros Hg. destruct (Js.truthy_opt (ev_thread_ts event));
    [|by apply run_generateResponse with rest].
  destruct (returns_getThread (ev_channel event) (ev_thread_ts event)
              botUserId s) as (turns & Hturns).
  rewrite (bind_returned _ _ _ _ _ (returned_run _ _ _ Hturns)).
  destruct (emits_getThread (ev_channel event) (ev_thread_ts event)
              botUserId s) as (t1 & Ht1 & _).
  pose proof (generations_getThread (ev_channel event) (ev_thread_ts event)
                botUserId s) as Hg1.
  rewrite Hg in Hg1.
  destruct (run_generateResponse turns u _ g rest Hg1) as (s2 & mid & Hrun & Ht2).
  exists s2, (t1 ++ mid). split; [done|].
  rewrite Ht2, Ht1. by rewrite <- app_assoc.
Qed.

(** The updater of a posted placeholder, called with a text. *)
Lemma run_posted_update channel ts status (s : State) :
  status ≠ "" →
  ∃ s1, SlackUtils.call_updater (SlackUtils.UpdPosted channel ts) status s
        = (Returned tt, s1)
        ∧ st_trace s1 = st_trace s ++ [CallUpdate channel ts status].
Proof.
  intros Hne. unfold SlackUtils.call_updater, Client.chat_update.
  rewrite (truthy_of_nonempty status Hne). cbn [negb].
  unfold try_catch, bind, log, get_state, set_world, of_result, ret, throw.
  cbn. destruct (w_update (st_world s)) as [|[[]|e] rest']; cbn; eauto.
Qed.

End Reply.

(** X13: the reply to a mention is written into the placeholder. When the
    mention is not from a bot, no message is stored for its thread, the
    placeholder is posted (message [ts]) and the script of the text
    generation is not empty: the handler first posts the placeholder into
    the thread of the event ([thread_ts ?? ts]); if the generation gives a
    text whose converted form is not empty, the last call rewrites message
    [ts] with that form; if the generation throws, the last call rewrites
    message [ts] with the error notice; in both cases the handler returns.
    If the generation is still pending, so is the handler. *)
Theorem mention_reply_replaces_placeholder `{RT : Runtime}
    (event : SlackEvent) (botUserId ts : string)
    (rest : list (Result (option string)))
    (g : Generation) (gens : list Generation) (s : State) :
  from_bot event botUserId = false →
  Js.truthy_opt (st_global s !! initialMessageIdKey event) = false →
  w_postMessage (st_world s) = Ok (Some ts) :: rest →
  ts ≠ "" →
  generations s = g :: gens →
  let run := HandleAppMention.handleNewAppMention event botUserId s in
  let rewritten text :=
    fst run = Returned tt
    ∧ ∃ mid, st_trace (snd run)
             = st_trace s ++ [placeholder_post event] ++ mid
               ++ [CallUpdate (ev_channel event) (Some ts) text] in
  (∀ text, gen_outcome g = GenText text → to_mrkdwn text ≠ "" →
           rewritten (to_mrkdwn text))
  ∧ (∀ e, gen_outcome g = GenThrows e → rewritten error_notice)
  ∧ (gen_outcome g = GenPending → fst run = Pending).
Proof.
  intros Hbot Hs Hw Hts Hg run rewritten.
  destruct (run_updateStatusUtil_posted "処理中..." event ts rest s Hs Hw Hts)
    as (s1 & Hrun1 & _ & Ht1 & Hg1).
  fold (generations s1) in Hg1. fold (generations s) in Hg1. rewrite Hg in Hg1.
  destruct (run_mention_text event botUserId
              (SlackUtils.UpdPosted (ev_channel event) (Some ts)) s1 g gens Hg1)
    as (s2 & mid & Hrun2 & Ht2).
  assert (Hrun : run
    = try_catch
        (bind
           (if Js.truthy_opt (ev_thread_ts event)
            then
              bind (SlackUtils.getThread (ev_channel event) (ev_thread_ts event)
                      botUserId)
                   (λ messages,
                      GenerateResponse.generateResponse messages
                        (SlackUtils.UpdPosted (ev_channel event) (Some ts)))
            else
              GenerateResponse.generateResponse
                [mkCoreMessage RoleUser (ev_text event)]
                (SlackUtils.UpdPosted (ev_channel event) (Some ts)))
           (λ result,
              SlackUtils.call_updater
                (SlackUtils.UpdPosted (ev_channel event) (Some ts)) result))
        (λ _,
           SlackUtils.call_updater
             (SlackUtils.UpdPosted (ev_channel event) (Some ts)) error_notice)
        s1).
  { subst run. unfold HandleAppMention.handleNewAppMention.
    unfold from_bot in Hbot. rewrite Hbot.
    by rewrite (bind_returned _ _ _ _ _ Hrun1). }
  assert (Hfinal : ∀ text, text ≠ "" →
    ∃ s3, SlackUtils.call_updater
            (SlackUtils.UpdPosted (ev_channel event) (Some ts)) text s2
          = (Returned tt, s3)
          ∧ ∃ mid', st_trace s3
                    = st_trace s ++ [placeholder_post event] ++ mid'
                      ++ [CallUpdate (ev_channel event) (Some ts) text]).
  { intros text Hne.
    destruct (run_posted_update (ev_channel event) (Some ts) text s2 Hne)
      as (s3 & Hrun3 & Ht3).
    exists s3. split; [done|]. exists mid.
    rewrite Ht3, Ht2, Ht1. unfold placeholder_post. by rewrite <- !app_assoc. }
  unfold outcome_of in Hrun2. split; [|split].
  - intros text Hout Hne. rewrite Hout in Hrun2.
    destruct (Hfinal (to_mrkdwn text) Hne) as (s3 & Hrun3 & Htrace).
    subst rewritten. cbv beta. rewrite Hrun.
    rewrite (try_returned _ _ _ _ _
               (eq_trans (bind_returned _ _ _ _ _ Hrun2) Hrun3)).
    done.
  - intros e Hout. rewrite Hout in Hrun2.
    destruct (Hfinal error_notice) as (s3 & Hrun3 & Htrace); [done|].
    subst rewritten. cbv beta. rewrite Hrun.
    rewrite (try_thrown _ _ _ _ _ (bind_thrown _ _ _ _ _ Hrun2)).
    rewrite Hrun3. done.
  - intros Hout. rewrite Hout in Hrun2. rewrite Hrun.
    by rewrite (try_pending _ _ _ _ (bind_pending _ _ _ _ Hrun2)).
Qed.

Lemma mention_reply_witness :
  let run := HandleAppMention.handleNewAppMention (RT := Sample.runtime)
               Sample.mention "U1" (boot Sample.generation_fails) in
  fst run = Returned tt
  ∧ ∃ mid, st_trace (snd run)
           = [] ++ [placeholder_post Sample.mention] ++ mid
             ++ [CallUpdate (Some "C1") (Some "1700000000.000400") error_notice].
Proof.
  destruct (mention_reply_replaces_placeholder (RT := Sample.runtime)
              Sample.mention "U1" "1700000000.000400"
              [Ok (Some "1700000000.000500"); Ok (Some "1700000000.000600")]
              (mkGeneration [] (GenThrows Sample.failure)) []
              (boot Sample.generation_fails))
    as (_ & Hthrows & _).
  - reflexivity.
  - reflexivity.
  - reflexivity.
  - discriminate.
  - reflexivity.
  - exact (Hthrows Sample.failure eq_refl).
Defined.

(** ** The cache over the life of a process *)

Section Process.
Context `{RT : Runtime}.

Lemma cache_bind_tail {A B} (m : M A) (k : A → M B) (s : State) :
  (∀ a, preserves st_cache (k a)) →
  st_cache (snd (bind m k s)) = st_cache (snd (m s)).
Proof.
  intros Hk. unfold bind. destruct (m s) as [[a|e|] s1]; cbn [snd]; [|done..].
  apply Hk.
Qed.

Lemma cache_try_tail {A} (m : M A) (h : Error → M A) (s : State) :
  (∀ e, preserves st_cache (h e)) →
  st_cache (snd (try_catch m h s)) = st_cache (snd (m s)).
Proof.
  intros Hh. unfold try_catch. destruct (m s) as [[a|e|] s1]; cbn [snd]; [done| |done].
  apply Hh.
Qed.

(** The cache after the cache check of the routers: the identifier they
    pass to [isEventProcessed] is never empty. *)
Lemma cache_gate_cases (p : Payload) (s : State) :
  let gate :=
    match p_event p with
    | Some _ =>
        if bool_decide (p_type p = Some "event_callback")
           && Js.truthy_opt (p_event_id p)
        then
          bind (log (StepDedupCache (Js.interp (p_event_id p))))
               (λ _, isEventProcessed (Js.interp (p_event_id p)))
        else ret false
    | None => ret false
    end in
  st_cache (snd (gate s)) = st_cache s
  ∨ ∃ id, id ≠ ""
          ∧ st_cache (snd (gate s))
            = snd (DedupCache.isEventProcessed id (st_cache s)).
Proof.
  cbv zeta. destruct (p_event p); [|by left].
  destruct (bool_decide _); [|by left].
  destruct (p_event_id p) as [id|]; [|by left].
  cbn [andb Js.truthy_opt Js.interp from_option Datatypes.id].
  destruct (Js.truthy id) eqn:Hid; [|by left].
  right. exists id. split; [by intros ->|]. by rewrite run_cache_gate.
Qed.

Lemma lambda_handler_cache_cases (event : APIGatewayProxyEvent) (s : State) :
  st_cache (snd (Lambda.handler event s)) = st_cache s
  ∨ ∃ id, id ≠ ""
          ∧ st_cache (snd (Lambda.handler event s))
            = snd (DedupCache.isEventProcessed id (st_cache s)).
Proof.
  unfold Lambda.handler. cbv zeta.
  rewrite cache_try_tail by (intros e; apply preserves_ret).
  destruct (JSON_parse _) as [e| |p]; [by left | by left |].
  case_bool_decide; [by left|].
  rewrite cache_bind_tail; [apply cache_gate_cases|].
  intros duplicate. destruct duplicate; [apply preserves_ret|].
  destruct (p_event p); [|apply preserves_ret].
  case_bool_decide; [|apply preserves_ret].
  apply preserves_try; [apply cache_lambda_process_event | intros _].
  apply preserves_ret.
Qed.

Lemma vercel_POST_cache_cases (request : Vercel.Request) (s : State) :
  st_cache (snd (Vercel.POST request s)) = st_cache s
  ∨ ∃ id, id ≠ ""
          ∧ st_cache (snd (Vercel.POST request s))
            = snd (DedupCache.isEventProcessed id (st_cache s)).
Proof.
  unfold Vercel.POST. cbv zeta.
  destruct (JSON_parse _) as [e| |p]; [by left | by left |].
  case_bool_decide; [by left|].
  rewrite cache_bind_tail; [apply cache_gate_cases|].
  intros duplicate. destruct duplicate; [apply preserves_ret|].
  apply preserves_bind; [intros ?; reflexivity | intros _].
  apply preserves_bind; [apply cache_verifyRequest | intros _].
  apply preserves_try; [apply cache_vercel_process_event | intros _].
  apply preserves_ret.
Qed.

Lemma calls_snoc (ids : list string) (x : string) (c : DedupCache.Cache) :
  snd (DedupCache.calls (ids ++ [x]) c)
  = snd (DedupCache.isEventProcessed x (snd (DedupCache.calls ids c))).
Proof.
  revert c. induction ids as [|y ids IH]; intros c; cbn.
  - by destruct (DedupCache.isEventProcessed x c).
  - destruct (DedupCache.isEventProcessed y c) as [b c1].
    specialize (IH c1).
    destruct (DedupCache.calls (ids ++ [x]) c1) as [bs c2].
    destruct (DedupCache.calls ids c1) as [bs' c2']. exact IH.
Qed.

Lemma reachable_call (x : string) (c : DedupCache.Cache) :
  DedupCache.reachable c →
  DedupCache.reachable (snd (DedupCache.isEventProcessed x c)).
Proof.
  intros [ids ->]. exists (ids ++ [x]). by rewrite calls_snoc.
Qed.

End Process.

(** X14: a run of either router, on any request and in any world, leaves
    the dedup cache as it found it or as a single call of
    [isEventProcessed] makes it: no handler and no utility touches it. A
    cache that was reachable from the empty one by calls of
    [isEventProcessed] is therefore still so after the run, and the bounds
    on the queue and the set hold throughout the life of a process. *)
Theorem routers_keep_cache_reachable `{RT : Runtime}
    (event : APIGatewayProxyEvent) (request : Vercel.Request) (s : State) :
  DedupCache.reachable (st_cache s) →
  DedupCache.reachable (st_cache (snd (Lambda.handler event s)))
  ∧ DedupCache.reachable (st_cache (snd (Vercel.POST request s))).
Proof.
  intros Hs. split.
  - destruct (lambda_handler_cache_cases event s) as [-> | (id & _ & ->)];
      [done | by apply reachable_call].
  - destruct (vercel_POST_cache_cases request s) as [-> | (id & _ & ->)];
      [done | by apply reachable_call].
Qed.

Lemma routers_keep_cache_reachable_witness :
  DedupCache.reachable
    (st_cache (snd (Lambda.handler (RT := Sample.runtime)
                      (Sample.request Sample.body_mention)
                      (boot Sample.generation_fails))))
  ∧ DedupCache.reachable
      (st_cache (snd (Vercel.POST (RT := Sample.runtime)
                        (Vercel.mkVRequest Sample.body_mention [])
                        (boot Sample.generation_fails)))).
Proof.
  apply (routers_keep_cache_reachable (RT := Sample.runtime)).
  exists []. reflexivity.
Defined.

(** ** The headers read by the signature verifier *)

Section Headers.
Context `{RT : Runtime}.

Lemma toLowerCase_empty (k : string) : Js.toLowerCase k = "" → k = "".
Proof. by destruct k. Qed.

(** [getHeader] gives the value of the first header whose name equals
    [name] up to case. *)
Lemma getHeader_spec (hs : list (string * string)) (name : string) :
  Js.toLowerCase name ≠ "" →
  SlackUtils.getHeader hs name
  = snd <$> List.find (λ kv, String.eqb (Js.toLowerCase (fst kv))
                                        (Js.toLowerCase name)) hs.
Proof.
  intros Hname. unfold SlackUtils.getHeader. cbv zeta.
  induction hs as [|[k v] hs IH]; [done|].
  cbn [map fst List.find].
  destruct (String.eqb (Js.toLowerCase k) (Js.toLowerCase name)) eqn:Hk.
  - apply String.eqb_eq in Hk.
    rewrite truthy_of_nonempty.
    + cbn. by rewrite String.eqb_refl.
    + intros ->. by rewrite <- Hk in Hname.
  - rewrite <- IH.
    destruct (List.find _ (map fst hs)) as [key|] eqn:Hfind; [|done].
    destruct (Js.truthy key); [|done].
    apply find_some in Hfind as [_ Hkey]. apply String.eqb_eq in Hkey.
    cbn. destruct (String.eqb k key) eqn:Heq; [|done].
    apply String.eqb_eq in Heq. subst key.
    apply String.eqb_neq in Hk. done.
Qed.

Lemma getHeader_same_up_to_case (hs hs' : list (string * string)) (name : string) :
  Js.toLowerCase name ≠ "" →
  same_up_to_case hs hs' →
  SlackUtils.getHeader hs' name = SlackUtils.getHeader hs name.
Proof.
  intros Hname Hsame. rewrite !getHeader_spec by done.
  induction Hsame as [|[k v] [k' v'] hs hs' [Hk Hv] _ IH]; [done|].
  cbn in *. rewrite Hk. subst v'.
  by destruct (String.eqb (Js.toLowerCase k') (Js.toLowerCase name)).
Qed.

End Headers.

(** X15: the signature verifier reads its two headers by name up to case:
    two lists of headers that carry the same values in the same order under
    names that differ only in case give the same run of
    [isValidSlackRequest] and of [verifyRequest]. *)
Theorem verifier_ignores_header_case `{RT : Runtime}
    (hs hs' : list (string * string)) (requestType : option string)
    (rawBody : string) (s : State) :
  same_up_to_case hs hs' →
  SlackUtils.isValidSlackRequest hs' rawBody s
  = SlackUtils.isValidSlackRequest hs rawBody s
  ∧ SlackUtils.verifyRequest requestType hs' rawBody s
    = SlackUtils.verifyRequest requestType hs rawBody s.
Proof.
  intros Hsame.
  assert (Hvalid : SlackUtils.isValidSlackRequest hs' rawBody
                   = SlackUtils.isValidSlackRequest hs rawBody).
  { unfold SlackUtils.isValidSlackRequest.
    rewrite (getHeader_same_up_to_case hs hs' "X-Slack-Request-Timestamp")
      by (done || by vm_compute).
    by rewrite (getHeader_same_up_to_case hs hs' "X-Slack-Signature")
      by (done || by vm_compute). }
  split; [by rewrite Hvalid|].
  unfold SlackUtils.verifyRequest. by rewrite Hvalid.
Qed.

Lemma verifier_ignores_header_case_witness :
  SlackUtils.isValidSlackRequest (RT := Sample.runtime)
    [("x-slack-request-timestamp", "1700000000");
     ("x-slack-signature",
      "v0=" +:+ Sample.sample_hmac "secret"
                  ("v0:1700000000:" +:+ Sample.body_mention))]
    Sample.body_mention (boot Sample.quiet)
  = SlackUtils.isValidSlackRequest (RT := Sample.runtime)
      (Sample.verifier_headers Sample.body_mention)
      Sample.body_mention (boot Sample.quiet).
Proof.
  apply (verifier_ignores_header_case (RT := Sample.runtime)
           (Sample.verifier_headers Sample.body_mention) _ None
           Sample.body_mention (boot Sample.quiet)).
  repeat constructor.
Defined.

(** X16: the replay window is not applied to a timestamp that [parseInt]
    does not read as a number: [Math.abs] of [NaN] is not greater than 300.
    With such a timestamp header, not empty, and the signature computed
    over it and the body, [isValidSlackRequest] returns [true] whatever the
    clock shows. *)
Theorem unparseable_timestamp_skips_replay_window `{RT : Runtime}
    (hs : list (string * string)) (rawBody t : string) (s : State) :
  SlackUtils.getHeader hs "X-Slack-Request-Timestamp" = Some t →
  t ≠ "" →
  Js.parseInt t = None →
  SlackUtils.getHeader hs "X-Slack-Signature"
  = Some ("v0=" +:+ hmac_sha256_hex signingSecret
                      ("v0:" +:+ t +:+ ":" +:+ rawBody)) →
  fst (SlackUtils.isValidSlackRequest hs rawBody s) = Returned true.
Proof.
  intros Ht Hne Hnan Hsig. rewrite run_isValidSlackRequest, Ht, Hsig, Hnan.
  rewrite (truthy_of_nonempty t Hne), timingSafeEqual_refl. reflexivity.
Qed.

Lemma unparseable_timestamp_witness :
  fst (SlackUtils.isValidSlackRequest (RT := Sample.runtime)
         [("X-Slack-Request-Timestamp", "soon");
          ("X-Slack-Signature",
           "v0=" +:+ Sample.sample_hmac "secret" "v0:soon:{}")]
         "{}" (boot Sample.quiet))
  = Returned true.
Proof.
  apply (unparseable_timestamp_skips_replay_window (RT := Sample.runtime)
           _ "{}" "soon" (boot Sample.quiet)).
  - reflexivity.
  - discriminate.
  - reflexivity.
  - reflexivity.
Defined.

(** ** The direct-message handler *)

Section DirectMessage.
Context `{RT : Runtime}.

(** [chat.postMessage], run in state [s]. *)
Lemma run_chat_postMessage (args : PostMessage) (s : State) :
  ∃ s1, st_trace s1 = st_trace s ++ [CallPostMessage args]
        ∧ ((∃ ts, Client.chat_postMessage args s = (Returned ts, s1))
           ∨ (∃ e, Client.chat_postMessage args s = (Thrown e, s1))).
Proof.
  unfold Client.chat_postMessage.
  unfold bind, log, get_state, set_world, of_result, ret, throw.
  cbn [fst snd st_world].
  destruct (w_postMessage (st_world s)) as [|[ts|e] rest];
    (eexists; split; [|first [left; eexists; reflexivity
                             | right; eexists; reflexivity]]);
    reflexivity.
Qed.

Lemma generations_thread_status channel thread_ts status :
  preserves generations
    (SlackUtils.call_updater (SlackUtils.UpdThread channel thread_ts) status).
Proof.
  unfold SlackUtils.call_updater.
  apply preserves_try; [|intros _; apply preserves_ret].
  apply preserves_bind; [apply generations_chat_postMessage|].
  intros _. apply preserves_ret.
Qed.

(** A status update of the direct-message handler through the throttle:
    it returns, and it posts the status or nothing. *)
Lemma run_throttled_status (event : SlackEvent) message (s : State) :
  ∃ s1 new,
    GenerateResponse.throttledUpdate
      (SlackUtils.UpdThread (ev_channel event) (ev_thread_ts event)) message s
    = (Returned tt, s1)
    ∧ st_trace s1 = st_trace s ++ new
    ∧ new `sublist_of` [status_post event message]
    ∧ generations s1 = generations s.
Proof.
  pose proof (generations_throttledUpdate
                (SlackUtils.UpdThread (ev_channel event) (ev_thread_ts event))
                message s) as Hg.
  unfold GenerateResponse.throttledUpdate in *. cbv zeta in *.
  unfold bind, Date_now, get_state, set_lastUpdateTime, detached, ret in *.
  cbn [fst snd st_lastUpdateTime st_world st_ticks] in *.
  destruct (match st_lastUpdateTime s !! "default" with
            | Some t => _ | None => _ end).
  - eexists. exists []. split; [reflexivity|]. cbn [snd st_trace] in *.
    split; [by rewrite app_nil_r|]. split; [apply sublist_nil_l | exact Hg].
  - cbn [fst snd] in *.
    match goal with
    | |- context [SlackUtils.call_updater _ message ?st] =>
        destruct (run_apology_post
                    (mkPostMessage (ev_channel event) (ev_thread_ts event)
                       message false) st) as (s1 & Hrun & Ht1);
        change (SlackUtils.call_updater
                  (SlackUtils.UpdThread (ev_channel event) (ev_thread_ts event))
                  message st = (Returned tt, s1)) in Hrun;
        rewrite Hrun in *
    end.
    exists s1, [status_post event message]. split; [reflexivity|].
    split; [exact Ht1|]. split; [done | exact Hg].
Qed.

Lemma run_status_progress (event : SlackEvent) progress (s : State) :
  ∃ s1 new,
    GenerateResponse.report_progress
      (SlackUtils.UpdThread (ev_channel event) (ev_thread_ts event)) progress s
    = (Returned tt, s1)
    ∧ st_trace s1 = st_trace s ++ new
    ∧ new `sublist_of` map (status_post event) progress.
Proof.
  revert s. induction progress as [|p progress IH]; intros s;
    cbn [GenerateResponse.report_progress map].
  - exists s, []. split; [done|]. split; [by rewrite app_nil_r | done].
  - destruct (run_throttled_status event p s) as (s1 & t1 & Hrun1 & Ht1 & Hs1 & _).
    rewrite (bind_returned _ _ _ _ _ Hrun1).
    destruct (IH s1) as (s2 & t2 & Hrun2 & Ht2 & Hs2).
    exists s2, (t1 ++ t2). split; [done|]. split.
    + rewrite Ht2, Ht1. by rewrite app_assoc.
    + change (status_post event p :: map (status_post event) progress)
        with ([status_post event p] ++ map (status_post event) progress).
      by apply sublist_app.
Qed.

(** [getThread] makes one call, for fifty messages, and returns. *)
Lemma run_getThread channel_id thread_ts botUserId (s : State) :
  ∃ turns s1,
    SlackUtils.getThread channel_id thread_ts botUserId s = (Returned turns, s1)
    ∧ st_trace s1 = st_trace s ++ [CallReplies channel_id thread_ts 50]
    ∧ generations s1 = generations s.
Proof.
  unfold SlackUtils.getThread, Client.conversations_replies, generations.
  unfold try_catch, bind, log, get_state, set_world, of_result, ret, throw.
  cbn. destruct (w_replies (st_world s)) as [|[[messages|]|e] rest]; cbn;
    eauto.
  destruct (bool_decide _); cbn; eauto.
Qed.

(** [generateResponse] with the updater of the direct-message handler. *)
Lemma run_generateResponse_status (event : SlackEvent) messages
    (s : State) g rest :
  generations s = g :: rest →
  ∃ s1 before_call after_call,
    GenerateResponse.generateResponse messages
      (SlackUtils.UpdThread (ev_channel event) (ev_thread_ts event)) s
    = (outcome_of g, s1)
    ∧ st_trace s1
      = st_trace s ++ before_call ++ [CallGenerateText messages] ++ after_call
    ∧ before_call `sublist_of` [status_post event "考え中..."]
    ∧ after_call `sublist_of` map (status_post event) (gen_progress g).
Proof.
  intros Hg. unfold GenerateResponse.generateResponse.
  destruct (run_throttled_status event "考え中..." s)
    as (s1 & t1 & Hrun1 & Ht1 & Hs1 & Hg1).
  rewrite (bind_returned _ _ _ _ _ Hrun1). rewrite Hg in Hg1.
  assert (Hgen : ∃ s2, generateText messages s1 = (Returned g, s2)
                       ∧ st_trace s2 = st_trace s1 ++ [CallGenerateText messages]).
  { unfold generations in Hg1. unfold generateText.
    unfold bind, log, get_state, set_world, ret. cbn. rewrite Hg1. eauto. }
  destruct Hgen as (s2 & Hgen & Ht2).
  rewrite (bind_returned _ _ _ _ _ Hgen).
  destruct (run_status_progress event (gen_progress g) s2)
    as (s3 & t3 & Hrun3 & Ht3 & Hs3).
  rewrite (bind_returned _ _ _ _ _ Hrun3).
  exists s3, t1, t3. split; [|split; [|by split]].
  - unfold outcome_of. by destruct (gen_outcome g).
  - rewrite Ht3, Ht2, Ht1. by rewrite <- !app_assoc.
Qed.

End DirectMessage.

(** X17: the direct-message handler, on a message in a thread that is not
    from a bot, first posts the status ["is thinking..."] into the thread.
    It then reads the thread and asks for the text; until the generation
    ends, the only messages it posts are statuses: ["考え中..."] before the
    call and progress notes of the generation after it, those the throttle
    lets through. It then ends as the text generation does. When the
    generation gives a text, the handler posts the converted text as the
    reply and, once that call has answered, posts one more message, with an
    empty text, into the thread ([updateStatus("")] goes through
    [chat.postMessage]); when the reply call throws, the handler throws and
    nothing follows. When the generation throws or is still pending, so
    does or is the handler, and nothing follows the steps above: neither a
    reply nor a notice is posted. *)
Theorem direct_message_reply_is_followed_by_empty_status `{RT : Runtime}
    (event : SlackEvent) (botUserId : string)
    (g : Generation) (gens : list Generation) (s : State) :
  not_answered event botUserId = false →
  generations s = g :: gens →
  let run := HandleMessages.handleNewAssistantMessage event botUserId s in
  ∃ mid,
    thinking_steps event g mid
    ∧ let before := st_trace s ++ [status_post event "is thinking..."] ++ mid in
      match gen_outcome g with
      | GenText text =>
          (fst run = Returned tt
           ∧ st_trace (snd run)
             = before
               ++ [reply_post event (to_mrkdwn text); status_post event ""])
          ∨ (∃ e, fst run = Thrown e
                  ∧ st_trace (snd run)
                    = before ++ [reply_post event (to_mrkdwn text)])
      | GenThrows e => fst run = Thrown e ∧ st_trace (snd run) = before
      | GenPending => fst run = Pending ∧ st_trace (snd run) = before
      end.
Proof.
  intros Hskip Hg run. subst run.
  unfold HandleMessages.handleNewAssistantMessage.
  unfold not_answered in Hskip. rewrite Hskip. cbv zeta.
  unfold SlackUtils.updateStatusUtil.
  set (u := SlackUtils.UpdThread (ev_channel event) (ev_thread_ts event)).
  destruct (run_apology_post
              (mkPostMessage (ev_channel event) (ev_thread_ts event)
                 "is thinking..." false) s) as (s1 & Hrun1 & Ht1).
  change (SlackUtils.call_updater u "is thinking..." s = (Returned tt, s1))
    in Hrun1.
  pose proof (generations_thread_status (ev_channel event) (ev_thread_ts event)
                "is thinking..." s) as Hg1.
  fold u in Hg1. rewrite Hrun1 in Hg1. cbn [snd] in Hg1. rewrite Hg in Hg1.
  rewrite (bind_returned _ _ _ _ _ Hrun1).
  destruct (run_getThread (ev_channel event) (ev_thread_ts event) botUserId s1)
    as (turns & s2 & Hrun2 & Ht2 & Hg2).
  rewrite Hg1 in Hg2. rewrite (bind_returned _ _ _ _ _ Hrun2).
  destruct (run_generateResponse_status event turns s2 g gens Hg2)
    as (s3 & pre & post & Hrun3 & Ht3 & Hpre & Hpost).
  fold u in Hrun3.
  set (mid := [CallReplies (ev_channel event) (ev_thread_ts event) 50]
              ++ pre ++ [CallGenerateText turns] ++ post).
  assert (Hbefore : st_trace s3
                    = st_trace s ++ [status_post event "is thinking..."] ++ mid).
  { rewrite Ht3, Ht2, Ht1. unfold status_post, mid. by rewrite <- !app_assoc. }
  exists mid. split; [by exists turns, pre, post|].
  cbv zeta. unfold outcome_of in Hrun3.
  destruct (gen_outcome g) as [text|e|].
  - rewrite (bind_returned _ _ _ _ _ Hrun3).
    destruct (run_chat_postMessage
                (mkPostMessage (ev_channel event) (ev_thread_ts event)
                   (to_mrkdwn text) true) s3)
      as (s4 & Ht4 & [[ts Hrun4] | [e Hrun4]]).
    + left. rewrite (bind_returned _ _ _ _ _ Hrun4).
      destruct (run_apology_post
                  (mkPostMessage (ev_channel event) (ev_thread_ts event)
                     "" false) s4) as (s5 & Hrun5 & Ht5).
      change (SlackUtils.call_updater u "" s4 = (Returned tt, s5)) in Hrun5.
      rewrite Hrun5. cbn [fst snd]. split; [done|].
      rewrite Ht5, Ht4, Hbefore. unfold reply_post, status_post.
      by rewrite <- !app_assoc.
    + right. exists e. rewrite (bind_thrown _ _ _ _ _ Hrun4). cbn [fst snd].
      split; [done|]. rewrite Ht4, Hbefore. unfold reply_post.
      by rewrite <- !app_assoc.
  - by rewrite (bind_thrown _ _ _ _ _ Hrun3).
  - by rewrite (bind_pending _ _ _ _ Hrun3).
Qed.

Lemma direct_message_witness :
  let run := HandleMessages.handleNewAssistantMessage (RT := Sample.runtime)
               Sample.dm_in_thread "U1" (boot Thread.answering) in
  ∃ mid,
    thinking_steps Sample.dm_in_thread (mkGeneration [] (GenText "hi")) mid
    ∧ fst run = Returned tt
    ∧ st_trace (snd run)
      = ([] ++ [status_post Sample.dm_in_thread "is thinking..."] ++ mid)
        ++ [reply_post Sample.dm_in_thread "hi";
            status_post Sample.dm_in_thread ""].
Proof.
  intros run.
  destruct (direct_message_reply_is_followed_by_empty_status
              (RT := Sample.runtime) Sample.dm_in_thread "U1"
              (mkGeneration [] (GenText "hi")) [] (boot Thread.answering)
              eq_refl eq_refl)
    as [mid [Hmid [[Hret Htrace] | [e [Hthrow _]]]]].
  - exists mid. split; [exact Hmid|]. split; [exact Hret | exact Htrace].
  - exfalso. vm_compute in Hthrow. discriminate Hthrow.
Defined.

(** ** The retry header *)

Section Retry.

Lemma find_snoc {A} (f : A → bool) (l : list A) (x : A) :
  List.find f (l ++ [x])
  = match List.find f l with
    | Some y => Some y
    | None => if f x then Some x else None
    end.
Proof.
  induction l as [|y l IH]; cbn; [done|]. by destruct (f y).
Qed.

(** A table filled key by key under lower-cased names holds, for a name,
    the value of the last key that equals the name up to case. *)
Lemma lookup_lower_cased {V} (val : string → V) (keys : list string)
    (acc : gmap string V) (name : string) :
  foldl (λ acc key, <[Js.toLowerCase key := val key]> acc) acc keys !! name
  = match List.find (λ key, String.eqb (Js.toLowerCase key) name) (rev keys) with
    | Some key => Some (val key)
    | None => acc !! name
    end.
Proof.
  revert acc. induction keys as [|key keys IH]; intros acc; [done|].
  cbn [foldl rev]. rewrite IH, find_snoc.
  destruct (List.find _ (rev keys)); [done|].
  destruct (String.eqb (Js.toLowerCase key) name) eqn:Hkey.
  - apply String.eqb_eq in Hkey. subst name. apply lookup_insert_eq.
  - apply String.eqb_neq in Hkey. by apply lookup_insert_ne.
Qed.

End Retry.

(** X18: [isRetryRequest] reads the retry number by name up to case: its
    answer is the truthiness of the value of the last header whose name is
    ["x-slack-retry-num"] up to case (a later key overwrites an earlier one
    in the lower-cased copy), and [false] when there is no such header. A
    missing or empty value is not a retry. *)
Theorem retry_number_is_read_up_to_case (hs : list (string * option string)) :
  Lambda.isRetryRequest hs
  = match List.find (λ key, String.eqb (Js.toLowerCase key) "x-slack-retry-num")
                    (rev (map fst hs)) with
    | Some key => Js.truthy_opt (default None (Js.obj_get key hs))
    | None => false
    end.
Proof.
  unfold Lambda.isRetryRequest. cbv zeta.
  rewrite (lookup_lower_cased (λ key, default None (Js.obj_get key hs))).
  by destruct (List.find _ (rev (map fst hs))).
Qed.

(** ** The calls to the Backlog wiki *)

Section BacklogFacts.
Import Backlog.

Lemma append_assoc (a b c : string) : (a +:+ b) +:+ c = a +:+ (b +:+ c).
Proof.
  induction a as [|x a IH]; [done|].
  change (String x ((a +:+ b) +:+ c) = String x (a +:+ (b +:+ c))).
  by rewrite IH.
Qed.

Lemma all_bytes_app (P : ascii → bool) (a b : string) :
  all_bytes P (a +:+ b) = all_bytes P a && all_bytes P b.
Proof.
  induction a as [|c a IH]; simpl; [done|]. rewrite IH. by rewrite andb_assoc.
Qed.

Lemma count_byte_app (c : ascii) (a b : string) :
  count_byte c (a +:+ b) = (count_byte c a + count_byte c b)%nat.
Proof. induction a as [|c' a IH]; simpl; [done|]. rewrite IH. lia. Qed.

Lemma count_byte_absent (P : ascii → bool) (c : ascii) (s : string) :
  all_bytes P s = true → P c = false → count_byte c s = 0%nat.
Proof.
  intros Hs Hc. induction s as [|c' s IH]; cbn in *; [done|].
  apply andb_true_iff in Hs as [Hc' Hs]. rewrite (IH Hs).
  destruct (Ascii.eqb c c') eqn:Heq; [|done].
  apply Ascii.eqb_eq in Heq. subst c'. congruence.
Qed.

Lemma encode_byte_encoded (c : ascii) :
  all_bytes encoded_byte (encode_byte c) = true.
Proof. destruct c as [[] [] [] [] [] [] [] []]; reflexivity. Qed.

Lemma form_urlencode_encoded (s : string) :
  all_bytes encoded_byte (form_urlencode s) = true.
Proof.
  induction s as [|c s IH]; simpl; [done|].
  by rewrite all_bytes_app, encode_byte_encoded, IH.
Qed.

(** A byte that the serializer does not write for names and values occurs
    in the text of [k] parameters only as a separator. *)
Lemma count_byte_serialize (c : ascii) (params : list (string * string)) :
  encoded_byte c = false →
  count_byte c (serialize params)
  = ((if Ascii.eqb c "=" then length params else 0)
     + (if Ascii.eqb c "&" then length params - 1 else 0))%nat.
Proof.
  intros Hc.
  assert (Hclean : ∀ s, count_byte c (form_urlencode s) = 0%nat).
  { intros s. apply (count_byte_absent encoded_byte); [|exact Hc].
    apply form_urlencode_encoded. }
  induction params as [|[name value] params IH]; cbn [serialize length].
  - by destruct (Ascii.eqb c "="), (Ascii.eqb c "&").
  - destruct params as [|p params].
    + rewrite !count_byte_app, !Hclean. cbn.
      destruct (Ascii.eqb c "="), (Ascii.eqb c "&"); lia.
    + rewrite !count_byte_app, !Hclean, IH. cbn [count_byte length].
      destruct (Ascii.eqb c "="), (Ascii.eqb c "&"); lia.
Qed.


Lemma configured_spec (net : Net) :
  negb (Js.truthy_opt (BACKLOG_SPACE_ID (env net)))
  || negb (Js.truthy_opt (BACKLOG_API_KEY (env net)))
  = negb (configured net).
Proof. unfold configured. by rewrite negb_andb. Qed.

Lemma requests_fetch (url : string) (net : Net) :
  requests (snd (fetch url net)) = requests net ++ [url].
Proof. unfold fetch. by destruct (answers net) as [|[e|r|] rest]. Qed.

Lemma requests_fetchSearchWiki keyword projectId maxResults (net : Net) :
  configured net = true →
  requests (snd (fetchSearchWiki keyword projectId maxResults net))
  = requests net
    ++ [wikis_endpoint net +:+ "?"
        +:+ serialize
              (search_params (Js.interp (BACKLOG_API_KEY (env net))) keyword
                 maxResults
                 (Js.or_else projectId (BACKLOG_PROJECT_ID (env net))))].
Proof.
  intros Hc. unfold fetchSearchWiki. cbv zeta. rewrite configured_spec, Hc.
  cbn [negb].
  match goal with
  | |- context [fetch ?url net] =>
      pose proof (requests_fetch url net) as Hurl;
      destruct (fetch url net) as [[r|e|] net1]
  end;
    cbn [snd] in Hurl;
    repeat (match goal with
            | |- context [match ?x with _ => _ end] => destruct x
            end);
    cbn [snd]; rewrite Hurl; unfold wikis_endpoint;
    rewrite !append_assoc; reflexivity.
Qed.

Lemma requests_fetchBacklogWikiContent trim wikiId (net : Net) :
  configured net = true →
  requests (snd (fetchBacklogWikiContent trim wikiId net))
  = requests net
    ++ [wikis_endpoint net +:+ "/" +:+ wikiId +:+ "?apiKey="
        +:+ Js.interp (BACKLOG_API_KEY (env net))].
Proof.
  intros Hc. unfold fetchBacklogWikiContent. cbv zeta.
  rewrite configured_spec, Hc. cbn [negb].
  match goal with
  | |- context [fetch ?url net] =>
      pose proof (requests_fetch url net) as Hurl;
      destruct (fetch url net) as [[r|e|] net1]
  end;
    cbn [snd] in Hurl;
    repeat (match goal with
            | |- context [match ?x with _ => _ end] => destruct x
            end);
    cbn [snd]; rewrite Hurl; unfold wikis_endpoint;
    rewrite !append_assoc; reflexivity.
Qed.



End BacklogFacts.

(** X19: each call to the Backlog wiki makes at most one request. When
    [BACKLOG_SPACE_ID] or [BACKLOG_API_KEY] is unset or empty, both calls
    throw the configuration error and request nothing. Otherwise each makes
    exactly one request, whatever the answer, and the request goes to the
    wiki API of the space: [fetchSearchWiki] to the endpoint followed by a
    query, [fetchBacklogWikiContent] to the endpoint followed by the
    identifier, as it is given, and the key. *)
Theorem wiki_calls_request_at_most_once
    (trim : string → string) (keyword : string) (projectId : option string)
    (maxResults wikiId : string) (net : Backlog.Net) :
  let search := Backlog.fetchSearchWiki keyword projectId maxResults net in
  let content := Backlog.fetchBacklogWikiContent trim wikiId net in
  if Backlog.configured net then
    (∃ query,
       Backlog.requests (snd search)
       = Backlog.requests net ++ [Backlog.wikis_endpoint net +:+ "?" +:+ query])
    ∧ Backlog.requests (snd content)
      = Backlog.requests net
        ++ [Backlog.wikis_endpoint net +:+ "/" +:+ wikiId +:+ "?apiKey="
            +:+ Js.interp (Backlog.BACKLOG_API_KEY (Backlog.env net))]
  else
    search = (Thrown Backlog.config_error, net)
    ∧ content = (Thrown Backlog.config_error, net).
Proof.
  cbv zeta. destruct (Backlog.configured net) eqn:Hc.
  - split; [eexists; by apply requests_fetchSearchWiki|].
    by apply requests_fetchBacklogWikiContent.
  - unfold Backlog.fetchSearchWiki, Backlog.fetchBacklogWikiContent.
    cbv zeta. by rewrite configured_spec, Hc.
Qed.

(** X20: the query of a search is escaped. With the environment set, the
    request of [fetchSearchWiki] is the endpoint followed by the serialized
    parameters: [apiKey], [keyword] when the keyword is not empty, [count],
    and [projectIdOrKey] when a project is given or set by default.
    Whatever bytes the key, the keyword, the count and the project hold, the
    query has one [=] per parameter, one [&] between two parameters, and no
    other byte than letters, digits, [*-._+%]: a keyword cannot add or end
    a parameter. *)
Theorem search_query_is_escaped
    (keyword : string) (projectId : option string) (maxResults : string)
    (net : Backlog.Net) :
  Backlog.configured net = true →
  let projectIdToUse :=
    Js.or_else projectId (Backlog.BACKLOG_PROJECT_ID (Backlog.env net)) in
  let params :=
    Backlog.search_params
      (Js.interp (Backlog.BACKLOG_API_KEY (Backlog.env net)))
      keyword maxResults projectIdToUse in
  let query := Backlog.serialize params in
  Backlog.requests
    (snd (Backlog.fetchSearchWiki keyword projectId maxResults net))
  = Backlog.requests net ++ [Backlog.wikis_endpoint net +:+ "?" +:+ query]
  ∧ length params
    = (2 + (if Js.truthy keyword then 1 else 0)
       + (if Js.truthy_opt projectIdToUse then 1 else 0))%nat
  ∧ Backlog.count_byte "=" query = length params
  ∧ Backlog.count_byte "&" query = (length params - 1)%nat
  ∧ ∀ c, Backlog.encoded_byte c = false → c ≠ "="%char → c ≠ "&"%char →
         Backlog.count_byte c query = 0%nat.
Proof.
  intros Hc projectIdToUse params query.
  split; [by apply requests_fetchSearchWiki|].
  split.
  { subst params. unfold Backlog.search_params. rewrite !length_app.
    destruct (Js.truthy keyword), (Js.truthy_opt projectIdToUse); reflexivity. }
  split; [|split].
  - subst query. by rewrite count_byte_serialize.
  - subst query. by rewrite count_byte_serialize.
  - intros c Henc Heq Hamp. subst query.
    rewrite count_byte_serialize by done.
    apply Ascii.eqb_neq in Heq, Hamp. by rewrite Heq, Hamp.
Qed.

Lemma search_query_witness :
  let net := Backlog.mkNet
               (Backlog.mkEnv (Some "space") (Some "key") None) [] [] in
  Backlog.requests (snd (Backlog.fetchSearchWiki "a&b=c d" None "10" net))
  = [] ++ ["https://space.backlog.com/api/v2/wikis"
           +:+ "?" +:+ "apiKey=key&keyword=a%26b%3Dc+d&count=10"].
Proof.
  apply (search_query_is_escaped "a&b=c d" None "10"
           (Backlog.mkNet (Backlog.mkEnv (Some "space") (Some "key") None) [] [])).
  reflexivity.
Defined.



(** ** A verified mention, end to end *)

Section Pipeline.
Context `{RT : Runtime}.

(** [verifyRequest] on a signed [event_callback]. *)
Lemma run_verifyRequest_signed hs rawBody (s : State) :
  signed hs rawBody s →
  ∃ s1, SlackUtils.verifyRequest (Some "event_callback") hs rawBody s
        = (Returned false, s1)
        ∧ st_world s1 = st_world s
        ∧ st_trace s1 = st_trace s.
Proof.
  intros (t & n & Ht & Hn & Hwindow & Hsig).
  pose proof (run_isValidSlackRequest hs rawBody s) as Hvalid.
  rewrite Ht, Hsig, Hn in Hvalid.
  rewrite (parseInt_truthy t n Hn), timingSafeEqual_refl in Hvalid.
  unfold SlackUtils.out_of_window in Hvalid.
  replace (60 * 5 * 1000 <? Z.abs (w_clock (st_world s) (st_ticks s) - 1000 * n))
    with false in Hvalid by (symmetry; apply Z.ltb_ge; lia).
  cbn [andb negb] in Hvalid.
  assert (Hrun : SlackUtils.verifyRequest (Some "event_callback") hs rawBody s
                 = (Returned false,
                    snd (SlackUtils.isValidSlackRequest hs rawBody s))).
  { unfold SlackUtils.verifyRequest. apply try_returned.
    rewrite (bind_returned _ _ _ _ _ (returned_run _ _ _ Hvalid)).
    by rewrite bool_decide_eq_true_2. }
  pose proof (world_verifyRequest (Some "event_callback") hs rawBody s) as Hw.
  pose proof (trace_verifyRequest (Some "event_callback") hs rawBody s) as Htr.
  rewrite Hrun in Hw, Htr. cbn [snd] in Hw, Htr.
  eexists. split; [exact Hrun|]. by split.
Qed.

(** [getBotId] when the identity lookup answers with an identifier. *)
Lemma run_getBotId_world (a : AuthTest) rest (s : State) :
  w_auth_test (st_world s) = Ok a :: rest →
  Js.truthy_opt (auth_user_id a) = true →
  ∃ s1, SlackUtils.getBotId s = (Returned (Js.interp (auth_user_id a)), s1)
        ∧ st_trace s1 = st_trace s ++ [CallAuthTest]
        ∧ w_replies (st_world s1) = w_replies (st_world s).
Proof.
  intros Ha Hu. unfold SlackUtils.getBotId, Client.auth_test.
  unfold try_catch, bind, log, get_state, set_world, of_result, ret. cbn.
  rewrite Ha. cbn. rewrite Hu. cbn. eauto.
Qed.

(** The history check when the history is quiet. *)
Lemma run_checkIfAlreadyResponded_quiet (event : SlackEvent) (s : State) :
  is_Some (ev_channel event) → is_Some (ev_ts event) →
  quiet_history s →
  ∃ s1, SlackUtils.checkIfAlreadyResponded event s = (Returned false, s1)
        ∧ st_trace s1
          = st_trace s
            ++ [CallReplies (ev_channel event) (SlackUtils.threadTs_of event) 10].
Proof.
  intros Hc Ht Hquiet. unfold SlackUtils.checkIfAlreadyResponded.
  rewrite !bool_decide_eq_true_2 by done. cbn [andb negb].
  unfold quiet_history in Hquiet. unfold Client.conversations_replies.
  unfold try_catch, bind, log, get_state, set_world, of_result, ret, throw.
  cbn. destruct (w_replies (st_world s)) as [|[[messages|]|e] rest]; cbn;
    eauto.
  apply Nat.leb_le in Hquiet. rewrite Hquiet. eauto.
Qed.

(** The dispatch of a mention always returns, after the handler was
    started. *)
Lemma dispatch_mention_returns (event : SlackEvent) botUserId timeoutMs s :
  ev_type event = Some "app_mention" →
  Lambda.isMessageEvent event = true →
  ∃ s1 after,
    Lambda.dispatch event botUserId timeoutMs s = (Returned tt, s1)
    ∧ st_trace s1 = st_trace s ++ [StepDispatch HandleNewAppMention] ++ after.
Proof.
  intros Hty Hmsg. rewrite (run_dispatch_mention event botUserId timeoutMs s Hty Hmsg).
  destruct (emits_handleNewAppMention event botUserId
              (started HandleNewAppMention s)) as (new & Hnew & _).
  destruct (HandleAppMention.handleNewAppMention event botUserId
              (started HandleNewAppMention s)) as [[[]|e|] s2]; cbn [snd] in Hnew.
  - exists s2, new. split; [done|]. rewrite Hnew. unfold started. cbn.
    by rewrite <- app_assoc.
  - destruct (run_apology_post
                (mkPostMessage (ev_channel event)
                   (Js.or_else (ev_thread_ts event) (ev_ts event))
                   Lambda.apology false) s2) as (s3 & Hrun & Ht3).
    exists s3, (new ++ [apology_post event]). split; [done|].
    rewrite Ht3, Hnew. unfold started, apology_post. cbn.
    by rewrite <- !app_assoc.
  - destruct (run_apology_post
                (mkPostMessage (ev_channel event)
                   (Js.or_else (ev_thread_ts event) (ev_ts event))
                   Lambda.apology false) s2) as (s3 & Hrun & Ht3).
    exists s3, (new ++ [apology_post event]). split; [done|].
    rewrite Ht3, Hnew. unfold started, apology_post. cbn.
    by rewrite <- !app_assoc.
Qed.

(** The inner [try] block of the Lambda handler on a signed mention. *)
Lemma run_process_event_mention (event : APIGatewayProxyEvent)
    (slackEvent : SlackEvent) (a : AuthTest) rest (s : State) :
  ev_type slackEvent = Some "app_mention" →
  is_Some (ev_channel slackEvent) → is_Some (ev_ts slackEvent) →
  signed (lambda_headers event) (Lambda.rawBody_of event) (snd (log StepVerify s)) →
  w_auth_test (st_world s) = Ok a :: rest →
  Js.truthy_opt (auth_user_id a) = true →
  quiet_history s →
  ∃ s1 after,
    Lambda.process_event event (Lambda.rawBody_of event) (Some "event_callback")
      slackEvent s
    = (Returned (mkResult 200 [] "処理が完了しました"), s1)
    ∧ st_trace s1
      = st_trace s
        ++ [StepVerify; CallAuthTest; StepHistoryCheck;
            CallReplies (ev_channel slackEvent)
              (SlackUtils.threadTs_of slackEvent) 10;
            StepDispatch HandleNewAppMention]
        ++ after.
Proof.
  intros Hty Hch Hts Hsigned Ha Hu Hquiet.
  assert (Hmsg : Lambda.isMessageEvent slackEvent = true).
  { unfold Lambda.isMessageEvent. rewrite (bool_decide_eq_true_2 _ Hty).
    by rewrite (bool_decide_eq_true_2 _ Hch), (bool_decide_eq_true_2 _ Hts). }
  unfold Lambda.process_event. cbv zeta. rewrite bind_log.
  fold (lambda_headers event).
  destruct (run_verifyRequest_signed _ _ _ Hsigned) as (s2 & Hrun2 & Hw2 & Ht2).
  rewrite (bind_returned _ _ _ _ _ Hrun2).
  destruct (run_getBotId_world a rest s2) as (s3 & Hrun3 & Ht3 & Hr3);
    [by rewrite Hw2 | done |].
  rewrite (bind_returned _ _ _ _ _ Hrun3).
  unfold Lambda.history_gate. rewrite Hmsg.
  destruct (run_checkIfAlreadyResponded_quiet slackEvent
              (snd (log StepHistoryCheck s3)) Hch Hts)
    as (s4 & Hrun4 & Ht4).
  { unfold quiet_history in *. cbn. by rewrite Hr3, Hw2. }
  rewrite (bind_returned _ _ s3 None s4).
  2: { apply try_returned. rewrite bind_log.
       by rewrite (bind_returned _ _ _ _ _ Hrun4). }
  cbv beta iota.
  match goal with
  | |- context [Lambda.dispatch slackEvent ?b ?ms] =>
      destruct (dispatch_mention_returns slackEvent b ms s4 Hty Hmsg)
        as (s5 & after & Hrun5 & Ht5);
      rewrite (bind_returned _ _ _ _ _ Hrun5)
  end.
  exists s5, after. split; [done|].
  rewrite Ht5, Ht4. cbn. rewrite Ht3, Ht2. cbn. by rewrite <- !app_assoc.
Qed.

End Pipeline.

(** X22: a verified mention is dispatched. For an [event_callback] that
    carries an [app_mention] with a channel and a timestamp, delivered for
    the first time, signed within the replay window, when the identity
    lookup answers with an identifier and the thread history gives no
    reason to skip: the Lambda handler answers 200 with the completion
    notice after it has gone, in this order, through the verification, the
    identity lookup, the history check (ten messages of the thread of the
    event) and the start of the mention handler, whatever the handler then
    does. *)
Theorem verified_mention_is_dispatched `{RT : Runtime}
    (event : APIGatewayProxyEvent) (p : Payload) (slackEvent : SlackEvent)
    (a : AuthTest) (rest : list (Result AuthTest)) (s : State) :
  JSON_parse (Lambda.rawBody_of event) = Parsed p →
  p_type p = Some "event_callback" →
  p_event p = Some slackEvent →
  ev_type slackEvent = Some "app_mention" →
  is_Some (ev_channel slackEvent) →
  is_Some (ev_ts slackEvent) →
  (∀ id, p_event_id p = Some id → id ∉ DedupCache.processedEvents (st_cache s)) →
  signed (lambda_headers event) (Lambda.rawBody_of event) s →
  w_auth_test (st_world s) = Ok a :: rest →
  Js.truthy_opt (auth_user_id a) = true →
  quiet_history s →
  let run := Lambda.handler event s in
  fst run = Returned (mkResult 200 [] "処理が完了しました")
  ∧ ∃ before after,
      st_trace (snd run)
      = st_trace s ++ before
        ++ [StepVerify; CallAuthTest; StepHistoryCheck;
            CallReplies (ev_channel slackEvent)
              (SlackUtils.threadTs_of slackEvent) 10;
            StepDispatch HandleNewAppMention]
        ++ after.
Proof.
  intros Hp Hty Hev Het Hch Hts Hfresh Hsigned Ha Hu Hquiet run. subst run.
  assert (Hrest : ∀ s2,
    st_world s2 = st_world s → st_ticks s2 = st_ticks s →
    ∃ s3 after,
      try_catch
        (Lambda.process_event event (Lambda.rawBody_of event) (p_type p) slackEvent)
        (λ _, ret (mkResult 200 []
                     "Error occurred, but returning 200 to avoid retries")) s2
      = (Returned (mkResult 200 [] "処理が完了しました"), s3)
      ∧ st_trace s3
        = st_trace s2
          ++ [StepVerify; CallAuthTest; StepHistoryCheck;
              CallReplies (ev_channel slackEvent)
                (SlackUtils.threadTs_of slackEvent) 10;
              StepDispatch HandleNewAppMention]
          ++ after).
  { intros s2 Hw Hticks. rewrite Hty.
    destruct (run_process_event_mention event slackEvent a rest s2)
      as (s3 & after & Hrun & Htrace); try done.
    - destruct Hsigned as (t & n & Ht & Hn & Hwindow & Hsig).
      exists t, n. cbn. by rewrite Hw, Hticks.
    - by rewrite Hw.
    - unfold quiet_history in *. by rewrite Hw.
    - exists s3, after. split; [by apply try_returned | done]. }
  enough (∃ s3 before after,
            Lambda.handler event s
            = (Returned (mkResult 200 [] "処理が完了しました"), s3)
            ∧ st_trace s3
              = st_trace s ++ before
                ++ [StepVerify; CallAuthTest; StepHistoryCheck;
                    CallReplies (ev_channel slackEvent)
                      (SlackUtils.threadTs_of slackEvent) 10;
                    StepDispatch HandleNewAppMention]
                ++ after)
    as (s3 & before & after & -> & Ht)
    by (split; [done | by exists before, after]).
  unfold Lambda.handler. cbv zeta. rewrite Hp.
  rewrite bool_decide_eq_false_2 by (rewrite Hty; discriminate).
  rewrite Hev. rewrite (bool_decide_eq_true_2 _ Hty). cbn [andb].
  unfold try_catch at 1.
  destruct (p_event_id p) as [id|] eqn:Hid; cbn [Js.truthy_opt].
  - destruct (Js.truthy id).
    + rewrite (bind_returned _ _ _ _ _ (run_cache_gate _ s)).
      cbn [Js.interp from_option Datatypes.id].
      rewrite answer_is_membership.
      rewrite bool_decide_eq_false_2 by (by apply Hfresh).
      match goal with
      | |- context [try_catch _ _ ?st] =>
          destruct (Hrest st eq_refl eq_refl) as (s3 & after & -> & Ht)
      end.
      exists s3, [StepDedupCache id], after. split; [done|].
      rewrite Ht. cbn. by rewrite <- !app_assoc.
    + rewrite (bind_returned _ _ _ _ _ (eq_refl : ret false s = (Returned false, s))).
      destruct (Hrest s eq_refl eq_refl) as (s3 & after & -> & Ht).
      by exists s3, [], after.
  - rewrite (bind_returned _ _ _ _ _ (eq_refl : ret false s = (Returned false, s))).
    destruct (Hrest s eq_refl eq_refl) as (s3 & after & -> & Ht).
    by exists s3, [], after.
Qed.

Lemma verified_mention_witness :
  let run := Lambda.handler (RT := Sample.runtime)
               (Sample.request Sample.body_mention)
               (boot Sample.generation_fails) in
  fst run = Returned (mkResult 200 [] "処理が完了しました")
  ∧ ∃ before after,
      st_trace (snd run)
      = [] ++ before
        ++ [StepVerify; CallAuthTest; StepHistoryCheck;
            CallReplies (Some "C1") (Some "1700000000.25") 10;
            StepDispatch HandleNewAppMention]
        ++ after.
Proof.
  apply (verified_mention_is_dispatched (RT := Sample.runtime)
           (Sample.request Sample.body_mention) Sample.payload_mention
           Sample.mention (mkAuthTest (Some "U1") (Some "B1")) [Sample.auth_ok]
           (boot Sample.generation_fails)).
  - reflexivity.
  - reflexivity.
  - reflexivity.
  - reflexivity.
  - by eexists.
  - by eexists.
  - intros id _. apply not_elem_of_empty.
  - exists "1700000000", 1700000000.
    split; [reflexivity|]. split; [reflexivity|].
    split; [vm_compute; discriminate | reflexivity].
  - reflexivity.
  - reflexivity.
  - vm_compute. lia.
Defined.
